(** * sapcli checkout: exporting ADT objects into an abapGit file tree

    A shallow embedding of [sap/cli/checkout.py].  The command group exports
    programs, interfaces, classes and whole packages of an ABAP system into
    a local directory tree.  The Python code is effectful: it reads from
    the ADT connection, writes files, creates directories and prints to the
    error stream.  Those effects are modelled by explicit state passing over
    a [world] (file tree, working directory, error stream, remote state)
    in an exception monad.

    Definitions:
    - [PyStr]        : the [str] operations the module uses;
    - [PosixPath]    : [os.path.join], [normpath], [abspath], [basename];
    - [Os]           : exceptions, the world, [os.path.isdir],
                       [os.makedirs], [open(.., 'w')], [print] to
                       [sys.stderr];
    - [Checkout]     : the functions of [sap/cli/checkout.py], over the
                       ADT connection and the [sap.platform] helpers they
                       call;
    - [Frame], [CheckoutSpec] : the vocabulary the properties are stated
                       in;
    - [Demo]         : a small system to run the checkout on.

    Properties:
    - [PyStrFacts], [PathFacts], [OsFacts], [FsFacts] : strings, paths,
                       the monad, directories and files;
    - [CheckoutFacts], [ExporterFacts] : the dispatch and the exporters;
    - the properties of the checkout, and their instances on [Demo].

    Limits of the model: POSIX paths; strings are byte strings and
    [lower] maps ASCII letters; the file tree has no symbolic links and no
    permissions, and paths are resolved as [normpath] does. *)

From Stdlib Require Import String Ascii List Bool Arith Lia.
From stdpp Require Import gmap strings list fin_maps.

(** ** Python strings *)

Module PyStr.

(** ASCII case mapping of [str.lower]: ['A'..'Z'] go to ['a'..'z'], every
    other character is kept.  ABAP object and package names are ASCII. *)
Definition is_upper (c : ascii) : bool :=
  let n := nat_of_ascii c in (65 <=? n) && (n <=? 90).

Definition lower_ascii (c : ascii) : ascii :=
  if is_upper c then ascii_of_nat (nat_of_ascii c + 32) else c.

Fixpoint lower (s : string) : string :=
  match s with
  | EmptyString => EmptyString
  | String c s' => String (lower_ascii c) (lower s')
  end.

(** No character of [s] is an upper-case letter. *)
Fixpoint no_upper (s : string) : bool :=
  match s with
  | EmptyString => true
  | String c s' => negb (is_upper c) && no_upper s'
  end.

Definition is_sep (c : ascii) : bool := bool_decide (c = "/"%char).

(** [s.startswith('/')] and [s.endswith('/')]. *)
Definition startswith_sep (s : string) : bool :=
  match s with
  | String c _ => is_sep c
  | EmptyString => false
  end.

Fixpoint endswith_sep (s : string) : bool :=
  match s with
  | EmptyString => false
  | String c EmptyString => is_sep c
  | String _ s' => endswith_sep s'
  end.

(** ['/' in s]. *)
Fixpoint has_sep (s : string) : bool :=
  match s with
  | EmptyString => false
  | String c s' => is_sep c || has_sep s'
  end.

Definition is_empty (s : string) : bool :=
  match s with EmptyString => true | _ => false end.

(** [s.split('/')]: never the empty list. *)
Fixpoint split_sep (s : string) : list string :=
  match s with
  | EmptyString => [EmptyString]
  | String c s' =>
      if is_sep c then EmptyString :: split_sep s'
      else match split_sep s' with
           | h :: t => String c h :: t
           | [] => [String c EmptyString]
           end
  end.

(** ['/'.join(l)]. *)
Definition join_sep (l : list string) : string := String.concat "/" l.

End PyStr.

(** ** posixpath *)

Module PosixPath.
Import PyStr.

Definition isabs (s : string) : bool := startswith_sep s.

(** One step of the loop of [posixpath.join]. *)
Definition join (a b : string) : string :=
  if startswith_sep b then b
  else if is_empty a || endswith_sep a then a +:+ b
  else a +:+ "/" +:+ b.

(** [os.path.join] of [a] and all of [p]. *)
Definition join_all (a : string) (p : list string) : string :=
  fold_left join p a.

(** POSIX keeps exactly two leading slashes apart; three or more count
    as one. *)
Definition initial_slashes (path : string) : nat :=
  match path with
  | String c1 (String c2 (String c3 _)) =>
      if is_sep c1 then (if is_sep c2 && negb (is_sep c3) then 2 else 1) else 0
  | String c1 (String c2 EmptyString) =>
      if is_sep c1 then (if is_sep c2 then 2 else 1) else 0
  | String c1 EmptyString => if is_sep c1 then 1 else 0
  | EmptyString => 0
  end.

Definition is_dot (s : string) : bool := bool_decide (s = ".").
Definition is_dotdot (s : string) : bool := bool_decide (s = "..").

Definition last_is_dotdot (l : list string) : bool :=
  match last l with
  | Some c => is_dotdot c
  | None => false
  end.

(** Body of the [for comp in comps] loop of [normpath]. *)
Definition norm_step (rooted : bool) (new_comps : list string) (comp : string)
  : list string :=
  if is_empty comp || is_dot comp then new_comps
  else if negb (is_dotdot comp)
          || (negb rooted && bool_decide (new_comps = []))
          || last_is_dotdot new_comps
       then new_comps ++ [comp]
       else removelast new_comps.

Definition norm_comps (rooted : bool) (path : string) : list string :=
  fold_left (norm_step rooted) (split_sep path) [].

Fixpoint slashes (n : nat) : string :=
  match n with
  | O => EmptyString
  | S n' => String "/" (slashes n')
  end.

Definition normpath (path : string) : string :=
  if is_empty path then "."
  else
    let i := initial_slashes path in
    let p := slashes i +:+ join_sep (norm_comps (negb (i =? 0)) path) in
    if is_empty p then "." else p.

(** [os.path.abspath] with the working directory made explicit. *)
Definition absolute (cwd path : string) : string :=
  if isabs path then path else join cwd path.

Definition abspath (cwd path : string) : string :=
  normpath (absolute cwd path).

(** A single path component: not empty, no slash, neither [.] nor [..]. *)
Definition is_component (s : string) : bool :=
  negb (is_empty s) && negb (has_sep s) && negb (is_dot s) && negb (is_dotdot s).

(** [os.path.basename]: what follows the last slash. *)
Definition basename (path : string) : string :=
  default EmptyString (last (split_sep path)).

End PosixPath.

(** ** The operating system: exceptions, files, directories, streams *)

Module Os.
Import PyStr PosixPath.

(** The Python exceptions the checkout can meet.  [OtherError] stands for
    every exception class that is not a [KeyError] and is not raised by
    the file-system calls below, such as the HTTP errors of the ADT
    connection. *)
Inductive exn : Type :=
| KeyError (key : string)
| TypeError
| FileNotFoundError
| FileExistsError
| NotADirectoryError
| IsADirectoryError
| OtherError (cls : string).

(** [isinstance(e, KeyError)], what [except KeyError] tests. *)
Definition is_KeyError (e : exn) : bool :=
  match e with
  | KeyError _ => true
  | _ => false
  end.

Inductive result (A : Type) : Type :=
| Ok (a : A)
| Raised (e : exn).
Arguments Ok {A} a.
Arguments Raised {A} e.

Inductive node : Type :=
| Dir
| File (content : string).

(** The file tree: a node for every existing path, keyed by the list of
    the path's components below the root.  The root itself is always a
    directory and is not stored.  There are no symbolic links and no
    permissions. *)
Definition lookup_node (tree : gmap (list string) node) (k : list string)
  : option node :=
  match k with
  | [] => Some Dir
  | _ => tree !! k
  end.

Definition node_is_dir (n : option node) : bool :=
  match n with
  | Some Dir => true
  | _ => false
  end.

(** Everything the checkout reads and changes: the file tree, the
    working directory of the process, the lines printed to [sys.stderr]
    and the state behind the ADT connection. *)
Record world (R : Type) : Type := World {
  fs : gmap (list string) node;
  cwd : string;
  stderr : list string;
  remote : R
}.
Arguments World {R} fs cwd stderr remote.
Arguments fs {R} w.
Arguments cwd {R} w.
Arguments stderr {R} w.
Arguments remote {R} w.

Definition set_fs {R : Type} (tree : gmap (list string) node) (w : world R)
  : world R :=
  World tree (cwd w) (stderr w) (remote w).

Definition set_stderr {R : Type} (lines : list string) (w : world R)
  : world R :=
  World (fs w) (cwd w) lines (remote w).

Definition set_remote {R : Type} (r : R) (w : world R) : world R :=
  World (fs w) (cwd w) (stderr w) r.

(** A Python statement: it runs in a world, and returns a value or raises,
    leaving a new world either way. *)
Definition M (R A : Type) : Type := world R -> result A * world R.

Definition ret {R A : Type} (a : A) : M R A := fun w => (Ok a, w).
Definition raise {R A : Type} (e : exn) : M R A := fun w => (Raised e, w).
Definition bind {R A B : Type} (m : M R A) (k : A -> M R B) : M R B :=
  fun w =>
    match m w with
    | (Ok a, w') => k a w'
    | (Raised e, w') => (Raised e, w')
    end.

(** A call that does not touch the world. *)
Definition returning {R A : Type} (r : result A) : M R A := fun w => (r, w).

(** [try: body except KeyError: handler]. *)
Definition try_except_KeyError {R A : Type} (body handler : M R A) : M R A :=
  fun w =>
    match body w with
    | (Raised e, w') => if is_KeyError e then handler w' else (Raised e, w')
    | r => r
    end.

(** [for x in l: body(x)], stopping at the first exception. *)
Fixpoint for_each {R A : Type} (l : list A) (body : A -> M R unit) : M R unit :=
  match l with
  | [] => ret tt
  | x :: l' => bind (body x) (fun _ => for_each l' body)
  end.

(** The node a path names: the path is resolved from the working
    directory as [normpath] does, dropping empty and [.] components and
    stepping back at [..]. *)
Definition canon (cwd_ path : string) : list string :=
  norm_comps true (absolute cwd_ path).

(** [os.path.isdir(path)]; [None] is not a path. *)
Definition os_path_isdir {R : Type} (path : option string) : M R bool :=
  fun w =>
    match path with
    | None => (Raised TypeError, w)
    | Some p =>
        if is_empty p then (Ok false, w)
        else (Ok (node_is_dir (lookup_node (fs w) (canon (cwd w) p))), w)
    end.

(** [os.makedirs] below [done]: every missing directory of [todo] is
    created in turn; a file in the way stops it, and what was created
    before stays. *)
Fixpoint mkdir_chain (done todo : list string) (tree : gmap (list string) node)
  : result unit * gmap (list string) node :=
  match todo with
  | [] => (Ok tt, tree)
  | c :: todo' =>
      let p := done ++ [c] in
      match tree !! p with
      | Some Dir => mkdir_chain p todo' tree
      | Some (File _) =>
          (Raised (match todo' with
                   | [] => FileExistsError
                   | _ => NotADirectoryError
                   end), tree)
      | None => mkdir_chain p todo' (<[p := Dir]> tree)
      end
  end.

(** [os.makedirs(path)] ([exist_ok] is false). *)
Definition os_makedirs {R : Type} (path : option string) : M R unit :=
  fun w =>
    match path with
    | None => (Raised TypeError, w)
    | Some p =>
        if is_empty p then (Raised FileNotFoundError, w)
        else
          let k := canon (cwd w) p in
          if node_is_dir (lookup_node (fs w) k) then (Raised FileExistsError, w)
          else
            let '(r, tree) := mkdir_chain [] k (fs w) in
            (r, set_fs tree w)
    end.

(** [open(path, 'w')]: the file is created, or emptied when it exists.
    The handle is the node the path names. *)
Definition open_w {R : Type} (path : string) : M R (list string) :=
  fun w =>
    if is_empty path then (Raised FileNotFoundError, w)
    else
      let k := canon (cwd w) path in
      match lookup_node (fs w) (removelast k) with
      | None => (Raised FileNotFoundError, w)
      | Some (File _) => (Raised NotADirectoryError, w)
      | Some Dir =>
          match lookup_node (fs w) k with
          | Some Dir => (Raised IsADirectoryError, w)
          | Some (File _) =>
              if endswith_sep path then (Raised NotADirectoryError, w)
              else (Ok k, set_fs (<[k := File EmptyString]> (fs w)) w)
          | None =>
              if endswith_sep path then (Raised IsADirectoryError, w)
              else (Ok k, set_fs (<[k := File EmptyString]> (fs w)) w)
          end
      end.

(** [dest.write(text)] on an open handle: the text goes to the end of
    the file. *)
Definition file_write {R : Type} (dest : list string) (text : string) : M R unit :=
  fun w =>
    match fs w !! dest with
    | Some (File old) => (Ok tt, set_fs (<[dest := File (old +:+ text)]> (fs w)) w)
    | _ => (Ok tt, w)
    end.

(** [print(line, file=sys.stderr)]. *)
Definition print_stderr {R : Type} (line : string) : M R unit :=
  fun w => (Ok tt, set_stderr (stderr w ++ [line]) w).

End Os.

Declare Scope py_scope.
Delimit Scope py_scope with py.
Notation "x <- m ;; k" := (Os.bind m (fun x => k))
  (at level 100, m at next level, right associativity) : py_scope.
Notation "m ;;; k" := (Os.bind m (fun _ => k))
  (at level 100, right associativity) : py_scope.

(** ** sap/cli/checkout.py *)

Module Checkout.
Import PyStr PosixPath Os.
Local Open Scope py_scope.

(** *** What the module imports *)

(** Modelled from the spec: the attribute record of a class
    ([sap.platform.abap.ddic.VSEOCLASS] is not among the sources), with
    the fields [build_class_abap_attributes] assigns. *)
Record VSEOCLASS : Type := {
  CLSNAME : string;
  VERSION : string;
  LANGU : string;
  DESCRIPT : string;
  STATE : string;
  CLSCCINCL : string;
  FIXPT : string;
  UNICODE : string
}.

(** Modelled from the spec: the repository metadata
    ([sap.platform.abap.abapgit.DOT_ABAP_GIT] is not among the sources);
    the checkout sets its starting folder only. *)
Record DOT_ABAP_GIT : Type := {
  STARTING_FOLDER : string
}.

Definition for_new_repo (starting_folder : string) : DOT_ABAP_GIT :=
  {| STARTING_FOLDER := starting_folder |}.

(** The helpers of [sap.platform] the module calls: the language code
    lookup, which raises on an unknown code, and the two XML
    serializers, each giving the text it writes to the open file. *)
Class Platform : Type := {
  iso_code_to_sap_code : string -> result string;
  XMLWriter : string -> VSEOCLASS -> string;
  to_xml : DOT_ABAP_GIT -> string -> string
}.

(** The attributes of a fetched [sap.adt.Class]. *)
Record adt_class : Type := {
  clas_name : string;
  clas_active : string;
  clas_master_language : string;
  clas_description : string;
  clas_modeled : bool;
  clas_fix_point_arithmetic : bool
}.

(** An entry of a package's object list. *)
Record adt_object : Type := {
  typ : string;
  name : string
}.

(** The source texts an ADT object offers. *)
Inductive source_kind : Type :=
| ProgramSource
| InterfaceSource
| ClassMain
| ClassDefinitions
| ClassImplementations
| ClassTestClasses.

(** What the generator [sap.adt.package.walk] yields, one
    [(package_name_hier, subpackages, objects)] at a time; it may raise
    instead of yielding. *)
Inductive package_walk : Type :=
| WalkStop
| WalkYield (package_name_hier subpackages : list string)
            (objects : list adt_object) (rest : package_walk)
| WalkRaise (e : exn).

(** The ADT connection: every request reads and may change the state
    [R] behind it, and may raise. *)
Record Connection (R : Type) : Type := {
  adt_fetch_class : string -> R -> result adt_class * R;
  adt_text : source_kind -> string -> R -> result string * R;
  adt_walk : string -> R -> package_walk
}.
Arguments adt_fetch_class {R} c _ _.
Arguments adt_text {R} c _ _ _.
Arguments adt_walk {R} c _ _.

Definition request {R A : Type} (f : R -> result A * R) : M R A :=
  fun w => let '(r, s) := f (remote w) in (r, set_remote s w).

(** A source object is what its [text] property does when read. *)
Definition source_object (R : Type) : Type := M R string.

Definition adt_source {R : Type} (connection : Connection R)
    (kind : source_kind) (object_name : string) : source_object R :=
  request (adt_text connection kind object_name).

Definition os_path_abspath {R : Type} (path : string) : M R string :=
  fun w => (Ok (abspath (cwd w) path), w).

(** Arguments of the [package] command. *)
Record package_args : Type := {
  args_name : string;
  args_directory : option string;
  args_starting_folder : string;
  args_recursive : bool
}.

Section Functions.
Context {R : Type} {platform : Platform}.

Definition build_filename (object_name typsfx fileext : string)
    (destdir : option string) : string :=
  let filename := lower (object_name +:+ typsfx +:+ "." +:+ fileext) in
  match destdir with
  | Some d => join d filename
  | None => filename
  end.

Definition dump_attributes_to_file (object_name : string)
    (abap_attributes : VSEOCLASS) (typsfx ag_serializer : string)
    (destdir : option string) : M R unit :=
  let filename := build_filename object_name typsfx "xml" destdir in
  dest <- open_w filename ;;
  file_write dest (XMLWriter ag_serializer abap_attributes).

Definition download_abap_source (object_name : string)
    (source : source_object R) (typsfx : string)
    (destdir : option string) : M R unit :=
  let filename := build_filename object_name typsfx "abap" destdir in
  dest <- open_w filename ;;
  text <- source ;;
  file_write dest text.

Definition build_class_abap_attributes (clas : adt_class) : result VSEOCLASS :=
  match iso_code_to_sap_code (clas_master_language clas) with
  | Raised e => Raised e
  | Ok langu =>
      Ok {| CLSNAME := clas_name clas;
            VERSION := if bool_decide (clas_active clas = "active")
                       then "1" else "0";
            LANGU := langu;
            DESCRIPT := clas_description clas;
            STATE := if clas_modeled clas then "0" else "1";
            CLSCCINCL := "X";
            FIXPT := if clas_fix_point_arithmetic clas then "X" else " ";
            UNICODE := "X" |}
  end.

Definition checkout_class (connection : Connection R) (name : string)
    (destdir : option string) : M R unit :=
  clas <- request (adt_fetch_class connection name) ;;
  download_abap_source name (adt_source connection ClassMain name)
    ".clas" destdir ;;;
  download_abap_source name (adt_source connection ClassDefinitions name)
    ".clas.locals_def" destdir ;;;
  download_abap_source name (adt_source connection ClassImplementations name)
    ".clas.locals_imp" destdir ;;;
  download_abap_source name (adt_source connection ClassTestClasses name)
    ".clas.testclasses" destdir ;;;
  vseoclass <- returning (build_class_abap_attributes clas) ;;
  dump_attributes_to_file name vseoclass ".clas" "LCL_OBJECT_CLAS" destdir.

Definition checkout_program (connection : Connection R) (name : string)
    (destdir : option string) : M R unit :=
  download_abap_source name (adt_source connection ProgramSource name)
    ".prog" destdir.

Definition checkout_interface (connection : Connection R) (name : string)
    (destdir : option string) : M R unit :=
  download_abap_source name (adt_source connection InterfaceSource name)
    ".intf" destdir.

(** The command wrappers [abapclass], [program] and [interface] pass
    [args.name] and no destination directory. *)
Definition abapclass (connection : Connection R) (name : string) : M R unit :=
  checkout_class connection name None.

Definition program (connection : Connection R) (name : string) : M R unit :=
  checkout_program connection name None.

Definition interface (connection : Connection R) (name : string) : M R unit :=
  checkout_interface connection name None.

Definition checkouters
  : gmap string (Connection R -> string -> option string -> M R unit) :=
  {[ "PROG/P" := checkout_program;
     "CLAS/OC" := checkout_class;
     "INTF/OI" := checkout_interface ]}.

(** Body of the loop of [checkout_objects]. *)
Definition checkout_object (connection : Connection R)
    (destdir : option string) (obj : adt_object) : M R unit :=
  try_except_KeyError
    (match checkouters !! typ obj with
     | Some checkouter => checkouter connection (name obj) destdir
     | None => raise (KeyError (typ obj))
     end)
    (print_stderr ("Unsupported object: " +:+ typ obj +:+ " " +:+ name obj)).

Definition checkout_objects (connection : Connection R)
    (objects : list adt_object) (destdir : option string) : M R unit :=
  isdir <- os_path_isdir destdir ;;
  (if negb isdir then os_makedirs destdir else ret tt) ;;;
  for_each objects (checkout_object connection destdir).

Definition make_repo_dir_for_package (args : package_args) : M R string :=
  let repo_dir :=
    match args_directory args with
    | Some d => if is_empty d then args_name args else d
    | None => args_name args
    end in
  repo_dir <- os_path_abspath repo_dir ;;
  isdir <- os_path_isdir (Some repo_dir) ;;
  (if negb isdir then os_makedirs (Some repo_dir) else ret tt) ;;;
  let dot_abapgit :=
    for_new_repo ("/" +:+ args_starting_folder args +:+ "/") in
  let repo_file := join repo_dir ".abapgit.xml" in
  dest <- open_w repo_file ;;
  file_write dest (to_xml dot_abapgit "DATA") ;;;
  ret repo_dir.

(** The directory of one visited package, as the loop of [package]
    computes it from the absolute source directory. *)
Definition package_destdir (destdir : string) (package_name_hier : list string)
  : string :=
  match package_name_hier with
  | [] => destdir
  | [segment] => join destdir (lower segment)
  | first :: others => join destdir (lower (join_all first others))
  end.

(** The loop of [package] over what the walker yields. *)
Fixpoint package_loop (connection : Connection R) (recursive : bool)
    (source_code_dir : string) (walk : package_walk) : M R unit :=
  match walk with
  | WalkStop => ret tt
  | WalkRaise e => raise e
  | WalkYield package_name_hier _ objects rest =>
      destdir <- os_path_abspath source_code_dir ;;
      let destdir := package_destdir destdir package_name_hier in
      checkout_objects connection objects (Some destdir) ;;;
      if negb recursive then ret tt
      else package_loop connection recursive source_code_dir rest
  end.

Definition package (connection : Connection R) (args : package_args)
  : M R unit :=
  repo_dir <- make_repo_dir_for_package args ;;
  let source_code_dir := join repo_dir (args_starting_folder args) in
  walk <- (fun w => (Ok (adt_walk connection (args_name args) (remote w)), w)) ;;
  package_loop connection (args_recursive args) source_code_dir walk.

End Functions.
End Checkout.

(** ** What a statement leaves alone *)

Module Frame.
Import PyStr PosixPath Os.

Section WithRemote.
Context {R : Type}.

(** A statement keeps a relation between the world before and after
    it, whether it returns or raises. *)
Definition stable {A : Type} (rel : world R -> world R -> Prop) (m : M R A)
  : Prop :=
  forall w, rel w (snd (m w)).

(** A statement neither reads nor writes the error stream. *)
Definition stderr_blind {A : Type} (m : M R A) : Prop :=
  forall w lines,
    m (set_stderr lines w) = (fst (m w), set_stderr lines (snd (m w))).

(** The working directory stays, and so does every directory. *)
Definition dirs_kept (w w' : world R) : Prop :=
  cwd w' = cwd w /\
  forall k, fs w !! k = Some Dir -> fs w' !! k = Some Dir.

(** The working directory stays, and the file tree changes at paths
    satisfying [P] only. *)
Definition writes_within (P : list string -> Prop) (w w' : world R) : Prop :=
  cwd w' = cwd w /\
  forall k, ~ P k -> fs w' !! k = fs w !! k.

End WithRemote.

(** The last component of a path has no upper-case letter. *)
Definition lower_case_name (k : list string) : Prop :=
  exists b, last k = Some b /\ no_upper b = true.

End Frame.

(** ** Vocabulary of the specification *)

Module CheckoutSpec.
Import PyStr PosixPath Os Checkout.
Local Open Scope py_scope.

(** The type tags that have an exporter. *)
Definition supported (obj : adt_object) : bool :=
  bool_decide (typ obj = "PROG/P")
  || bool_decide (typ obj = "CLAS/OC")
  || bool_decide (typ obj = "INTF/OI").

(** The line reported for an object without exporter. *)
Definition diagnostic (obj : adt_object) : string :=
  "Unsupported object: " +:+ typ obj +:+ " " +:+ name obj.

(** [path] names a directory of the world. *)
Definition isdir_in {R : Type} (w : world R) (path : string) : bool :=
  negb (is_empty path)
  && node_is_dir (lookup_node (fs w) (canon (cwd w) path)).

Definition node_is_file (n : option node) : bool :=
  match n with
  | Some (File _) => true
  | _ => false
  end.

(** No file stands where a directory of [done ++ todo] below [done] is
    needed. *)
Fixpoint path_clear (tree : gmap (list string) node) (done todo : list string)
  : bool :=
  match todo with
  | [] => true
  | c :: todo' =>
      negb (node_is_file (tree !! (done ++ [c])))
      && path_clear tree (done ++ [c]) todo'
  end.

(** The directory [path] exists or can be created. *)
Definition creatable {R : Type} (w : world R) (path : string) : bool :=
  negb (is_empty path) && path_clear (fs w) [] (canon (cwd w) path).

(** The directory the files of an exporter go to: [destdir], or the working
    directory when there is none. *)
Definition dest_dir {R : Type} (w : world R) (destdir : option string)
  : list string :=
  match destdir with
  | Some d => canon (cwd w) d
  | None => norm_comps true (cwd w)
  end.

(** The file [file_name] of that directory. *)
Definition dest_file {R : Type} (w : world R) (destdir : option string)
    (file_name : string) : list string :=
  dest_dir w destdir ++ [file_name].

(** From [w] to [w'] the file tree changed in one place: the file
    [file_name] of the destination directory now holds [text]. *)
Definition one_file_written {R : Type} (w w' : world R)
    (destdir : option string) (file_name text : string) : Prop :=
  fs w' = <[dest_file w destdir file_name := File text]> (fs w).

(** The names of the files of a class [n]. *)
Definition class_file_names (n : string) : list string :=
  [n +:+ ".clas.abap"; n +:+ ".clas.locals_def.abap";
   n +:+ ".clas.locals_imp.abap"; n +:+ ".clas.testclasses.abap";
   n +:+ ".clas.xml"].

(** From [w] to [w'] the file tree changed in five places: the files of
    the class [n] in the destination directory now hold the four sources
    and the metadata. *)
Definition class_files_written {R : Type} (w w' : world R)
    (destdir : option string) (n : string)
    (main definitions implementations test_classes xml : string) : Prop :=
  fs w' =
    <[dest_file w destdir (n +:+ ".clas.xml") := File xml]>
      (<[dest_file w destdir (n +:+ ".clas.testclasses.abap") := File test_classes]>
         (<[dest_file w destdir (n +:+ ".clas.locals_imp.abap") := File implementations]>
            (<[dest_file w destdir (n +:+ ".clas.locals_def.abap") := File definitions]>
               (<[dest_file w destdir (n +:+ ".clas.abap") := File main]> (fs w))))).

(** A world differs from an earlier one by new directories only. *)
Definition only_dirs_added {R : Type} (w w' : world R) : Prop :=
  cwd w' = cwd w /\ stderr w' = stderr w /\ remote w' = remote w /\
  forall k, fs w' !! k = fs w !! k \/ (fs w !! k = None /\ fs w' !! k = Some Dir).

(** What a walk yields before it stops or raises, and how it ends. *)
Fixpoint yields (walk : package_walk) : list (list string * list adt_object) :=
  match walk with
  | WalkYield package_name_hier _ objects rest =>
      (package_name_hier, objects) :: yields rest
  | _ => []
  end.


(** A path segment that is not empty and neither begins nor ends with
    the path separator. *)
Definition relative_segment (s : string) : bool :=
  negb (is_empty s) && negb (startswith_sep s) && negb (endswith_sep s).

(** The destination of a visit as the resolution rule words it:
    [base_dir/lowercase(segment)] for one segment, and
    [base_dir/lowercase(join(segments, path-separator))] for more. *)
Definition spec_destdir (base_dir : string) (segments : list string) : string :=
  match segments with
  | [] => base_dir
  | [segment] => base_dir +:+ "/" +:+ lower segment
  | _ => base_dir +:+ "/" +:+ lower (join_sep segments)
  end.

(** The directory [make_repo_dir_for_package] is asked for: the
    [directory] argument, or the package name when that is missing or
    empty. *)
Definition requested_repo_dir (args : package_args) : string :=
  match args_directory args with
  | Some d => if is_empty d then args_name args else d
  | None => args_name args
  end.

Section WithPlatform.
Context {R : Type} {platform : Platform}.

(** The exporter of a supported object. *)
Definition exporter_of (obj : adt_object)
  : Connection R -> string -> option string -> M R unit :=
  if bool_decide (typ obj = "PROG/P") then checkout_program
  else if bool_decide (typ obj = "CLAS/OC") then checkout_class
  else checkout_interface.

(** Exporting the supported objects of a list, one after the other. *)
Definition export_supported (connection : Connection R)
    (objects : list adt_object) (destdir : option string) : M R unit :=
  for_each (List.filter supported objects)
    (fun obj => exporter_of obj connection (name obj) destdir).

(** The directory stage of [checkout_objects] and of
    [make_repo_dir_for_package]. *)
Definition ensure_directory (destdir : option string) : M R unit :=
  isdir <- os_path_isdir destdir ;;
  if negb isdir then os_makedirs destdir else ret tt.



End WithPlatform.
End CheckoutSpec.

(** ** A small system to run the checkout on *)

Module Demo.
Import PyStr PosixPath Os Checkout CheckoutSpec.

Definition platform : Platform := {|
  iso_code_to_sap_code := fun code =>
    if bool_decide (code = "EN") then Ok "E"
    else Raised (OtherError "SAPCliError");
  XMLWriter := fun ag_serializer v =>
    ag_serializer +:+ ":" +:+ CLSNAME v +:+ ":" +:+ VERSION v;
  to_xml := fun d top_element => top_element +:+ ":" +:+ STARTING_FOLDER d
|}.

Definition zcl_demo : adt_class := {|
  clas_name := "ZCL_DEMO";
  clas_active := "active";
  clas_master_language := "EN";
  clas_description := "Demo class";
  clas_modeled := false;
  clas_fix_point_arithmetic := true
|}.

Definition zprog : adt_object := {| typ := "PROG/P"; name := "ZPROG" |}.
Definition zcl : adt_object := {| typ := "CLAS/OC"; name := "ZCL_Demo" |}.
Definition zif : adt_object := {| typ := "INTF/OI"; name := "ZIF_DEMO" |}.
Definition subpackage : adt_object := {| typ := "DEVC/K"; name := "ZSUB" |}.
Definition table : adt_object := {| typ := "TABL/DT"; name := "ZTAB" |}.

Definition mixed : list adt_object := [subpackage; zprog; table; zcl; zif].

(** The walk of package [ZPKG] with its sub-package [ZSUB]. *)
Definition zpkg_walk : package_walk :=
  WalkYield ["ZPKG"] ["ZSUB"] [zprog; subpackage; zcl]
    (WalkYield ["ZPKG"; "ZSUB"] [] [zif; table] WalkStop).

(** The number of a request as a character: ['0'] for the first. *)
Definition request_mark (n : nat) : string :=
  String (ascii_of_nat (48 + n)) EmptyString.

(** A connection that answers every request; its state counts them and
    every source text carries the number of the request. *)
Definition connection : Connection nat := {|
  adt_fetch_class := fun _ n => (Ok zcl_demo, S n);
  adt_text := fun _ object_name n =>
    (Ok ("source of " +:+ object_name +:+ " #" +:+ request_mark n), S n);
  adt_walk := fun _ _ => zpkg_walk
|}.

(** A connection whose source requests fail with a [KeyError], as a
    lookup in a response without the expected header does. *)
Definition keyerror_connection : Connection nat := {|
  adt_fetch_class := fun _ n => (Ok zcl_demo, S n);
  adt_text := fun _ _ n => (Raised (KeyError "Content-Type"), S n);
  adt_walk := fun _ _ => zpkg_walk
|}.

(** A connection whose source requests fail with an HTTP error. *)
Definition http_error_connection : Connection nat := {|
  adt_fetch_class := fun _ n => (Ok zcl_demo, S n);
  adt_text := fun _ _ n => (Raised (OtherError "HTTPRequestError"), S n);
  adt_walk := fun _ _ => zpkg_walk
|}.

(** A machine with a home directory and nothing else. *)
Definition world0 : world nat :=
  World {[ ["home"] := Dir; ["home"; "dev"] := Dir ]} "/home/dev" [] 0.

(** The same machine with a directory [/demo]. *)
Definition namespace_world : world nat :=
  World {[ ["home"] := Dir; ["home"; "dev"] := Dir; ["demo"] := Dir ]}
    "/home/dev" [] 0.

Definition zpkg_args (recursive : bool) : package_args := {|
  args_name := "ZPKG";
  args_directory := Some "repo";
  args_starting_folder := "src";
  args_recursive := recursive
|}.

End Demo.

(** ** test/unit/mock.py *)

Module Mock.
Import Os.

Module Response.
Record t : Type := {
  text : string;
  status_code : Z;
  headers : gmap string string
}.
End Response.

Module Request.
Record t : Type := {
  method : string;
  adt_uri : string;
  headers : option (gmap string string);
  body : option string;
  params : option (gmap string string)
}.
End Request.

(** The generator [ok_responses], as the list of what it yields. *)
Definition ok_responses : list (option Response.t) :=
  [Some {| Response.text := EmptyString;
           Response.status_code := 200;
           Response.headers := ∅ |}].

(** [next(ok_responses())]. *)
Definition next_ok_response : Response.t :=
  {| Response.text := EmptyString;
     Response.status_code := 200;
     Response.headers := ∅ |}.

(** The attributes of the mock [Connection]: the base URI the parent
    class [sap.adt.Connection] sets, the requests recorded by [execute]
    and what the iterator [_resp_iter] has still to give; a response may
    be [None]. *)
Record Connection : Type := {
  uri : string;
  execs : list Request.t;
  _resp_iter : list (option Response.t)
}.

(** [Connection(responses)]: [responses=None] is the default. *)
Definition new (base_uri : string) (responses : option (list (option Response.t)))
  : Connection :=
  {| uri := base_uri;
     execs := [];
     _resp_iter := match responses with
                   | None => ok_responses
                   | Some rs => rs
                   end |}.

(** A method of the connection: it returns or raises, and leaves the
    connection changed. *)
Definition method_of (A : Type) : Type := Connection -> result A * Connection.

Definition StopIteration : exn := OtherError "StopIteration".

Definition _retrieve (method url : string)
    (params headers : option (gmap string string)) (body : option string)
  : method_of (Request.t * Response.t) :=
  fun self =>
    let req := {| Request.method := method; Request.adt_uri := url;
                  Request.headers := headers; Request.body := body;
                  Request.params := params |} in
    match _resp_iter self with
    | [] => (Raised StopIteration, self)
    | res :: rest =>
        let res := match res with
                   | None => next_ok_response
                   | Some r => r
                   end in
        (Ok (req, res),
         {| uri := uri self; execs := execs self; _resp_iter := rest |})
    end.

Section Execute.
(** [_execute_with_session] of the parent class, with the session [None]
    the mock passes left out. *)
Context {A : Type}.
Variable _execute_with_session :
  string -> string -> option (gmap string string) ->
  option (gmap string string) -> option string -> method_of A.

Definition execute (method adt_uri : string)
    (params headers : option (gmap string string)) (body : option string)
  : method_of A :=
  fun self =>
    let final_uri := "/" +:+ uri self +:+ "/" +:+ adt_uri in
    let self := {| uri := uri self;
                   execs := execs self ++
                     [{| Request.method := method; Request.adt_uri := final_uri;
                         Request.headers := headers; Request.body := body;
                         Request.params := params |}];
                   _resp_iter := _resp_iter self |} in
    _execute_with_session method adt_uri params headers body self.

End Execute.

Definition mock_methods (self : Connection) : list (string * string) :=
  map (fun e => (Request.method e, Request.adt_uri e)) (execs self).

(** A call of [execute] or [_retrieve]. *)
Record call : Type := {
  call_method : string;
  call_uri : string;
  call_params : option (gmap string string);
  call_headers : option (gmap string string);
  call_body : option string
}.

Definition request_of (c : call) : Request.t :=
  {| Request.method := call_method c; Request.adt_uri := call_uri c;
     Request.headers := call_headers c; Request.body := call_body c;
     Request.params := call_params c |}.

(** [_retrieve] for every call of a list in turn, up to the first that
    raises. *)
Fixpoint retrieve_all (calls : list call)
  : method_of (list (Request.t * Response.t)) :=
  fun self =>
    match calls with
    | [] => (Ok [], self)
    | c :: calls' =>
        match _retrieve (call_method c) (call_uri c) (call_params c)
                (call_headers c) (call_body c) self with
        | (Raised e, self') => (Raised e, self')
        | (Ok x, self') =>
            match retrieve_all calls' self' with
            | (Raised e, self'') => (Raised e, self'')
            | (Ok xs, self'') => (Ok (x :: xs), self'')
            end
        end
    end.

(** [execute] for every call of a list in turn, whatever each returns or
    raises (a test that catches the exceptions); the connection after the
    last. *)
Fixpoint execute_all {A : Type}
    (_execute_with_session :
       string -> string -> option (gmap string string) ->
       option (gmap string string) -> option string -> method_of A)
    (calls : list call) (self : Connection) : Connection :=
  match calls with
  | [] => self
  | c :: calls' =>
      execute_all _execute_with_session calls'
        (snd (execute _execute_with_session (call_method c) (call_uri c)
                (call_params c) (call_headers c) (call_body c) self))
  end.

(** The parent method keeps the base URI and the recorded requests. *)
Definition keeps_record {A : Type}
    (_execute_with_session :
       string -> string -> option (gmap string string) ->
       option (gmap string string) -> option string -> method_of A) : Prop :=
  forall method adt_uri params headers body self,
    let self' := snd (_execute_with_session method adt_uri params headers
                        body self) in
    uri self' = uri self /\ execs self' = execs self.

End Mock.

(** ** The small system when things go wrong *)

Module FailureDemo.
Import PyStr PosixPath Os Checkout CheckoutSpec.

(** A class in a language the lookup of [Demo.platform] does not know. *)
Definition zcl_foreign : adt_class := {|
  clas_name := "ZCL_FOREIGN";
  clas_active := "inactive";
  clas_master_language := "TLH";
  clas_description := "Foreign class";
  clas_modeled := false;
  clas_fix_point_arithmetic := false
|}.

Definition foreign_connection : Connection nat := {|
  adt_fetch_class := fun _ n => (Ok zcl_foreign, S n);
  adt_text := fun _ object_name n =>
    (Ok ("source of " +:+ object_name +:+ " #" +:+ Demo.request_mark n), S n);
  adt_walk := fun _ _ => WalkStop
|}.

(** The machine of [Demo.world0] with a file where the directory [out]
    would go. *)
Definition occupied_world : world nat :=
  World {[ ["home"] := Dir; ["home"; "dev"] := Dir;
           ["home"; "dev"; "out"] := File "notes" ]}
    "/home/dev" [] 0.

End FailureDemo.

(** ** A mock connection to run *)

Module MockDemo.
Import Mock.

(** A parent method that asks [_retrieve] for the response and returns
    its text. *)
Definition retrieving_session (method adt_uri : string)
    (params headers : option (gmap string string)) (body : option string)
  : method_of string :=
  fun self =>
    match _retrieve method adt_uri params headers body self with
    | (Os.Ok (_, res), self') => (Os.Ok (Response.text res), self')
    | (Os.Raised e, self') => (Os.Raised e, self')
    end.

Definition get (adt_uri : string) : call :=
  {| call_method := "GET"; call_uri := adt_uri; call_params := None;
     call_headers := None; call_body := None |}.

Definition post (adt_uri body : string) : call :=
  {| call_method := "POST"; call_uri := adt_uri; call_params := None;
     call_headers := None; call_body := Some body |}.

Definition not_found : Response.t :=
  {| Response.text := "missing"; Response.status_code := 404;
     Response.headers := ∅ |}.

(** A connection with three responses, the second of them [None]. *)
Definition connection : Connection :=
  new "sap/bc/adt" (Some [Some not_found; None; Some not_found]).

End MockDemo.

(** ** Vocabulary for the further properties *)

Module CheckoutLaws.
Import PyStr PosixPath Os Checkout CheckoutSpec.

(** The suffix and the extension of every file the exporters write: the
    arguments [typsfx] and [fileext] [build_filename] gets from
    [checkout_program], [checkout_interface] and [checkout_class]. *)
Definition file_kinds : list (string * string) :=
  [(".prog", "abap"); (".intf", "abap"); (".clas", "abap");
   (".clas.locals_def", "abap"); (".clas.locals_imp", "abap");
   (".clas.testclasses", "abap"); (".clas", "xml")].

(** [s[n:]]. *)
Fixpoint drop_chars (n : nat) (s : string) : string :=
  match n, s with
  | O, _ => s
  | S n', String _ s' => drop_chars n' s'
  | S _, EmptyString => EmptyString
  end.

(** Nothing is deleted: what is a directory stays one and what is a file
    stays a file, whatever it holds; the working directory stays. *)
Definition kinds_kept {R : Type} (w w' : world R) : Prop :=
  cwd w' = cwd w /\
  forall k n, fs w !! k = Some n ->
    exists n', fs w' !! k = Some n' /\ (n = Dir <-> n' = Dir).

(** The error stream has grown by the lines of some of the objects, in
    their order, and by nothing else. *)
Definition reported {R : Type} (objects : list adt_object) (w w' : world R)
  : Prop :=
  exists l, sublist l objects /\ stderr w' = stderr w ++ map diagnostic l.

(** From [w] to [w'] the file tree changed at most at the files of the
    object [name] in the destination directory; the working directory
    stays. *)
Definition own_files {R : Type} (name : string) (destdir : option string)
    (w w' : world R) : Prop :=
  cwd w' = cwd w /\
  forall k,
    fs w' !! k = fs w !! k \/
    exists kind,
      kind ∈ file_kinds /\
      k = dest_file w destdir (lower name +:+ fst kind +:+ "." +:+ snd kind).

(** The error stream and the state behind the connection are as before. *)
Definition quiet {R : Type} (w w' : world R) : Prop :=
  stderr w' = stderr w /\ remote w' = remote w.

(** All objects a walk yields, visit after visit. *)
Definition walk_objects (walk : package_walk) : list adt_object :=
  concat (map snd (yields walk)).

End CheckoutLaws.

(** * Properties *)

(** ** Strings and paths *)

Module PyStrFacts.
Import PyStr.

Lemma append_nil_l (s : string) : EmptyString +:+ s = s.
Proof. reflexivity. Qed.

Lemma append_cons (c : ascii) (a b : string) :
  String c a +:+ b = String c (a +:+ b).
Proof. reflexivity. Qed.

(** Unfolds appends whose left argument starts with a known character. *)
Ltac app_simpl := rewrite ?append_cons, ?append_nil_l; simpl.

Lemma append_nil_r (s : string) : s +:+ EmptyString = s.
Proof. induction s as [|c s IH]; app_simpl; [reflexivity | now rewrite IH]. Qed.

Lemma append_assoc (a b c : string) : (a +:+ b) +:+ c = a +:+ (b +:+ c).
Proof. induction a as [|x a IH]; app_simpl; [reflexivity | now rewrite IH]. Qed.

Lemma length_append (a b : string) :
  String.length (a +:+ b) = String.length a + String.length b.
Proof. induction a as [|x a IH]; app_simpl; [reflexivity | now rewrite IH]. Qed.

Lemma is_sep_true (c : ascii) : is_sep c = true <-> c = "/"%char.
Proof. unfold is_sep. apply bool_decide_eq_true. Qed.

Lemma is_sep_lower_ascii (c : ascii) : is_sep (lower_ascii c) = is_sep c.
Proof. destruct c as [[] [] [] [] [] [] [] []]; reflexivity. Qed.

Lemma is_upper_lower_ascii (c : ascii) : is_upper (lower_ascii c) = false.
Proof. destruct c as [[] [] [] [] [] [] [] []]; reflexivity. Qed.

Lemma lower_ascii_idem (c : ascii) : lower_ascii (lower_ascii c) = lower_ascii c.
Proof. destruct c as [[] [] [] [] [] [] [] []]; reflexivity. Qed.

Lemma lower_app (a b : string) : lower (a +:+ b) = lower a +:+ lower b.
Proof. induction a as [|x a IH]; app_simpl; [reflexivity | now rewrite IH]. Qed.

Lemma lower_idem (s : string) : lower (lower s) = lower s.
Proof.
  induction s as [|c s IH]; simpl; [reflexivity|].
  now rewrite lower_ascii_idem, IH.
Qed.

Lemma no_upper_lower (s : string) : no_upper (lower s) = true.
Proof.
  induction s as [|c s IH]; simpl; [reflexivity|].
  now rewrite is_upper_lower_ascii, IH.
Qed.

Lemma length_lower (s : string) : String.length (lower s) = String.length s.
Proof. induction s as [|c s IH]; simpl; [reflexivity | now rewrite IH]. Qed.

Lemma has_sep_lower (s : string) : has_sep (lower s) = has_sep s.
Proof.
  induction s as [|c s IH]; simpl; [reflexivity|].
  now rewrite is_sep_lower_ascii, IH.
Qed.

Lemma has_sep_app (a b : string) : has_sep (a +:+ b) = has_sep a || has_sep b.
Proof.
  induction a as [|x a IH]; app_simpl; [reflexivity|].
  now rewrite IH, orb_assoc.
Qed.

Lemma startswith_sep_has_sep (s : string) :
  has_sep s = false -> startswith_sep s = false.
Proof. destruct s as [|c s]; simpl; [reflexivity|]. now destruct (is_sep c). Qed.

Lemma split_sep_not_nil (s : string) : split_sep s <> [].
Proof.
  induction s as [|c s IH]; simpl; [discriminate|].
  destruct (is_sep c); [discriminate|].
  destruct (split_sep s); discriminate.
Qed.

Lemma split_sep_no_sep (s : string) : has_sep s = false -> split_sep s = [s].
Proof.
  induction s as [|c s IH]; simpl; [reflexivity|].
  destruct (is_sep c); simpl; [discriminate|].
  intros H. now rewrite (IH H).
Qed.

Lemma split_sep_app_cons (a b : string) :
  split_sep (a +:+ String "/" b) = split_sep a ++ split_sep b.
Proof.
  induction a as [|c a IH]; app_simpl; [reflexivity|].
  rewrite IH.
  destruct (is_sep c); simpl; [reflexivity|].
  destruct (split_sep a) as [|h t] eqn:E; [now apply split_sep_not_nil in E|].
  reflexivity.
Qed.

(** [(a + '/' + b).split('/') == a.split('/') + b.split('/')]. *)
Lemma split_sep_app_sep (a b : string) :
  split_sep (a +:+ "/" +:+ b) = split_sep a ++ split_sep b.
Proof. exact (split_sep_app_cons a b). Qed.

Lemma split_sep_trailing (a : string) :
  split_sep (a +:+ "/") = split_sep a ++ [EmptyString].
Proof. exact (split_sep_app_cons a EmptyString). Qed.

Lemma split_sep_lower (s : string) : split_sep (lower s) = map lower (split_sep s).
Proof.
  induction s as [|c s IH]; simpl; [reflexivity|].
  rewrite is_sep_lower_ascii, IH.
  destruct (is_sep c); simpl; [reflexivity|].
  destruct (split_sep s); reflexivity.
Qed.

Lemma endswith_sep_inv (s : string) :
  endswith_sep s = true -> exists s', s = s' +:+ "/".
Proof.
  induction s as [|c s IH]; simpl; [discriminate|].
  destruct s as [|d s].
  - intros H. apply is_sep_true in H. subst c. now exists EmptyString.
  - intros H. destruct (IH H) as [s' E]. exists (String c s').
    rewrite append_cons. now rewrite E.
Qed.

Lemma is_empty_true (s : string) : is_empty s = true -> s = EmptyString.
Proof. now destruct s. Qed.

Lemma is_empty_app (a b : string) : is_empty (a +:+ b) = is_empty a && is_empty b.
Proof. destruct a; reflexivity. Qed.

Lemma endswith_sep_app (a b : string) :
  is_empty b = false -> endswith_sep (a +:+ b) = endswith_sep b.
Proof.
  intros Hb. induction a as [|c a IH]; [reflexivity|].
  rewrite append_cons. simpl. destruct (a +:+ b) as [|d r] eqn:E.
  - apply (f_equal is_empty) in E. rewrite is_empty_app, Hb, andb_false_r in E.
    discriminate.
  - exact IH.
Qed.

Lemma startswith_sep_app (a b : string) :
  is_empty a = false -> startswith_sep (a +:+ b) = startswith_sep a.
Proof. destruct a; [discriminate | reflexivity]. Qed.

End PyStrFacts.

Module PathFacts.
Import PyStr PosixPath PyStrFacts.

Lemma component_inv (f : string) :
  is_component f = true ->
  is_empty f = false /\ has_sep f = false /\ is_dot f = false /\ is_dotdot f = false.
Proof.
  unfold is_component. rewrite !andb_true_iff, !negb_true_iff. tauto.
Qed.

Lemma norm_step_component (rooted : bool) (l : list string) (f : string) :
  is_component f = true -> norm_step rooted l f = l ++ [f].
Proof.
  intros H. apply component_inv in H as (He & _ & Hd & Hdd).
  unfold norm_step. now rewrite He, Hd, Hdd.
Qed.

Lemma norm_step_empty (rooted : bool) (l : list string) :
  norm_step rooted l EmptyString = l.
Proof. reflexivity. Qed.

Lemma norm_comps_snoc (rooted : bool) (x : string) (l : list string) (f : string) :
  split_sep x = l ++ [f] ->
  norm_comps rooted x = norm_step rooted (fold_left (norm_step rooted) l []) f.
Proof. intros E. unfold norm_comps. now rewrite E, fold_left_app. Qed.

(** Joining a component to a path adds it to the normalized components. *)
Lemma norm_comps_join (rooted : bool) (x f : string) :
  is_component f = true ->
  norm_comps rooted (join x f) = norm_comps rooted x ++ [f].
Proof.
  intros Hf. pose proof (component_inv f Hf) as (He & Hs & _ & _).
  unfold join. rewrite (startswith_sep_has_sep f Hs).
  destruct (is_empty x) eqn:Ex; simpl.
  - apply is_empty_true in Ex. subst x. rewrite append_nil_l.
    unfold norm_comps. rewrite (split_sep_no_sep f Hs). simpl.
    now rewrite norm_step_component.
  - destruct (endswith_sep x) eqn:Ee.
    + destruct (endswith_sep_inv x Ee) as [x' ->].
      rewrite append_assoc.
      unfold norm_comps. rewrite !split_sep_app_sep, (split_sep_no_sep f Hs).
      rewrite split_sep_trailing, !fold_left_app. simpl.
      now rewrite norm_step_component.
    + unfold norm_comps. rewrite split_sep_app_sep, (split_sep_no_sep f Hs).
      rewrite fold_left_app. simpl. now rewrite norm_step_component.
Qed.

Lemma join_relative (a b : string) :
  startswith_sep b = false ->
  join a b = if is_empty a || endswith_sep a then a +:+ b else a +:+ "/" +:+ b.
Proof. intros H. unfold join. now rewrite H. Qed.

Lemma join_nonempty (a b : string) :
  is_empty a = false -> startswith_sep b = false -> is_empty (join a b) = false.
Proof.
  intros Ha Hb. rewrite join_relative by assumption. rewrite Ha. simpl.
  destruct (endswith_sep a); rewrite is_empty_app, Ha; reflexivity.
Qed.

(** [join] is associative as long as no later part is absolute. *)
Lemma join_assoc (a b c : string) :
  startswith_sep b = false -> startswith_sep c = false ->
  join a (join b c) = join (join a b) c.
Proof.
  intros Hb Hc.
  destruct (is_empty b) eqn:Eb.
  - apply is_empty_true in Eb. subst b.
    replace (join EmptyString c) with c by (unfold join; now rewrite Hc).
    rewrite (join_relative a EmptyString) by reflexivity.
    destruct (is_empty a) eqn:Ea; simpl.
    + apply is_empty_true in Ea. subst a. reflexivity.
    + destruct (endswith_sep a) eqn:Ee.
      * now rewrite append_nil_r.
      * rewrite (join_relative a c Hc), Ea, Ee. simpl.
        rewrite (join_relative _ c Hc).
        replace (is_empty (a +:+ "/" +:+ EmptyString)) with false
          by (now rewrite is_empty_app, Ea).
        replace (endswith_sep (a +:+ "/" +:+ EmptyString)) with true
          by (now rewrite endswith_sep_app).
        simpl. now rewrite !append_assoc.
  - assert (Hbc : startswith_sep (join b c) = false).
    { rewrite (join_relative b c Hc), Eb. simpl.
      destruct (endswith_sep b); now rewrite startswith_sep_app. }
    rewrite (join_relative (join a b) c Hc), (join_relative a (join b c) Hbc).
    rewrite (join_relative a b Hb), (join_relative b c Hc), Eb. simpl.
    assert (Hab : forall p, is_empty (p +:+ b) = false)
      by (intros p; now rewrite is_empty_app, Eb, andb_false_r).
    assert (Hab' : forall p, endswith_sep (p +:+ b) = endswith_sep b)
      by (intros p; now apply endswith_sep_app).
    destruct (is_empty a || endswith_sep a).
    + rewrite Hab, Hab'. simpl.
      destruct (endswith_sep b); now rewrite ?append_assoc.
    + rewrite <- (append_assoc a "/" b), Hab, Hab'. simpl.
      destruct (endswith_sep b); now rewrite ?append_assoc.
Qed.

Lemma absolute_join (cwd d f : string) :
  startswith_sep f = false ->
  absolute cwd (join d f) = join (absolute cwd d) f.
Proof.
  intros Hf. unfold absolute, isabs.
  destruct (startswith_sep d) eqn:Ed.
  - assert (is_empty d = false) by (now destruct d).
    rewrite (join_relative d f Hf).
    destruct (is_empty d || endswith_sep d);
      now rewrite startswith_sep_app, Ed.
  - replace (startswith_sep (join d f)) with false.
    + now apply join_assoc.
    + rewrite (join_relative d f Hf).
      destruct (is_empty d) eqn:Ee; simpl.
      * apply is_empty_true in Ee. subst d. now rewrite append_nil_l.
      * destruct (endswith_sep d); now rewrite startswith_sep_app, Ed.
Qed.

Lemma basename_join (d f : string) : basename (join d f) = basename f.
Proof.
  unfold join.
  destruct (startswith_sep f); [reflexivity|].
  assert (Hs : forall x, basename (x +:+ "/" +:+ f) = basename f).
  { intros x. unfold basename. rewrite split_sep_app_sep, last_app.
    destruct (last (split_sep f)) eqn:E; [reflexivity|].
    apply last_None in E. now apply split_sep_not_nil in E. }
  destruct (is_empty d) eqn:Ed; simpl.
  - apply is_empty_true in Ed. now subst d.
  - destruct (endswith_sep d) eqn:Ee; [|apply Hs].
    destruct (endswith_sep_inv d Ee) as [d' ->].
    rewrite append_assoc. apply Hs.
Qed.

Lemma basename_lower (s : string) : basename (lower s) = lower (basename s).
Proof.
  unfold basename. rewrite split_sep_lower.
  destruct (split_sep s) as [|h t] using rev_ind; [reflexivity|].
  now rewrite map_app, !last_app.
Qed.

Lemma normpath_isabs (p : string) : isabs p = true -> isabs (normpath p) = true.
Proof.
  unfold isabs, normpath. intros H.
  destruct p as [|c1 p]; [discriminate|]. simpl in H.
  cbn [is_empty].
  assert (Hi : exists n, initial_slashes (String c1 p) = S n).
  { unfold initial_slashes. rewrite H.
    destruct p as [|c2 [|c3 p]]; [now exists 0| |].
    - destruct (is_sep c2); eauto.
    - destruct (is_sep c2 && negb (is_sep c3)); eauto. }
  destruct Hi as [n ->]. cbn [slashes]. rewrite append_cons. reflexivity.
Qed.

Lemma split_sep_app_no_sep (a b : string) :
  has_sep b = false ->
  split_sep (a +:+ b) = removelast (split_sep a) ++ [basename a +:+ b].
Proof.
  intros Hb. unfold basename.
  induction a as [|c a IH]; app_simpl.
  - now rewrite (split_sep_no_sep b Hb).
  - rewrite IH. pose proof (split_sep_not_nil a) as Hne.
    destruct (split_sep a) as [|h t]; [congruence|].
    destruct (is_sep c); [now destruct t|].
    destruct t as [|h2 t]; reflexivity.
Qed.

Lemma basename_app_no_sep (a b : string) :
  has_sep b = false -> basename (a +:+ b) = basename a +:+ b.
Proof.
  intros Hb. unfold basename at 1.
  now rewrite (split_sep_app_no_sep a b Hb), last_snoc.
Qed.

Lemma split_sep_parts (s : string) :
  Forall (fun x => has_sep x = false) (split_sep s).
Proof.
  induction s as [|c s IH]; simpl; [now repeat constructor|].
  destruct (is_sep c) eqn:Ec; [now constructor|].
  destruct (split_sep s) as [|h t].
  - constructor; [simpl; now rewrite Ec | constructor].
  - inversion IH; subst. constructor; [simpl; now rewrite Ec | assumption].
Qed.

Lemma basename_spec (s : string) :
  exists l, split_sep s = l ++ [basename s].
Proof.
  unfold basename. pose proof (split_sep_not_nil s) as Hne.
  destruct (last (split_sep s)) as [b|] eqn:E.
  - apply last_Some in E. exact E.
  - apply last_None in E. congruence.
Qed.

Lemma has_sep_basename (s : string) : has_sep (basename s) = false.
Proof.
  destruct (basename_spec s) as [l E]. pose proof (split_sep_parts s) as H.
  rewrite E in H. apply Forall_app in H as [_ H]. now inversion H.
Qed.

Lemma long_not_dots (s : string) :
  2 < String.length s -> is_dot s = false /\ is_dotdot s = false.
Proof.
  destruct s as [|a [|b [|c s]]]; simpl; try lia. intros _.
  unfold is_dot, is_dotdot. split; now apply bool_decide_eq_false.
Qed.

(** A name that ends in a long enough extension is a component. *)
Lemma component_ext (x ext : string) :
  has_sep x = false -> has_sep ext = false -> 2 < String.length ext ->
  is_component (x +:+ ext) = true.
Proof.
  intros Hx He Hl. unfold is_component.
  assert (Hlen : 2 < String.length (x +:+ ext)) by (rewrite length_append; lia).
  destruct (long_not_dots _ Hlen) as [-> ->].
  rewrite has_sep_app, Hx, He.
  destruct (x +:+ ext); [simpl in Hlen; lia | reflexivity].
Qed.

Lemma basename_absolute (cwd path : string) :
  basename (absolute cwd path) = basename path.
Proof.
  unfold absolute. destruct (isabs path); [reflexivity | apply basename_join].
Qed.

(** The node a path names has the path's base name, when that is a
    component. *)
Lemma norm_comps_last (rooted : bool) (x : string) :
  is_component (basename x) = true ->
  last (norm_comps rooted x) = Some (basename x).
Proof.
  intros Hc. destruct (basename_spec x) as [l E].
  rewrite (norm_comps_snoc rooted x l (basename x) E).
  now rewrite norm_step_component, last_snoc.
Qed.

Lemma norm_comps_join_empty (rooted : bool) (x : string) :
  norm_comps rooted (join x EmptyString) = norm_comps rooted x.
Proof.
  rewrite join_relative by reflexivity.
  destruct (is_empty x || endswith_sep x); [now rewrite append_nil_r|].
  unfold norm_comps. rewrite split_sep_app_sep, fold_left_app. reflexivity.
Qed.

Lemma join_sep_cons (x : string) (l : list string) :
  l <> [] -> join_sep (x :: l) = x +:+ "/" +:+ join_sep l.
Proof. destruct l; [congruence | reflexivity]. Qed.

Lemma endswith_sep_has_sep (s : string) :
  has_sep s = false -> endswith_sep s = false.
Proof.
  induction s as [|c s IH]; simpl; [reflexivity|].
  destruct (is_sep c) eqn:Ec; simpl; [discriminate|]. intros H.
  destruct s; [reflexivity | now apply IH].
Qed.

(** On components [os.path.join] of all parts is ['/'.join] of them. *)
Lemma join_all_components (others : list string) :
  forall first,
    is_empty first = false -> endswith_sep first = false ->
    Forall (fun s => is_component s = true) others ->
    join_all first others =
      match others with
      | [] => first
      | _ => first +:+ "/" +:+ join_sep others
      end.
Proof.
  unfold join_all.
  induction others as [|o others IH]; intros first He Hs Hall; [reflexivity|].
  inversion Hall as [|? ? Ho Hothers]; subst.
  apply component_inv in Ho as (Hoe & Hos & _ & _).
  cbn [fold_left].
  assert (Ej : join first o = first +:+ "/" +:+ o).
  { rewrite join_relative by now apply startswith_sep_has_sep.
    now rewrite He, Hs. }
  rewrite Ej, IH; [| | |assumption].
  - destruct others as [|o2 others]; [reflexivity|].
    rewrite (join_sep_cons o) by discriminate. now rewrite !append_assoc.
  - now rewrite is_empty_app, He.
  - rewrite <- append_assoc, endswith_sep_app by assumption.
    now apply endswith_sep_has_sep.
Qed.

Lemma lower_join_sep (l : list string) :
  lower (join_sep l) = join_sep (map lower l).
Proof.
  induction l as [|x l IH]; [reflexivity|].
  destruct l as [|y l]; [reflexivity|].
  rewrite (join_sep_cons x) by discriminate.
  cbn [map]. rewrite (join_sep_cons (lower x)) by discriminate.
  rewrite !lower_app. cbn [map] in IH. now rewrite IH.
Qed.

End PathFacts.

(** ** The path functions on examples *)

Module PathExamples.
Import PyStr PosixPath.

Example lower_mixed : lower "MyClass.CLAS" = "myclass.clas".
Proof. reflexivity. Qed.

Example join_plain : join "/base" "root" = "/base/root".
Proof. reflexivity. Qed.

Example join_absolute : join "/base" "/ns/x" = "/ns/x".
Proof. reflexivity. Qed.

Example join_trailing : join "/base/" "root" = "/base/root".
Proof. reflexivity. Qed.

Example normpath_dots : normpath "/a/./b//../c/" = "/a/c".
Proof. reflexivity. Qed.

Example normpath_two_slashes : normpath "//a" = "//a".
Proof. reflexivity. Qed.

Example normpath_three_slashes : normpath "///a" = "/a".
Proof. reflexivity. Qed.

Example normpath_relative_up : normpath "../a/../../b" = "../../b".
Proof. reflexivity. Qed.

Example normpath_root_up : normpath "/../a" = "/a".
Proof. reflexivity. Qed.

Example abspath_relative : abspath "/home/dev" "repo" = "/home/dev/repo".
Proof. reflexivity. Qed.

Example abspath_empty : abspath "/home/dev" EmptyString = "/home/dev".
Proof. reflexivity. Qed.

Example basename_path : basename "/a/b/c.abap" = "c.abap".
Proof. reflexivity. Qed.
End PathExamples.

(** ** The operating system *)

Module OsFacts.
Import PyStr PosixPath Os Frame PyStrFacts PathFacts.

Section Monad.
Context {R : Type}.

Lemma set_stderr_same (w : world R) : set_stderr (stderr w) w = w.
Proof. now destruct w. Qed.

Lemma bind_assoc {A B C : Type} (m : M R A) (k : A -> M R B) (h : B -> M R C) w :
  bind (bind m k) h w = bind m (fun a => bind (k a) h) w.
Proof. unfold bind. destruct (m w) as [[a|e] w']; reflexivity. Qed.

Lemma bind_ok {A B : Type} (m : M R A) (k : A -> M R B) w b w2 :
  bind m k w = (Ok b, w2) ->
  exists a w1, m w = (Ok a, w1) /\ k a w1 = (Ok b, w2).
Proof.
  unfold bind. destruct (m w) as [[a|e] w1]; [eauto | discriminate].
Qed.

Lemma stable_bind {A B : Type} (rel : world R -> world R -> Prop)
    (m : M R A) (k : A -> M R B) :
  Transitive rel -> stable rel m -> (forall a, stable rel (k a)) ->
  stable rel (bind m k).
Proof.
  intros Ht Hm Hk w. unfold bind. specialize (Hm w).
  destruct (m w) as [[a|e] w1]; simpl in *; [|exact Hm].
  exact (Ht _ _ _ Hm (Hk a w1)).
Qed.

Lemma stable_for_each {A : Type} (rel : world R -> world R -> Prop)
    (l : list A) (body : A -> M R unit) :
  Reflexive rel -> Transitive rel -> (forall a, stable rel (body a)) ->
  stable rel (for_each l body).
Proof.
  intros Hr Ht Hb. induction l as [|x l IH]; simpl.
  - intros w. apply Hr.
  - apply stable_bind; auto.
Qed.

Lemma stable_try {A : Type} (rel : world R -> world R -> Prop)
    (body handler : M R A) :
  Transitive rel -> stable rel body -> stable rel handler ->
  stable rel (try_except_KeyError body handler).
Proof.
  intros Ht Hb Hh w. unfold try_except_KeyError. specialize (Hb w).
  destruct (body w) as [[a|e] w1]; simpl in *; [exact Hb|].
  destruct (is_KeyError e); simpl; [|exact Hb].
  exact (Ht _ _ _ Hb (Hh w1)).
Qed.

Lemma stderr_blind_bind {A B : Type} (m : M R A) (k : A -> M R B) :
  stderr_blind m -> (forall a, stderr_blind (k a)) -> stderr_blind (bind m k).
Proof.
  intros Hm Hk w lines. unfold bind. rewrite Hm.
  destruct (m w) as [[a|e] w1]; simpl; [apply Hk | reflexivity].
Qed.

Lemma stderr_blind_run {A : Type} (m : M R A) w r w' lines :
  stderr_blind m -> m w = (r, w') ->
  m (set_stderr lines w) = (r, set_stderr lines w').
Proof. intros Hm E. rewrite Hm, E. reflexivity. Qed.

Lemma stderr_blind_ret {A : Type} (a : A) : stderr_blind (@ret R A a).
Proof. intros w lines. reflexivity. Qed.

Lemma stderr_blind_returning {A : Type} (r : result A) :
  stderr_blind (@returning R A r).
Proof. intros w lines. reflexivity. Qed.

Lemma stderr_blind_open_w (path : string) : stderr_blind (@open_w R path).
Proof.
  intros w lines. unfold open_w. simpl.
  destruct (is_empty path); [reflexivity|].
  destruct (lookup_node (fs w) (removelast (canon (cwd w) path))) as [[|c]|];
    try reflexivity.
  destruct (lookup_node (fs w) (canon (cwd w) path)) as [[|c]|];
    try reflexivity; destruct (endswith_sep path); reflexivity.
Qed.

Lemma stderr_blind_file_write (dest : list string) (text : string) :
  stderr_blind (@file_write R dest text).
Proof.
  intros w lines. unfold file_write. simpl.
  destruct (fs w !! dest) as [[|c]|]; reflexivity.
Qed.

End Monad.
End OsFacts.

(** ** Directories and files *)

Module FsFacts.
Import PyStr PosixPath Os Frame CheckoutSpec PyStrFacts PathFacts OsFacts.

Lemma mkdir_chain_adds_dirs (todo done : list string)
    (tree tree' : gmap (list string) node) (r : result unit) :
  mkdir_chain done todo tree = (r, tree') ->
  forall k, tree' !! k = tree !! k \/ (tree !! k = None /\ tree' !! k = Some Dir).
Proof.
  revert done tree. induction todo as [|c todo IH]; intros done tree E k; simpl in E.
  - inversion E. now left.
  - destruct (tree !! (done ++ [c])) as [[|text]|] eqn:Ep.
    + exact (IH _ _ E k).
    + inversion E. now left.
    + destruct (IH _ _ E k) as [H | [H1 H2]].
      * destruct (decide (k = done ++ [c])) as [->|Hne].
        -- rewrite lookup_insert_eq in H. right. now rewrite H, Ep.
        -- rewrite lookup_insert_ne in H by congruence. now left.
      * destruct (decide (k = done ++ [c])) as [->|Hne].
        -- now rewrite lookup_insert_eq in H1.
        -- rewrite lookup_insert_ne in H1 by congruence. now right.
Qed.

Lemma mkdir_chain_dir (todo done : list string)
    (tree tree' : gmap (list string) node) :
  todo <> [] ->
  mkdir_chain done todo tree = (Ok tt, tree') ->
  tree' !! (done ++ todo) = Some Dir.
Proof.
  revert done tree. induction todo as [|c todo IH]; intros done tree Hne E;
    [congruence|]. simpl in E.
  assert (Hrec : forall t, t !! (done ++ [c]) = Some Dir ->
            mkdir_chain (done ++ [c]) todo t = (Ok tt, tree') ->
            tree' !! (done ++ c :: todo) = Some Dir).
  { intros t Ht Et. destruct todo as [|c' todo].
    - simpl in Et. inversion Et. now subst.
    - replace (done ++ c :: c' :: todo) with ((done ++ [c]) ++ c' :: todo)
        by now rewrite <- app_assoc.
      now apply (IH _ t). }
  destruct (tree !! (done ++ [c])) as [[|text]|] eqn:Ep.
  - now apply (Hrec tree).
  - discriminate.
  - apply (Hrec _ (lookup_insert_eq _ _ _) E).
Qed.

Lemma lookup_node_snoc (tree : gmap (list string) node) (k : list string)
    (c : string) :
  lookup_node tree (k ++ [c]) = tree !! (k ++ [c]).
Proof. now destruct k. Qed.

Lemma mkdir_chain_beyond (todo done : list string)
    (tree tree' : gmap (list string) node) (r : result unit) (k : list string) :
  mkdir_chain done todo tree = (r, tree') ->
  length (done ++ todo) < length k ->
  tree' !! k = tree !! k.
Proof.
  revert done tree. induction todo as [|c todo IH]; intros done tree E Hk;
    simpl in E.
  - now inversion E.
  - assert (Hlen : length ((done ++ [c]) ++ todo) < length k)
      by now rewrite <- app_assoc.
    destruct (tree !! (done ++ [c])) as [[|text]|] eqn:Ep.
    + exact (IH _ _ E Hlen).
    + now inversion E.
    + rewrite (IH _ _ E Hlen). apply lookup_insert_ne.
      intros <-. rewrite !length_app in Hk. simpl in Hk. lia.
Qed.

Lemma path_clear_insert_dir (todo done p : list string)
    (tree : gmap (list string) node) :
  path_clear tree done todo = true ->
  path_clear (<[p := Dir]> tree) done todo = true.
Proof.
  revert done. induction todo as [|c todo IH]; intros done; simpl; [reflexivity|].
  rewrite !andb_true_iff. intros [H1 H2]. split; [|now apply IH].
  destruct (decide (p = done ++ [c])) as [->|Hne].
  - now rewrite lookup_insert_eq.
  - now rewrite lookup_insert_ne.
Qed.

Lemma path_clear_mkdir_chain (todo done : list string)
    (tree : gmap (list string) node) :
  path_clear tree done todo = true ->
  exists tree', mkdir_chain done todo tree = (Ok tt, tree').
Proof.
  revert done tree. induction todo as [|c todo IH]; intros done tree; simpl.
  - eauto.
  - rewrite andb_true_iff. intros [H1 H2].
    destruct (tree !! (done ++ [c])) as [[|text]|] eqn:Ep.
    + now apply IH.
    + discriminate.
    + apply IH. now apply path_clear_insert_dir.
Qed.

Section WithRemote.
Context {R : Type}.

Lemma dirs_kept_refl : Reflexive (@dirs_kept R).
Proof. intros w. split; auto. Qed.

Lemma dirs_kept_trans : Transitive (@dirs_kept R).
Proof.
  intros w1 w2 w3 [Hc1 H1] [Hc2 H2]. split; [congruence | auto].
Qed.

Lemma only_dirs_added_refl : Reflexive (@only_dirs_added R).
Proof. intros w. repeat split; auto. Qed.

#[local] Existing Instance dirs_kept_refl.
#[local] Existing Instance dirs_kept_trans.
#[local] Existing Instance only_dirs_added_refl.

Lemma only_dirs_added_kept (w w' : world R) :
  only_dirs_added w w' -> dirs_kept w w'.
Proof.
  intros (Hc & _ & _ & H). split; [exact Hc|].
  intros k Hk. destruct (H k) as [E | [E _]]; congruence.
Qed.

Lemma os_makedirs_only_dirs (path : option string) (w : world R) :
  only_dirs_added w (snd (os_makedirs path w)).
Proof.
  unfold os_makedirs. destruct path as [p|]; [|reflexivity].
  destruct (is_empty p); [reflexivity|].
  destruct (node_is_dir _); [reflexivity|].
  destruct (mkdir_chain [] (canon (cwd w) p) (fs w)) as [r tree] eqn:E.
  simpl. repeat split; try reflexivity.
  exact (mkdir_chain_adds_dirs _ _ _ _ _ E).
Qed.

Lemma os_makedirs_ok (p : string) (w w' : world R) :
  os_makedirs (Some p) w = (Ok tt, w') ->
  isdir_in w' p = true.
Proof.
  unfold os_makedirs, isdir_in.
  destruct (is_empty p); [discriminate|].
  destruct (node_is_dir (lookup_node (fs w) (canon (cwd w) p))) eqn:Ed;
    [discriminate|].
  destruct (mkdir_chain [] (canon (cwd w) p) (fs w)) as [r tree] eqn:E.
  intros H. inversion H. subst. simpl.
  destruct (canon (cwd w) p) as [|c k] eqn:Ek; [reflexivity|].
  unfold lookup_node.
  pose proof (mkdir_chain_dir (c :: k) [] (fs w) tree) as Hd.
  simpl in Hd. rewrite Hd; [reflexivity | discriminate | assumption].
Qed.

Lemma os_makedirs_creatable (p : string) (w : world R) :
  creatable w p = true -> isdir_in w p = false ->
  exists w', os_makedirs (Some p) w = (Ok tt, w').
Proof.
  unfold creatable, isdir_in, os_makedirs.
  rewrite andb_true_iff, negb_true_iff. intros [He Hc]. rewrite He. simpl.
  intros ->.
  destruct (path_clear_mkdir_chain _ _ _ Hc) as [tree ->]. eauto.
Qed.

Lemma open_w_ok (path : string) (w w' : world R) (k : list string) :
  open_w path w = (Ok k, w') ->
  k = canon (cwd w) path /\
  w' = set_fs (<[k := File EmptyString]> (fs w)) w /\
  fs w !! k <> Some Dir.
Proof.
  unfold open_w. destruct (is_empty path); [discriminate|].
  destruct (lookup_node (fs w) (removelast (canon (cwd w) path))) as [[|c]|];
    try discriminate.
  destruct (canon (cwd w) path) as [|c l] eqn:Ek; [discriminate|].
  unfold lookup_node.
  destruct (fs w !! (c :: l)) as [[|text]|] eqn:El; try discriminate;
    destruct (endswith_sep path); try discriminate;
    intros H; inversion H; subst; repeat split; congruence.
Qed.

Lemma open_w_succeeds (path : string) (w : world R) :
  is_empty path = false -> endswith_sep path = false ->
  node_is_dir (lookup_node (fs w) (removelast (canon (cwd w) path))) = true ->
  node_is_dir (lookup_node (fs w) (canon (cwd w) path)) = false ->
  open_w path w =
    (Ok (canon (cwd w) path),
     set_fs (<[canon (cwd w) path := File EmptyString]> (fs w)) w).
Proof.
  intros He Hs Hp Hk. unfold open_w. rewrite He, Hs.
  destruct (lookup_node (fs w) (removelast (canon (cwd w) path))) as [[|c]|];
    try discriminate.
  destruct (lookup_node (fs w) (canon (cwd w) path)) as [[|c]|];
    try discriminate; reflexivity.
Qed.

Lemma open_w_world (path : string) (w : world R) :
  snd (open_w path w) = w \/
  (fs w !! canon (cwd w) path <> Some Dir /\
   snd (open_w path w) =
     set_fs (<[canon (cwd w) path := File EmptyString]> (fs w)) w).
Proof.
  destruct (open_w path w) as [[k|e] w'] eqn:E.
  - right. apply open_w_ok in E as (-> & -> & H). auto.
  - left. unfold open_w in E.
    repeat match type of E with
           | (if ?b then _ else _) = _ => destruct b
           | match ?x with _ => _ end = _ => destruct x
           end; now inversion E.
Qed.

Lemma file_write_world (dest : list string) (text : string) (w : world R) :
  snd (file_write dest text w) = w \/
  exists old, fs w !! dest = Some (File old) /\
    snd (file_write dest text w) =
      set_fs (<[dest := File (old +:+ text)]> (fs w)) w.
Proof.
  unfold file_write. destruct (fs w !! dest) as [[|old]|]; eauto.
Qed.

Lemma stable_dirs_open_w (path : string) : stable dirs_kept (@open_w R path).
Proof.
  intros w. destruct (open_w_world path w) as [-> | [Hk ->]]; [reflexivity|].
  split; [reflexivity|]. intros k Hd. simpl.
  rewrite lookup_insert_ne; [exact Hd | congruence].
Qed.

Lemma stable_dirs_file_write (dest : list string) (text : string) :
  stable dirs_kept (@file_write R dest text).
Proof.
  intros w. destruct (file_write_world dest text w) as [-> | (old & Ho & ->)];
    [reflexivity|].
  split; [reflexivity|]. intros k Hd. simpl.
  rewrite lookup_insert_ne; [exact Hd | congruence].
Qed.

Lemma stable_dirs_makedirs (path : option string) :
  stable dirs_kept (@os_makedirs R path).
Proof. intros w. apply only_dirs_added_kept, os_makedirs_only_dirs. Qed.

Lemma stable_dirs_isdir (path : option string) :
  stable dirs_kept (@os_path_isdir R path).
Proof.
  intros w. unfold os_path_isdir. destruct path as [p|]; [|reflexivity].
  destruct (is_empty p); reflexivity.
Qed.

Lemma stable_dirs_print (line : string) : stable dirs_kept (@print_stderr R line).
Proof. intros w. split; auto. Qed.

Lemma os_makedirs_beyond (p : string) (w : world R) (k : list string) :
  length (canon (cwd w) p) < length k ->
  fs (snd (os_makedirs (Some p) w)) !! k = fs w !! k.
Proof.
  intros Hk. unfold os_makedirs.
  destruct (is_empty p); [reflexivity|].
  destruct (node_is_dir _); [reflexivity|].
  destruct (mkdir_chain [] (canon (cwd w) p) (fs w)) as [r tree] eqn:E.
  simpl. exact (mkdir_chain_beyond _ _ _ _ _ _ E Hk).
Qed.

Lemma os_path_isdir_eq (p : string) (w : world R) :
  os_path_isdir (Some p) w = (Ok (isdir_in w p), w).
Proof.
  unfold os_path_isdir, isdir_in. now destruct (is_empty p).
Qed.

Lemma dirs_kept_insert_file (w : world R) (k : list string) (text : string)
    (lines : list string) (s : R) :
  fs w !! k <> Some Dir ->
  dirs_kept w (World (<[k := File text]> (fs w)) (cwd w) lines s).
Proof.
  intros Hk. split; [reflexivity|]. intros k' Hd. simpl.
  rewrite lookup_insert_ne; [exact Hd | congruence].
Qed.

Lemma dirs_kept_isdir_in (w w' : world R) (path : string) :
  dirs_kept w w' -> isdir_in w path = true -> isdir_in w' path = true.
Proof.
  intros [Hc Hd]. unfold isdir_in. rewrite Hc.
  destruct (is_empty path); [discriminate|]. simpl.
  destruct (canon (cwd w) path) as [|c k]; [reflexivity|]. simpl.
  destruct (fs w !! (c :: k)) as [[|text]|] eqn:E; try discriminate.
  now rewrite (Hd _ E).
Qed.

End WithRemote.
End FsFacts.

(** ** The checkout *)

Module CheckoutFacts.
Import PyStr PosixPath Os Checkout Frame CheckoutSpec.
Import PyStrFacts PathFacts OsFacts FsFacts.
Local Open Scope py_scope.

Section WithPlatform.
Context {R : Type} {platform : Platform}.

Lemma bind_ret_tt (m : M R unit) (w : world R) :
  bind m (fun _ => ret tt) w = m w.
Proof. unfold bind, ret. now destruct (m w) as [[[]|e] w']. Qed.

(** *** The dispatch table *)

Lemma checkouters_lookup (tag : string) :
  @checkouters R _ !! tag =
    if bool_decide (tag = "PROG/P") then Some checkout_program
    else if bool_decide (tag = "CLAS/OC") then Some checkout_class
    else if bool_decide (tag = "INTF/OI") then Some checkout_interface
    else None.
Proof.
  unfold checkouters.
  repeat (case_bool_decide; [subst; reflexivity|]).
  rewrite !lookup_insert_ne by congruence.
  now apply lookup_singleton_ne.
Qed.

Lemma checkouters_supported (obj : adt_object) :
  supported obj = true ->
  @checkouters R _ !! typ obj = Some (exporter_of obj).
Proof.
  unfold supported, exporter_of. rewrite checkouters_lookup.
  repeat case_bool_decide; simpl; congruence.
Qed.

Lemma checkouters_unsupported (obj : adt_object) :
  supported obj = false -> @checkouters R _ !! typ obj = None.
Proof.
  unfold supported. rewrite checkouters_lookup.
  repeat case_bool_decide; simpl; congruence.
Qed.

(** *** The exporters do not use the error stream *)

Lemma stderr_blind_request {A : Type} (f : R -> result A * R) :
  stderr_blind (request f).
Proof.
  intros w lines. unfold request. simpl. now destruct (f (remote w)).
Qed.

Lemma stderr_blind_download (object_name typsfx : string)
    (connection : Connection R) (kind : source_kind) (n : string)
    (destdir : option string) :
  stderr_blind
    (download_abap_source object_name (adt_source connection kind n)
       typsfx destdir).
Proof.
  unfold download_abap_source.
  apply stderr_blind_bind; [apply stderr_blind_open_w|]. intros dest.
  apply stderr_blind_bind; [apply stderr_blind_request|]. intros text.
  apply stderr_blind_file_write.
Qed.

Lemma stderr_blind_dump (object_name : string) (v : VSEOCLASS)
    (typsfx ag_serializer : string) (destdir : option string) :
  stderr_blind
    (@dump_attributes_to_file R _ object_name v typsfx ag_serializer destdir).
Proof.
  unfold dump_attributes_to_file.
  apply stderr_blind_bind; [apply stderr_blind_open_w|]. intros dest.
  apply stderr_blind_file_write.
Qed.

Lemma stderr_blind_exporter (obj : adt_object) (connection : Connection R)
    (n : string) (destdir : option string) :
  stderr_blind (exporter_of obj connection n destdir).
Proof.
  unfold exporter_of.
  repeat case_bool_decide;
    unfold checkout_program, checkout_class, checkout_interface;
    repeat first
      [ apply stderr_blind_download
      | apply stderr_blind_dump
      | apply stderr_blind_request
      | apply stderr_blind_returning
      | apply stderr_blind_bind; [|intros ?] ].
Qed.

(** *** One object of the list *)

Lemma checkout_object_unsupported (connection : Connection R)
    (destdir : option string) (obj : adt_object) (w : world R) :
  supported obj = false ->
  checkout_object connection destdir obj w =
    (Ok tt, set_stderr (stderr w ++ [diagnostic obj]) w).
Proof.
  intros H. unfold checkout_object. now rewrite (checkouters_unsupported obj H).
Qed.

Lemma checkout_object_supported (connection : Connection R)
    (destdir : option string) (obj : adt_object) (w : world R) :
  supported obj = true ->
  checkout_object connection destdir obj w =
    try_except_KeyError (exporter_of obj connection (name obj) destdir)
      (print_stderr (diagnostic obj)) w.
Proof.
  intros H. unfold checkout_object. now rewrite (checkouters_supported obj H).
Qed.

(** A failure of the exporter that is no [KeyError] leaves the loop
    body as it was raised. *)
Lemma checkout_object_propagates (connection : Connection R)
    (destdir : option string) (obj : adt_object) (w w' : world R) (e : exn) :
  supported obj = true ->
  exporter_of obj connection (name obj) destdir w = (Raised e, w') ->
  is_KeyError e = false ->
  checkout_object connection destdir obj w = (Raised e, w').
Proof.
  intros Hs He Hk. rewrite checkout_object_supported by assumption.
  unfold try_except_KeyError. now rewrite He, Hk.
Qed.

Lemma checkout_loop_supported_ok (connection : Connection R)
    (destdir : option string) (objects : list adt_object) :
  forall (w1 w2 : world R) (lines : list string),
    export_supported connection objects destdir w1 = (Ok tt, w2) ->
    for_each objects (checkout_object connection destdir) (set_stderr lines w1) =
      (Ok tt,
       set_stderr
         (lines ++ map diagnostic (List.filter (fun o => negb (supported o)) objects))
         w2).
Proof.
  unfold export_supported.
  induction objects as [|obj objects IH]; intros w1 w2 lines E; simpl in *.
  - inversion E. now rewrite app_nil_r.
  - destruct (supported obj) eqn:Hs; simpl in *.
    + apply bind_ok in E as ([] & wa & Ea & Eb).
      unfold bind at 1. rewrite checkout_object_supported by assumption.
      unfold try_except_KeyError.
      rewrite (stderr_blind_run _ _ _ _ lines
                 (stderr_blind_exporter obj connection (name obj) destdir) Ea).
      now apply IH.
    + unfold bind at 1. rewrite checkout_object_unsupported by assumption.
      simpl.
      change (set_stderr (lines ++ [diagnostic obj]) (set_stderr lines w1))
        with (set_stderr (lines ++ [diagnostic obj]) w1).
      rewrite (IH _ _ _ E). now rewrite <- app_assoc.
Qed.

Lemma filter_unsupported_all (objects : list adt_object) :
  forallb (fun obj => negb (supported obj)) objects = true ->
  List.filter supported objects = [] /\
  List.filter (fun obj => negb (supported obj)) objects = objects.
Proof.
  induction objects as [|obj objects IH]; simpl; [auto|].
  rewrite andb_true_iff. intros [Ho Hall].
  destruct (IH Hall) as [E1 E2]. rewrite Ho.
  apply negb_true_iff in Ho. rewrite Ho. now rewrite E2.
Qed.

Lemma checkout_objects_unfold (connection : Connection R)
    (objects : list adt_object) (destdir : option string) (w : world R) :
  checkout_objects connection objects destdir w =
    bind (ensure_directory destdir)
      (fun _ => for_each objects (checkout_object connection destdir)) w.
Proof. unfold checkout_objects, ensure_directory. now rewrite bind_assoc. Qed.

Lemma for_each_app {A : Type} (l1 l2 : list A) (body : A -> M R unit)
    (w : world R) :
  for_each (l1 ++ l2) body w =
    bind (for_each l1 body) (fun _ => for_each l2 body) w.
Proof.
  revert w. induction l1 as [|x l1 IH]; intros w; simpl; [reflexivity|].
  rewrite bind_assoc. unfold bind.
  destruct (body x w) as [[[]|e] w1]; [|reflexivity].
  rewrite IH. reflexivity.
Qed.

(** A [KeyError] of the exporter is taken for a missing table entry. *)
Lemma checkout_object_swallows (connection : Connection R)
    (destdir : option string) (obj : adt_object) (w w' : world R) (e : exn) :
  supported obj = true ->
  exporter_of obj connection (name obj) destdir w = (Raised e, w') ->
  is_KeyError e = true ->
  checkout_object connection destdir obj w =
    (Ok tt, set_stderr (stderr w' ++ [diagnostic obj]) w').
Proof.
  intros Hs He Hk. rewrite checkout_object_supported by assumption.
  unfold try_except_KeyError. now rewrite He, Hk.
Qed.

(** An exporter failure that is no [KeyError] ends [checkout_objects]
    with that failure, in the world the exporter left. *)
Lemma checkout_objects_propagates (connection : Connection R)
    (before after : list adt_object) (obj : adt_object) (destdir : string)
    (w w1 w2 w3 : world R) (e : exn) :
  ensure_directory (Some destdir) w = (Ok tt, w1) ->
  for_each before (checkout_object connection (Some destdir)) w1 = (Ok tt, w2) ->
  supported obj = true ->
  exporter_of obj connection (name obj) (Some destdir) w2 = (Raised e, w3) ->
  is_KeyError e = false ->
  checkout_objects connection (before ++ obj :: after) (Some destdir) w =
    (Raised e, w3).
Proof.
  intros Hdir Hbefore Hs He Hk.
  rewrite checkout_objects_unfold. unfold bind at 1. rewrite Hdir.
  rewrite for_each_app. unfold bind at 1. rewrite Hbefore.
  cbn [for_each]. unfold bind at 1.
  now rewrite (checkout_object_propagates _ _ _ _ _ _ Hs He Hk).
Qed.

(** *** The loop over the walk *)



End WithPlatform.
End CheckoutFacts.

(** ** The exporters *)

Module ExporterFacts.
Import PyStr PosixPath Os Checkout Frame CheckoutSpec.
Import PyStrFacts PathFacts OsFacts FsFacts CheckoutFacts.
Local Open Scope py_scope.

Section WithPlatform.
Context {R : Type} {platform : Platform}.

Lemma open_w_cases (path : string) (w : world R) :
  (exists e, open_w path w = (Raised e, w)) \/
  (open_w path w =
     (Ok (canon (cwd w) path),
      set_fs (<[canon (cwd w) path := File EmptyString]> (fs w)) w) /\
   fs w !! canon (cwd w) path <> Some Dir /\
   node_is_dir (lookup_node (fs w) (removelast (canon (cwd w) path))) = true).
Proof.
  destruct (open_w path w) as [[k|e] w'] eqn:E.
  - right. pose proof E as E'. apply open_w_ok in E' as (-> & -> & H).
    repeat split; [assumption|].
    unfold open_w in E. destruct (is_empty path); [discriminate|].
    now destruct (lookup_node (fs w) (removelast (canon (cwd w) path)))
      as [[|c]|].
  - left. exists e. unfold open_w in E |- *.
    repeat match type of E with
           | (if ?b then _ else _) = _ => destruct b
           | match ?x with _ => _ end = _ => destruct x
           end; now inversion E.
Qed.

(** What [download_abap_source] does, case by case: the file cannot be
    opened; or it is opened and emptied, and then holds the text of the
    source unless reading that raises. *)
Lemma download_abap_source_cases (object_name typsfx : string)
    (connection : Connection R) (kind : source_kind) (n : string)
    (destdir : option string) (w : world R) :
  let run := download_abap_source object_name (adt_source connection kind n)
               typsfx destdir w in
  let k := canon (cwd w) (build_filename object_name typsfx "abap" destdir) in
  (exists e, run = (Raised e, w)) \/
  (fs w !! k <> Some Dir /\
   node_is_dir (lookup_node (fs w) (removelast k)) = true /\
   match adt_text connection kind n (remote w) with
   | (Ok text, s) =>
       run = (Ok tt, World (<[k := File text]> (fs w)) (cwd w) (stderr w) s)
   | (Raised e, s) =>
       run = (Raised e,
              World (<[k := File EmptyString]> (fs w)) (cwd w) (stderr w) s)
   end).
Proof.
  cbv zeta. unfold download_abap_source, bind.
  destruct (open_w_cases (build_filename object_name typsfx "abap" destdir) w)
    as [[e ->] | (-> & Hk & Hp)]; [left; eauto|].
  right. repeat split; [assumption..|].
  unfold adt_source, request. simpl.
  destruct (adt_text connection kind n (remote w)) as [[text|e] s];
    [|reflexivity].
  unfold file_write. simpl. rewrite lookup_insert_eq. simpl.
  now rewrite insert_insert_eq.
Qed.

Lemma dump_attributes_to_file_cases (object_name : string) (v : VSEOCLASS)
    (typsfx ag_serializer : string) (destdir : option string) (w : world R) :
  let run := dump_attributes_to_file object_name v typsfx ag_serializer
               destdir w in
  let k := canon (cwd w) (build_filename object_name typsfx "xml" destdir) in
  (exists e, run = (Raised e, w)) \/
  (fs w !! k <> Some Dir /\
   node_is_dir (lookup_node (fs w) (removelast k)) = true /\
   run = (Ok tt,
          World (<[k := File (XMLWriter ag_serializer v)]> (fs w))
            (cwd w) (stderr w) (remote w))).
Proof.
  cbv zeta. unfold dump_attributes_to_file, bind.
  destruct (open_w_cases (build_filename object_name typsfx "xml" destdir) w)
    as [[e ->] | (-> & Hk & Hp)]; [left; eauto|].
  right. repeat split; [assumption..|].
  unfold file_write. simpl. rewrite lookup_insert_eq. simpl.
  now rewrite insert_insert_eq.
Qed.

(** A successful download, read backwards. *)
Lemma download_abap_source_ok (object_name typsfx : string)
    (connection : Connection R) (kind : source_kind) (n : string)
    (destdir : option string) (w w' : world R) :
  download_abap_source object_name (adt_source connection kind n)
    typsfx destdir w = (Ok tt, w') ->
  exists text s,
    adt_text connection kind n (remote w) = (Ok text, s) /\
    w' = World
           (<[canon (cwd w) (build_filename object_name typsfx "abap" destdir)
              := File text]> (fs w))
           (cwd w) (stderr w) s.
Proof.
  intros E.
  destruct (download_abap_source_cases object_name typsfx connection kind n
              destdir w) as [[e He] | (_ & _ & H)].
  - cbv zeta in He. congruence.
  - cbv zeta in H.
    destruct (adt_text connection kind n (remote w)) as [[text|e] s];
      rewrite H in E; inversion E; subst.
    exists text, s. split; reflexivity.
Qed.

Lemma dump_attributes_to_file_ok (object_name : string) (v : VSEOCLASS)
    (typsfx ag_serializer : string) (destdir : option string) (w w' : world R) :
  dump_attributes_to_file object_name v typsfx ag_serializer destdir w
    = (Ok tt, w') ->
  w' = World
         (<[canon (cwd w) (build_filename object_name typsfx "xml" destdir)
            := File (XMLWriter ag_serializer v)]> (fs w))
         (cwd w) (stderr w) (remote w).
Proof.
  intros E.
  destruct (dump_attributes_to_file_cases object_name v typsfx ag_serializer
              destdir w) as [[e He] | (_ & _ & H)]; cbv zeta in *; congruence.
Qed.

(** *** Where the files go *)

Lemma canon_join (cwd_ d f : string) :
  is_component f = true -> canon cwd_ (join d f) = canon cwd_ d ++ [f].
Proof.
  intros Hf. unfold canon.
  pose proof (component_inv f Hf) as (_ & Hs & _ & _).
  rewrite absolute_join by now apply startswith_sep_has_sep.
  now apply norm_comps_join.
Qed.

Lemma canon_relative_component (cwd_ f : string) :
  is_component f = true -> canon cwd_ f = norm_comps true cwd_ ++ [f].
Proof.
  intros Hf. unfold canon, absolute, isabs.
  pose proof (component_inv f Hf) as (_ & Hs & _ & _).
  rewrite (startswith_sep_has_sep f Hs). now apply norm_comps_join.
Qed.

(** The file of a name without slash lies in the destination directory. *)
Lemma build_filename_dest (object_name typsfx fileext : string)
    (destdir : option string) (w : world R) :
  has_sep object_name = false -> has_sep typsfx = false ->
  has_sep fileext = false -> 2 < String.length fileext ->
  canon (cwd w) (build_filename object_name typsfx fileext destdir) =
    dest_file w destdir
      (lower object_name +:+ lower typsfx +:+ "." +:+ lower fileext).
Proof.
  intros Hn Ht He Hl. unfold build_filename, dest_file, dest_dir.
  rewrite !lower_app.
  assert (Hc : is_component
                 (lower object_name +:+ lower typsfx +:+ lower "." +:+ lower fileext)
               = true).
  { rewrite <- !append_assoc. apply component_ext.
    - now rewrite !has_sep_app, !has_sep_lower, Hn, Ht.
    - now rewrite has_sep_lower.
    - now rewrite length_lower. }
  destruct destdir as [d|].
  - now apply canon_join.
  - now apply canon_relative_component.
Qed.

(** *** The names of the files *)

Lemma build_filename_basename (object_name typsfx fileext : string)
    (destdir : option string) :
  basename (build_filename object_name typsfx fileext destdir) =
    lower (basename (object_name +:+ typsfx +:+ "." +:+ fileext)).
Proof.
  unfold build_filename. destruct destdir as [d|];
    now rewrite ?basename_join, basename_lower.
Qed.

Lemma build_filename_component (object_name typsfx fileext : string)
    (destdir : option string) :
  has_sep fileext = false -> 2 < String.length fileext ->
  is_component (basename (build_filename object_name typsfx fileext destdir))
    = true.
Proof.
  intros He Hl. rewrite build_filename_basename.
  rewrite <- !append_assoc, (basename_app_no_sep _ fileext He), lower_app.
  apply component_ext.
  - now rewrite has_sep_lower, has_sep_basename.
  - now rewrite has_sep_lower.
  - now rewrite length_lower.
Qed.

Lemma build_filename_lower_case_name (object_name typsfx fileext : string)
    (destdir : option string) (cwd_ : string) :
  has_sep fileext = false -> 2 < String.length fileext ->
  lower_case_name
    (canon cwd_ (build_filename object_name typsfx fileext destdir)).
Proof.
  intros He Hl.
  exists (basename (build_filename object_name typsfx fileext destdir)). split.
  - unfold canon. rewrite <- (basename_absolute cwd_).
    apply norm_comps_last. rewrite basename_absolute.
    now apply build_filename_component.
  - rewrite build_filename_basename. apply no_upper_lower.
Qed.

Lemma lower_case_name_dec (k : list string) :
  lower_case_name k \/ ~ lower_case_name k.
Proof.
  unfold lower_case_name. destruct (last k) as [b|].
  - destruct (no_upper b) eqn:E; [left; eauto|].
    right. intros (b' & Hb & Hn). congruence.
  - right. intros (b' & Hb & _). discriminate.
Qed.

Lemma writes_within_refl (P : list string -> Prop) : Reflexive (@writes_within R P).
Proof. intros w. split; auto. Qed.

Lemma writes_within_trans (P : list string -> Prop) :
  Transitive (@writes_within R P).
Proof.
  intros w1 w2 w3 [Hc1 H1] [Hc2 H2]. split; [congruence|].
  intros k Hk. now rewrite H2, H1.
Qed.

Lemma writes_within_insert (P : list string -> Prop) (w : world R)
    (k : list string) (n : node) (lines : list string) (s : R) :
  P k -> writes_within P w (World (<[k := n]> (fs w)) (cwd w) lines s).
Proof.
  intros Hk. split; [reflexivity|]. intros k' Hk'. simpl.
  apply lookup_insert_ne. congruence.
Qed.

Lemma stable_lower_download (object_name typsfx : string)
    (connection : Connection R) (kind : source_kind) (n : string)
    (destdir : option string) :
  stable (writes_within lower_case_name)
    (download_abap_source object_name (adt_source connection kind n)
       typsfx destdir).
Proof.
  intros w.
  destruct (download_abap_source_cases object_name typsfx connection kind n
              destdir w) as [[e He] | (_ & _ & H)]; cbv zeta in *.
  - rewrite He. apply writes_within_refl.
  - destruct (adt_text connection kind n (remote w)) as [[text|e] s];
      rewrite H; apply writes_within_insert;
      (apply build_filename_lower_case_name; [reflexivity | simpl; lia]).
Qed.

Lemma stable_lower_dump (object_name : string) (v : VSEOCLASS)
    (typsfx ag_serializer : string) (destdir : option string) :
  stable (writes_within lower_case_name)
    (@dump_attributes_to_file R _ object_name v typsfx ag_serializer destdir).
Proof.
  intros w.
  destruct (dump_attributes_to_file_cases object_name v typsfx ag_serializer
              destdir w) as [[e He] | (_ & _ & H)]; cbv zeta in *.
  - rewrite He. apply writes_within_refl.
  - rewrite H. apply writes_within_insert.
    apply build_filename_lower_case_name; [reflexivity | simpl; lia].
Qed.

Lemma stable_lower_request {A : Type} (f : R -> result A * R) :
  stable (writes_within lower_case_name) (request f).
Proof.
  intros w. unfold request. destruct (f (remote w)). split; auto.
Qed.

Lemma stable_lower_exporter (obj : adt_object) (connection : Connection R)
    (n : string) (destdir : option string) :
  stable (writes_within lower_case_name) (exporter_of obj connection n destdir).
Proof.
  unfold exporter_of.
  repeat case_bool_decide;
    unfold checkout_program, checkout_class, checkout_interface;
    repeat first
      [ apply stable_lower_download
      | apply stable_lower_dump
      | apply stable_lower_request
      | apply stable_bind; [apply writes_within_trans| |intros ?] ].
  intros w. apply writes_within_refl.
Qed.

(** *** Successful exports of names without slash *)

Lemma class_file_names_NoDup (n : string) : NoDup (class_file_names n).
Proof.
  unfold class_file_names.
  repeat (apply NoDup_cons; split;
          [rewrite ?not_elem_of_cons; repeat split;
           try (intros H; apply (inj (String.append n)) in H; discriminate);
           apply not_elem_of_nil|]).
  apply NoDup_nil_2.
Qed.

Lemma source_file_written (object_name typsfx : string)
    (connection : Connection R) (kind : source_kind) (n : string)
    (destdir : option string) (w w' : world R) :
  has_sep object_name = false -> has_sep typsfx = false ->
  download_abap_source object_name (adt_source connection kind n)
    typsfx destdir w = (Ok tt, w') ->
  exists text s,
    adt_text connection kind n (remote w) = (Ok text, s) /\
    w' = World
           (<[dest_file w destdir
                (lower object_name +:+ lower typsfx +:+ ".abap") := File text]>
              (fs w))
           (cwd w) (stderr w) s.
Proof.
  intros Hn Ht E. apply download_abap_source_ok in E as (text & s & Hr & ->).
  exists text, s. split; [exact Hr|].
  rewrite (build_filename_dest object_name typsfx "abap" destdir w Hn Ht)
    by (reflexivity || (simpl; lia)).
  reflexivity.
Qed.

Lemma class_checkout_written (connection : Connection R) (name : string)
    (destdir : option string) (w w' : world R) :
  has_sep name = false ->
  checkout_class connection name destdir w = (Ok tt, w') ->
  exists clas v main definitions implementations test_classes s0 s1 s2 s3,
    adt_fetch_class connection name (remote w) = (Ok clas, s0) /\
    adt_text connection ClassMain name s0 = (Ok main, s1) /\
    adt_text connection ClassDefinitions name s1 = (Ok definitions, s2) /\
    adt_text connection ClassImplementations name s2 = (Ok implementations, s3) /\
    adt_text connection ClassTestClasses name s3 = (Ok test_classes, remote w') /\
    build_class_abap_attributes clas = Ok v /\
    class_files_written w w' destdir (lower name)
      main definitions implementations test_classes
      (XMLWriter "LCL_OBJECT_CLAS" v).
Proof.
  intros Hn E. unfold checkout_class in E.
  apply bind_ok in E as (clas & w0 & E0 & E).
  unfold request in E0.
  destruct (adt_fetch_class connection name (remote w)) as [r0 s0] eqn:F0.
  inversion E0; subst; clear E0.
  apply bind_ok in E as ([] & w1 & E1 & E).
  apply source_file_written in E1 as (main & s1 & T1 & ->);
    [|assumption|reflexivity].
  apply bind_ok in E as ([] & w2 & E2 & E).
  apply source_file_written in E2 as (definitions & s2 & T2 & ->);
    [|assumption|reflexivity].
  apply bind_ok in E as ([] & w3 & E3 & E).
  apply source_file_written in E3 as (implementations & s3 & T3 & ->);
    [|assumption|reflexivity].
  apply bind_ok in E as ([] & w4 & E4 & E).
  apply source_file_written in E4 as (test_classes & s4 & T4 & ->);
    [|assumption|reflexivity].
  apply bind_ok in E as (v & w5 & E5 & E).
  unfold returning in E5. inversion E5 as [[Hv Hw]]. subst w5. clear E5.
  apply dump_attributes_to_file_ok in E. subst w'.
  exists clas, v, main, definitions, implementations, test_classes.
  simpl in T1, T2, T3, T4. exists s0, s1, s2, s3.
  repeat split; try assumption.
  unfold class_files_written. simpl.
  rewrite (build_filename_dest name ".clas" "xml" destdir w Hn)
    by (reflexivity || (simpl; lia)).
  reflexivity.
Qed.

(** *** The directory stage *)

Lemma ensure_directory_only_dirs (destdir : option string) (w : world R) :
  only_dirs_added w (snd (ensure_directory destdir w)).
Proof.
  unfold ensure_directory, bind, os_path_isdir.
  destruct destdir as [p|]; [|apply only_dirs_added_refl].
  destruct (is_empty p); [exact (os_makedirs_only_dirs (Some p) w)|].
  destruct (node_is_dir _);
    [apply only_dirs_added_refl | exact (os_makedirs_only_dirs (Some p) w)].
Qed.

Lemma ensure_directory_existing (p : string) (w : world R) :
  isdir_in w p = true -> ensure_directory (Some p) w = (Ok tt, w).
Proof.
  intros H. unfold ensure_directory, bind. now rewrite os_path_isdir_eq, H.
Qed.

Lemma ensure_directory_ok (p : string) (w w1 : world R) :
  ensure_directory (Some p) w = (Ok tt, w1) -> isdir_in w1 p = true.
Proof.
  unfold ensure_directory, bind. rewrite os_path_isdir_eq.
  destruct (isdir_in w p) eqn:Ed; simpl.
  - intros H. inversion H. now subst.
  - apply os_makedirs_ok.
Qed.

Lemma ensure_directory_run (p : string) (w w1 : world R) :
  ensure_directory (Some p) w = (Ok tt, w1) ->
  isdir_in w1 p = true /\
  only_dirs_added w w1 /\
  forall k, length (canon (cwd w) p) < length k -> fs w1 !! k = fs w !! k.
Proof.
  intros E. split; [exact (ensure_directory_ok _ _ _ E)|].
  unfold ensure_directory, bind in E. rewrite os_path_isdir_eq in E.
  destruct (isdir_in w p); cbn [negb] in E.
  - inversion E. subst. split; [apply only_dirs_added_refl | auto].
  - pose proof (os_makedirs_only_dirs (Some p) w) as Ho.
    pose proof (os_makedirs_beyond p w) as Hb.
    rewrite E in Ho, Hb. now split.
Qed.

Lemma ensure_directory_creatable (p : string) (w : world R) :
  creatable w p = true ->
  exists w1,
    ensure_directory (Some p) w = (Ok tt, w1) /\
    isdir_in w1 p = true /\
    only_dirs_added w w1 /\
    forall k, length (canon (cwd w) p) < length k -> fs w1 !! k = fs w !! k.
Proof.
  intros Hc. destruct (isdir_in w p) eqn:Ed.
  - exists w. rewrite ensure_directory_existing by assumption.
    repeat split; auto.
  - destruct (os_makedirs_creatable p w Hc Ed) as [w1 E].
    exists w1.
    assert (Ee : ensure_directory (Some p) w = (Ok tt, w1))
      by (unfold ensure_directory, bind; now rewrite os_path_isdir_eq, Ed).
    split; [exact Ee|]. split; [exact (ensure_directory_ok _ _ _ Ee)|].
    pose proof (os_makedirs_only_dirs (Some p) w) as Ho.
    pose proof (os_makedirs_beyond p w) as Hb.
    rewrite E in Ho, Hb. now split.
Qed.

(** *** Directories stay *)

Lemma stable_dirs_request {A : Type} (f : R -> result A * R) :
  stable dirs_kept (request f).
Proof.
  intros w. unfold request. destruct (f (remote w)). split; auto.
Qed.

Lemma stable_dirs_download (object_name typsfx : string)
    (connection : Connection R) (kind : source_kind) (n : string)
    (destdir : option string) :
  stable dirs_kept
    (download_abap_source object_name (adt_source connection kind n)
       typsfx destdir).
Proof.
  intros w.
  destruct (download_abap_source_cases object_name typsfx connection kind n
              destdir w) as [[e He] | (Hk & _ & H)]; cbv zeta in *.
  - rewrite He. apply dirs_kept_refl.
  - destruct (adt_text connection kind n (remote w)) as [[text|e] s];
      rewrite H; now apply dirs_kept_insert_file.
Qed.

Lemma stable_dirs_dump (object_name : string) (v : VSEOCLASS)
    (typsfx ag_serializer : string) (destdir : option string) :
  stable dirs_kept
    (@dump_attributes_to_file R _ object_name v typsfx ag_serializer destdir).
Proof.
  intros w.
  destruct (dump_attributes_to_file_cases object_name v typsfx ag_serializer
              destdir w) as [[e He] | (Hk & _ & H)]; cbv zeta in *.
  - rewrite He. apply dirs_kept_refl.
  - rewrite H. now apply dirs_kept_insert_file.
Qed.

Lemma stable_dirs_exporter (obj : adt_object) (connection : Connection R)
    (n : string) (destdir : option string) :
  stable dirs_kept (exporter_of obj connection n destdir).
Proof.
  unfold exporter_of.
  repeat case_bool_decide;
    unfold checkout_program, checkout_class, checkout_interface;
    repeat first
      [ apply stable_dirs_download
      | apply stable_dirs_dump
      | apply stable_dirs_request
      | apply stable_bind; [apply dirs_kept_trans| |intros ?] ].
  intros w. apply dirs_kept_refl.
Qed.

Lemma stable_dirs_checkout_object (connection : Connection R)
    (destdir : option string) (obj : adt_object) :
  stable dirs_kept (checkout_object connection destdir obj).
Proof.
  intros w. destruct (supported obj) eqn:Hs.
  - rewrite checkout_object_supported by assumption.
    apply (stable_try dirs_kept); [apply dirs_kept_trans| |].
    + apply stable_dirs_exporter.
    + apply stable_dirs_print.
  - rewrite checkout_object_unsupported by assumption. split; auto.
Qed.

Lemma stable_dirs_checkout_loop (connection : Connection R)
    (destdir : option string) (objects : list adt_object) :
  stable dirs_kept (for_each objects (checkout_object connection destdir)).
Proof.
  apply stable_for_each;
    [apply dirs_kept_refl | apply dirs_kept_trans|].
  intros obj. apply stable_dirs_checkout_object.
Qed.

Lemma checkout_objects_existing (connection : Connection R)
    (objects : list adt_object) (destdir : string) (w : world R) :
  isdir_in w destdir = true ->
  checkout_objects connection objects (Some destdir) w =
    for_each objects (checkout_object connection (Some destdir)) w.
Proof.
  intros H. rewrite checkout_objects_unfold. unfold bind.
  now rewrite ensure_directory_existing.
Qed.

Lemma checkout_objects_ok_isdir (connection : Connection R)
    (objects : list adt_object) (destdir : string) (w w' : world R) :
  checkout_objects connection objects (Some destdir) w = (Ok tt, w') ->
  isdir_in w' destdir = true.
Proof.
  rewrite checkout_objects_unfold. intros E.
  apply bind_ok in E as ([] & w1 & E1 & E2).
  pose proof (stable_dirs_checkout_loop connection (Some destdir) objects w1)
    as Hk.
  rewrite E2 in Hk. simpl in Hk.
  apply (dirs_kept_isdir_in w1 w' destdir Hk).
  exact (ensure_directory_ok _ _ _ E1).
Qed.

Lemma abspath_isabs (cwd_ path : string) :
  isabs cwd_ = true -> isabs (abspath cwd_ path) = true.
Proof.
  intros Hc. unfold abspath. apply normpath_isabs. unfold absolute.
  destruct (isabs path) eqn:Hp; [exact Hp|].
  unfold isabs in *. rewrite join_relative by assumption.
  assert (is_empty cwd_ = false) by now destruct cwd_.
  destruct (is_empty cwd_ || endswith_sep cwd_);
    now rewrite startswith_sep_app.
Qed.

End WithPlatform.
End ExporterFacts.

(** ** The checkout on the demo system *)

Module CheckoutExamples.
Import PyStr PosixPath Os Checkout CheckoutSpec.

(** Without [--recursive] the package [ZPKG] alone is checked out into
    [repo/src/zpkg]; its sub-package is reported as unsupported object and
    not visited. *)
Example package_root_only :
  let w' := snd (package (platform := Demo.platform) Demo.connection
                   (Demo.zpkg_args false) Demo.world0) in
  fs w' !! ["home"; "dev"; "repo"; ".abapgit.xml"] = Some (File "DATA:/src/")
  /\ fs w' !! ["home"; "dev"; "repo"; "src"; "zpkg"; "zprog.prog.abap"]
     = Some (File "source of ZPROG #0")
  /\ fs w' !! ["home"; "dev"; "repo"; "src"; "zpkg"; "zcl_demo.clas.xml"]
     = Some (File "LCL_OBJECT_CLAS:ZCL_DEMO:1")
  /\ fs w' !! ["home"; "dev"; "repo"; "src"; "zpkg"; "zsub"] = None
  /\ stderr w' = ["Unsupported object: DEVC/K ZSUB"].
Proof. vm_compute. repeat split; reflexivity. Qed.

(** With [--recursive] the sub-package follows, in [repo/src/zpkg/zsub]. *)
Example package_recursive :
  let w' := snd (package (platform := Demo.platform) Demo.connection
                   (Demo.zpkg_args true) Demo.world0) in
  fs w' !! ["home"; "dev"; "repo"; "src"; "zpkg"; "zprog.prog.abap"]
    = Some (File "source of ZPROG #0")
  /\ fs w' !! ["home"; "dev"; "repo"; "src"; "zpkg"; "zsub"] = Some Dir
  /\ fs w' !! ["home"; "dev"; "repo"; "src"; "zpkg"; "zsub"; "zif_demo.intf.abap"]
     = Some (File "source of ZIF_DEMO #6")
  /\ stderr w' = ["Unsupported object: DEVC/K ZSUB";
                  "Unsupported object: TABL/DT ZTAB"].
Proof. vm_compute. repeat split; reflexivity. Qed.

(** A source request that raises leaves the emptied file behind. *)
Example failed_download_leaves_empty_file :
  checkout_program Demo.http_error_connection "ZPROG" (Some "/home/dev")
    Demo.world0 =
  (Raised (OtherError "HTTPRequestError"),
   World (<[ ["home"; "dev"; "zprog.prog.abap"] := File EmptyString ]>
            (fs Demo.world0))
     "/home/dev" [] 1).
Proof. vm_compute. reflexivity. Qed.

(** A file in the way of the destination directory. *)
Example destdir_is_a_file :
  fst (checkout_objects (platform := Demo.platform) Demo.connection []
         (Some "notes")
         (set_fs (<[ ["home"; "dev"; "notes"] := File "todo" ]> (fs Demo.world0))
            Demo.world0))
  = Raised FileExistsError.
Proof. vm_compute. reflexivity. Qed.

(** No destination directory at all. *)
Example destdir_missing :
  fst (checkout_objects (platform := Demo.platform) Demo.connection
         Demo.mixed None Demo.world0)
  = Raised TypeError.
Proof. reflexivity. Qed.

End CheckoutExamples.

(** ** The directory of a visit *)

Module SegmentFacts.
Import PyStr PosixPath Os Checkout CheckoutSpec PyStrFacts PathFacts.

Lemma relative_segment_inv (s : string) :
  relative_segment s = true ->
  is_empty s = false /\ startswith_sep s = false /\ endswith_sep s = false.
Proof.
  unfold relative_segment.
  destruct (is_empty s), (startswith_sep s), (endswith_sep s);
    simpl; intros H; try discriminate; now repeat split.
Qed.

Lemma startswith_sep_lower (s : string) :
  startswith_sep (lower s) = startswith_sep s.
Proof. destruct s as [|c s]; [reflexivity | apply is_sep_lower_ascii]. Qed.

Lemma is_empty_lower (s : string) : is_empty (lower s) = is_empty s.
Proof. now destruct s. Qed.

(** [os.path.join] of relative segments is their join with the
    separator. *)
Lemma join_all_segments (others : list string) :
  forall first,
    is_empty first = false -> endswith_sep first = false ->
    Forall (fun s => relative_segment s = true) others ->
    join_all first others = join_sep (first :: others).
Proof.
  unfold join_all.
  induction others as [|o others IH]; intros first He Hs Hall; [reflexivity|].
  inversion Hall as [|? ? Ho Hothers]; subst.
  apply relative_segment_inv in Ho as (Hoe & Hos & Hoend).
  cbn [fold_left].
  assert (Ej : join first o = first +:+ "/" +:+ o)
    by (rewrite join_relative by assumption; now rewrite He, Hs).
  rewrite Ej, IH; [| | |assumption].
  - rewrite (join_sep_cons first) by discriminate.
    destruct others as [|o2 others]; [reflexivity|].
    rewrite (join_sep_cons (first +:+ "/" +:+ o)) by discriminate.
    rewrite (join_sep_cons o) by discriminate. now rewrite !append_assoc.
  - now rewrite is_empty_app, He.
  - rewrite <- append_assoc, endswith_sep_app by assumption. exact Hoend.
Qed.

Lemma join_sep_relative_start (segments : list string) :
  segments <> [] ->
  Forall (fun s => relative_segment s = true) segments ->
  startswith_sep (lower (join_sep segments)) = false.
Proof.
  intros Hne Hall. destruct segments as [|first others]; [contradiction|].
  inversion Hall as [|? ? Hfirst _]; subst.
  apply relative_segment_inv in Hfirst as (He & Hs & _).
  rewrite startswith_sep_lower.
  destruct others as [|second others]; [exact Hs|].
  rewrite (join_sep_cons first) by discriminate.
  now rewrite startswith_sep_app.
Qed.

(** For relative segments the two branches of the loop of [package]
    compute one thing: the base joined with the lower-cased
    separator join. *)
Lemma package_destdir_join (base : string) (segments : list string) :
  segments <> [] ->
  Forall (fun s => relative_segment s = true) segments ->
  package_destdir base segments = join base (lower (join_sep segments)).
Proof.
  intros Hne Hall. destruct segments as [|first others]; [contradiction|].
  destruct others as [|second others]; [reflexivity|].
  inversion Hall as [|? ? Hfirst Hothers]; subst.
  apply relative_segment_inv in Hfirst as (He & _ & Hend).
  unfold package_destdir. now rewrite join_all_segments.
Qed.

Lemma spec_destdir_join_sep (base : string) (segments : list string) :
  segments <> [] ->
  spec_destdir base segments = base +:+ "/" +:+ lower (join_sep segments).
Proof.
  intros Hne. destruct segments as [|first others]; [contradiction|].
  now destruct others.
Qed.

End SegmentFacts.

(** ** The properties of the checkout *)

Section CheckoutProperties.
Import PyStr PosixPath Os Checkout Frame CheckoutSpec.
Import PyStrFacts PathFacts OsFacts FsFacts CheckoutFacts ExporterFacts.
Local Open Scope py_scope.
Context {R : Type} {platform : Platform}.

(** C1: in every world, so wherever it stands in the list, an object whose
    type tag is ['PROG/P'], ['CLAS/OC'] or ['INTF/OI'] is handed to its
    exporter with its name and the destination directory, and any other
    object is skipped: the loop body returns, having printed the one line
    ['Unsupported object: <type_tag> <name>'] to the error stream and
    nothing else.  For the whole list: once the destination directory is
    there and as long as no exporter raises, [checkout_objects] returns,
    the supported objects are exported in list order, and the error
    stream has grown by exactly one such line for every other object. *)
Theorem checkout_objects_dispatch (connection : Connection R)
    (objects : list adt_object) (destdir : string) :
  (forall obj (w : world R),
     supported obj = true ->
     checkouters !! typ obj = Some (exporter_of (R := R) obj) /\
     checkout_object connection (Some destdir) obj w =
       try_except_KeyError
         (exporter_of obj connection (name obj) (Some destdir))
         (print_stderr (diagnostic obj)) w)
  /\ (forall obj (w : world R),
        supported obj = false ->
        checkout_object connection (Some destdir) obj w =
          (Ok tt, set_stderr (stderr w ++ [diagnostic obj]) w))
  /\ (forall w w1 w2 : world R,
        ensure_directory (Some destdir) w = (Ok tt, w1) ->
        export_supported connection objects (Some destdir) w1 = (Ok tt, w2) ->
        checkout_objects connection objects (Some destdir) w =
          (Ok tt,
           set_stderr
             (stderr w ++
              map diagnostic
                (List.filter (fun obj => negb (supported obj)) objects))
             w2)).
Proof.
  split; [|split].
  - intros obj w Hs. split; [now apply checkouters_supported|].
    now apply checkout_object_supported.
  - intros obj w Hs. now apply checkout_object_unsupported.
  - intros w w1 w2 Hdir Hexp. rewrite checkout_objects_unfold. unfold bind at 1.
    rewrite Hdir.
    pose proof (ensure_directory_only_dirs (Some destdir) w) as (_ & Herr & _).
    rewrite Hdir in Herr. simpl in Herr. rewrite <- Herr.
    rewrite <- (set_stderr_same w1) at 1.
    now apply checkout_loop_supported_ok.
Qed.

(** C2 fails on the code: the source request of the program [ZPROG]
    raises a [KeyError]; [checkout_program] raises it, and
    [checkout_objects] returns normally after reporting the program as
    unsupported, while an HTTP error of the same request leaves
    [checkout_objects] as it was raised. *)
Theorem checkout_objects_swallows_KeyError :
  fst (Checkout.checkout_program Demo.keyerror_connection "ZPROG"
         (Some "/home/dev") Demo.world0)
    = Os.Raised (Os.KeyError "Content-Type")
  /\ fst (Checkout.checkout_objects (platform := Demo.platform)
            Demo.keyerror_connection [Demo.zprog] (Some "/home/dev")
            Demo.world0)
     = Os.Ok tt
  /\ Os.stderr (snd (Checkout.checkout_objects (platform := Demo.platform)
                       Demo.keyerror_connection [Demo.zprog]
                       (Some "/home/dev") Demo.world0))
     = ["Unsupported object: PROG/P ZPROG"]
  /\ fst (Checkout.checkout_objects (platform := Demo.platform)
            Demo.http_error_connection [Demo.zprog] (Some "/home/dev")
            Demo.world0)
     = Os.Raised (Os.OtherError "HTTPRequestError").
Proof. repeat split; vm_compute; reflexivity. Qed.


(** C4, amended: for every non-empty sequence of package path segments
    none of which is empty or begins or ends with the path separator, the
    directory the loop of [package] hands to [checkout_objects] is the
    absolute source directory joined with the lower-casing of the
    separator join of the segments, which for one segment is the
    lower-cased segment: as a string it is
    [base_dir/lowercase(segment)], respectively
    [base_dir/lowercase(join(segments, path-separator))], for every base
    directory but a root, where the separator the base ends with is not
    doubled.  The claim as stated has no condition on the segments and
    fails for a segment that begins with the separator. *)
Theorem package_destdir_resolution (connection : Connection R)
    (recursive : bool) (source_code_dir : string) (subpackages : list string)
    (objects : list adt_object) (rest : package_walk) (w : world R)
    (package_name_hier : list string) :
  package_name_hier <> [] ->
  Forall (fun s => relative_segment s = true) package_name_hier ->
  let base := abspath (cwd w) source_code_dir in
  let destdir := package_destdir base package_name_hier in
  let continue := fun _ : unit =>
    if negb recursive then ret tt
    else package_loop connection recursive source_code_dir rest in
  package_loop connection recursive source_code_dir
    (WalkYield package_name_hier subpackages objects rest) w =
    bind (checkout_objects connection objects (Some destdir)) continue w
  /\ destdir = join base (lower (join_sep package_name_hier))
  /\ (is_empty base = false -> endswith_sep base = false ->
      destdir = spec_destdir base package_name_hier)
  /\ (endswith_sep base = true ->
      destdir = base +:+ lower (join_sep package_name_hier))
  /\ (forall segment, package_name_hier = [segment] ->
      spec_destdir base package_name_hier = base +:+ "/" +:+ lower segment)
  /\ (1 < length package_name_hier ->
      spec_destdir base package_name_hier =
        base +:+ "/" +:+ lower (join_sep package_name_hier)
      /\ lower (join_sep package_name_hier) =
           join_sep (map lower package_name_hier)).
Proof.
  intros Hne Hall. cbv zeta.
  set (base := abspath (cwd w) source_code_dir).
  pose proof (SegmentFacts.package_destdir_join base package_name_hier Hne Hall)
    as Hjoin.
  pose proof (SegmentFacts.join_sep_relative_start package_name_hier Hne Hall)
    as Hstart.
  split; [reflexivity|]. split; [exact Hjoin|].
  split; [|split; [|split]].
  - intros He Hend. rewrite Hjoin, join_relative by assumption.
    rewrite He, Hend. cbn [orb].
    now rewrite SegmentFacts.spec_destdir_join_sep.
  - intros Hend. rewrite Hjoin, join_relative by assumption.
    now rewrite Hend, orb_true_r.
  - now intros segment ->.
  - intros Hlen. split; [now apply SegmentFacts.spec_destdir_join_sep|].
    apply lower_join_sep.
Qed.

(** C5: [build_filename] gives the lower-casing of the whole
    ['<name><suffix>.<ext>'], joined to the destination directory when
    there is one; names that differ in case only give the same file name;
    its base name has no upper-case letter, and neither has the base name
    of any path at which an exporter changes the file tree. *)
Theorem build_filename_lower_case (object_name typsfx fileext : string) :
  build_filename object_name typsfx fileext None =
    lower (object_name +:+ typsfx +:+ "." +:+ fileext)
  /\ (forall destdir,
        build_filename object_name typsfx fileext (Some destdir) =
          join destdir (lower (object_name +:+ typsfx +:+ "." +:+ fileext)))
  /\ (forall other destdir,
        lower other = lower object_name ->
        build_filename other typsfx fileext destdir =
          build_filename object_name typsfx fileext destdir)
  /\ (forall destdir,
        no_upper (basename (build_filename object_name typsfx fileext destdir))
          = true)
  /\ (forall (connection : Connection R) (obj : adt_object) destdir (w : world R)
             (k : list string),
        let w' := snd (exporter_of obj connection object_name destdir w) in
        fs w' !! k <> fs w !! k ->
        exists b, last k = Some b /\ no_upper b = true).
Proof.
  split; [reflexivity|]. split; [reflexivity|]. split; [|split].
  - intros other destdir E. unfold build_filename. now rewrite !lower_app, E.
  - intros destdir. rewrite build_filename_basename. apply no_upper_lower.
  - intros connection obj destdir w k. cbv zeta. intros Hk.
    destruct (stable_lower_exporter obj connection object_name destdir w)
      as [_ H].
    destruct (lower_case_name_dec k) as [Hl | Hn]; [exact Hl|].
    now specialize (H k Hn).
Qed.

(** C6 (amended): for a name [N] without path separator, a successful class
    checkout changes the file tree in exactly five places, the files
    [n.clas.abap], [n.clas.locals_def.abap], [n.clas.locals_imp.abap],
    [n.clas.testclasses.abap] and [n.clas.xml] of the destination directory
    ([n] is [N] in lower case), which hold the four fetched sources and the
    serialized attributes; a successful program checkout changes it at
    [n.prog.abap] only and a successful interface checkout at [n.intf.abap]
    only. *)
Theorem exporters_write_their_files (connection : Connection R)
    (name : string) (destdir : option string) (w w' : world R) :
  has_sep name = false ->
  (checkout_class connection name destdir w = (Ok tt, w') ->
   NoDup (class_file_names (lower name)) /\
   exists clas v main definitions implementations test_classes s0 s1 s2 s3,
     adt_fetch_class connection name (remote w) = (Ok clas, s0) /\
     adt_text connection ClassMain name s0 = (Ok main, s1) /\
     adt_text connection ClassDefinitions name s1 = (Ok definitions, s2) /\
     adt_text connection ClassImplementations name s2 = (Ok implementations, s3) /\
     adt_text connection ClassTestClasses name s3 = (Ok test_classes, remote w') /\
     build_class_abap_attributes clas = Ok v /\
     class_files_written w w' destdir (lower name)
       main definitions implementations test_classes
       (XMLWriter "LCL_OBJECT_CLAS" v))
  /\ (checkout_program connection name destdir w = (Ok tt, w') ->
      exists text,
        adt_text connection ProgramSource name (remote w) = (Ok text, remote w') /\
        one_file_written w w' destdir (lower name +:+ ".prog.abap") text)
  /\ (checkout_interface connection name destdir w = (Ok tt, w') ->
      exists text,
        adt_text connection InterfaceSource name (remote w) = (Ok text, remote w') /\
        one_file_written w w' destdir (lower name +:+ ".intf.abap") text).
Proof.
  intros Hn. split; [|split].
  - intros E. split; [apply class_file_names_NoDup|].
    now apply class_checkout_written.
  - intros E. unfold checkout_program in E.
    apply source_file_written in E as (text & s & Hr & ->);
      [|assumption|reflexivity].
    exists text. split; [exact Hr | reflexivity].
  - intros E. unfold checkout_interface in E.
    apply source_file_written in E as (text & s & Hr & ->);
      [|assumption|reflexivity].
    exists text. split; [exact Hr | reflexivity].
Qed.

(** C7: the attribute record of a class has version ['1'] exactly when the
    class is ['active'] and ['0'] otherwise, the fixed point flag ['X'] or
    [' '] as the class has it, state ['0'] for a modeled class and ['1']
    otherwise, and the compiler-check-include and unicode flags always
    ['X']; the record is built for every class whose language code the
    lookup knows. *)
Theorem build_class_abap_attributes_flags (clas : adt_class) :
  match build_class_abap_attributes clas with
  | Ok v =>
      iso_code_to_sap_code (clas_master_language clas) = Ok (LANGU v) /\
      CLSNAME v = clas_name clas /\
      DESCRIPT v = clas_description clas /\
      (VERSION v = "1" <-> clas_active clas = "active") /\
      (VERSION v = "0" <-> clas_active clas <> "active") /\
      FIXPT v = (if clas_fix_point_arithmetic clas then "X" else " ") /\
      STATE v = (if clas_modeled clas then "0" else "1") /\
      CLSCCINCL v = "X" /\
      UNICODE v = "X"
  | Raised e => iso_code_to_sap_code (clas_master_language clas) = Raised e
  end.
Proof.
  unfold build_class_abap_attributes.
  destruct (iso_code_to_sap_code (clas_master_language clas)) as [langu|e];
    [|reflexivity].
  simpl. repeat split; try case_bool_decide; try congruence; try discriminate.
Qed.

(** C8: whenever repo initialization returns, it returns the normalized
    path of the requested root directory below the working directory,
    which is absolute as the working directory is; after it the root
    directory exists, the file [.abapgit.xml] directly in it holds the
    serialized metadata whose starting folder is the configured folder
    between two slashes, and nothing else has changed but directories
    created on the way to the root.  It does return when no file is in
    the way of the root directory and no directory in the way of the
    metadata file. *)
Theorem make_repo_dir_for_package_spec (args : package_args) (w : world R) :
  let root := abspath (cwd w) (requested_repo_dir args) in
  let metadata := canon (cwd w) root ++ [".abapgit.xml"] in
  let dot_abapgit := for_new_repo ("/" +:+ args_starting_folder args +:+ "/") in
  (forall r w',
     make_repo_dir_for_package args w = (Ok r, w') ->
     r = root /\
     isdir_in w' root = true /\
     fs w' !! metadata = Some (File (to_xml dot_abapgit "DATA")) /\
     STARTING_FOLDER dot_abapgit = "/" +:+ args_starting_folder args +:+ "/" /\
     (forall k, k <> metadata ->
        fs w' !! k = fs w !! k \/ (fs w !! k = None /\ fs w' !! k = Some Dir)) /\
     cwd w' = cwd w /\ stderr w' = stderr w /\ remote w' = remote w)
  /\ (isabs (cwd w) = true -> isabs root = true)
  /\ (creatable w root = true ->
      node_is_dir (fs w !! metadata) = false ->
      exists w', make_repo_dir_for_package args w = (Ok root, w')).
Proof.
  cbv zeta.
  set (root := abspath (cwd w) (requested_repo_dir args)).
  set (xml := to_xml _ "DATA").
  assert (Hrun : make_repo_dir_for_package args w =
            bind (ensure_directory (Some root))
              (fun _ => dest <- open_w (join root ".abapgit.xml") ;;
                        file_write dest xml ;;; ret root) w).
  { unfold make_repo_dir_for_package. fold (requested_repo_dir args).
    unfold bind at 1. unfold os_path_abspath at 1. fold root.
    now rewrite <- (bind_assoc (os_path_isdir (Some root))). }
  assert (Hkey : forall w1 : world R, cwd w1 = cwd w ->
            canon (cwd w1) (join root ".abapgit.xml") =
              canon (cwd w) root ++ [".abapgit.xml"])
    by (intros w1 ->; now apply canon_join).
  split; [|split].
  - intros r w' E. rewrite Hrun in E.
    apply bind_ok in E as ([] & w1 & E1 & E).
    apply ensure_directory_run in E1
      as (Hd1 & (Hcwd & Herr & Hrem & Hfs) & Hbeyond).
    apply bind_ok in E as (dest & w2 & E2 & E).
    apply open_w_ok in E2 as (-> & -> & Hnodir).
    rewrite (Hkey w1 Hcwd) in *.
    unfold bind, file_write, ret in E. simpl in E.
    rewrite lookup_insert_eq in E. simpl in E.
    rewrite insert_insert_eq in E. inversion E; subst r w'; clear E.
    repeat split; simpl; try assumption.
    + apply (dirs_kept_isdir_in w1); [|exact Hd1].
      exact (dirs_kept_insert_file w1 _ xml (stderr w1) (remote w1) Hnodir).
    + apply lookup_insert_eq.
    + intros k Hk. rewrite lookup_insert_ne by congruence. apply Hfs.
  - now apply abspath_isabs.
  - intros Hc Hm. rewrite Hrun.
    destruct (ensure_directory_creatable root w Hc)
      as (w1 & E1 & Hd1 & (Hcwd & _) & Hbeyond).
    assert (Hroot : is_empty root = false).
    { unfold creatable in Hc. now destruct (is_empty root). }
    unfold bind at 1. rewrite E1. unfold bind at 1.
    rewrite open_w_succeeds.
    + unfold bind, file_write, ret. simpl. rewrite lookup_insert_eq. eauto.
    + now apply join_nonempty.
    + rewrite join_relative by reflexivity.
      destruct (is_empty root || endswith_sep root);
        now rewrite endswith_sep_app.
    + rewrite (Hkey w1 Hcwd), removelast_last.
      unfold isdir_in in Hd1. rewrite Hroot, Hcwd in Hd1. exact Hd1.
    + rewrite (Hkey w1 Hcwd), lookup_node_snoc, Hbeyond; [exact Hm|].
      rewrite length_app. simpl. lia.
Qed.

(** C9: when the destination directory is there, [checkout_objects] goes
    straight to its objects and creates nothing, and so it does on every
    run after a run that returned; it calls [os.makedirs] exactly when
    the directory is not there; when the repo root directory is there,
    repo initialization only writes the metadata file; every file the
    checkout opens is emptied, whatever it held; and a source file
    written by one run holds, after a later run has written it again,
    what the later run fetched and nothing of the earlier text. *)
Theorem rerun_keeps_directories_and_overwrites (connection : Connection R)
    (objects : list adt_object) (destdir : string) (args : package_args)
    (w : world R) :
  (isdir_in w destdir = true ->
   checkout_objects connection objects (Some destdir) w =
     for_each objects (checkout_object connection (Some destdir)) w)
  /\ (isdir_in w destdir = false ->
      checkout_objects connection objects (Some destdir) w =
        (os_makedirs (Some destdir) ;;;
         for_each objects (checkout_object connection (Some destdir))) w)
  /\ (forall w1,
        checkout_objects connection objects (Some destdir) w = (Ok tt, w1) ->
        forall (connection2 : Connection R) (objects2 : list adt_object),
          checkout_objects connection2 objects2 (Some destdir) w1 =
            for_each objects2 (checkout_object connection2 (Some destdir)) w1)
  /\ (forall path k w',
        open_w path w = (Ok k, w') ->
        k = canon (cwd w) path /\ fs w' !! k = Some (File EmptyString))
  /\ (let root := abspath (cwd w) (requested_repo_dir args) in
      isdir_in w root = true ->
      make_repo_dir_for_package args w =
        (dest <- open_w (join root ".abapgit.xml") ;;
         file_write dest
           (to_xml (for_new_repo ("/" +:+ args_starting_folder args +:+ "/"))
              "DATA") ;;;
         ret root) w)
  /\ (forall object_name typsfx kind n dest w1 w2,
        download_abap_source object_name (adt_source connection kind n)
          typsfx dest w = (Ok tt, w1) ->
        download_abap_source object_name (adt_source connection kind n)
          typsfx dest w1 = (Ok tt, w2) ->
        exists earlier later,
          fs w1 !! canon (cwd w) (build_filename object_name typsfx "abap" dest)
            = Some (File earlier) /\
          adt_text connection kind n (remote w1) = (Ok later, remote w2) /\
          fs w2 !! canon (cwd w) (build_filename object_name typsfx "abap" dest)
            = Some (File later) /\
          fs w2 = <[canon (cwd w) (build_filename object_name typsfx "abap" dest)
                    := File later]> (fs w1)).
Proof.
  split; [|split; [|split; [|split; [|split]]]].
  - apply checkout_objects_existing.
  - intros Hd. unfold checkout_objects, bind at 1.
    now rewrite os_path_isdir_eq, Hd.
  - intros w1 E connection2 objects2.
    apply checkout_objects_existing.
    exact (checkout_objects_ok_isdir _ _ _ _ _ E).
  - intros path k w' E. apply open_w_ok in E as (-> & -> & _).
    split; [reflexivity | apply lookup_insert_eq].
  - cbv zeta. intros Hd.
    unfold make_repo_dir_for_package. fold (requested_repo_dir args).
    unfold bind at 1. unfold os_path_abspath at 1.
    unfold bind at 1. rewrite os_path_isdir_eq, Hd. reflexivity.
  - intros object_name typsfx kind n dest w1 w2 E1 E2.
    apply download_abap_source_ok in E1 as (earlier & s1 & T1 & ->).
    apply download_abap_source_ok in E2 as (later & s2 & T2 & ->).
    exists earlier, later. simpl in *.
    repeat split; try apply lookup_insert_eq; assumption.
Qed.

(** C10: whenever [checkout_objects] returns, its destination is a
    directory; when the directory exists or can be created it is there
    after the call even if an exporter raises, and for a list without
    any supported object (the empty list is one) the call returns and
    changes nothing but the directories it creates and the error
    stream. *)
Theorem checkout_objects_creates_destdir (connection : Connection R)
    (objects : list adt_object) (destdir : string) (w : world R) :
  (forall w',
     checkout_objects connection objects (Some destdir) w = (Ok tt, w') ->
     isdir_in w' destdir = true)
  /\ (creatable w destdir = true ->
      isdir_in (snd (checkout_objects connection objects (Some destdir) w))
        destdir = true
      /\ (forallb (fun obj => negb (supported obj)) objects = true ->
          exists w1,
            only_dirs_added w w1 /\
            isdir_in w1 destdir = true /\
            checkout_objects connection objects (Some destdir) w =
              (Ok tt, set_stderr (stderr w ++ map diagnostic objects) w1))).
Proof.
  split.
  - intros w'. apply checkout_objects_ok_isdir.
  - intros Hc.
    destruct (ensure_directory_creatable destdir w Hc)
      as (w1 & E1 & Hd1 & Hadded & _).
    split.
    + rewrite checkout_objects_unfold. unfold bind. rewrite E1.
      apply (dirs_kept_isdir_in w1); [|exact Hd1].
      apply stable_dirs_checkout_loop.
    + intros Hall. destruct (filter_unsupported_all objects Hall) as [Hs Hu].
      exists w1. split; [exact Hadded|]. split; [exact Hd1|].
      rewrite checkout_objects_unfold. unfold bind. rewrite E1.
      destruct Hadded as (_ & Herr & _). rewrite <- Herr.
      rewrite <- (set_stderr_same w1) at 1.
      rewrite (checkout_loop_supported_ok connection (Some destdir) objects
                 w1 w1 (stderr w1)).
      * now rewrite Hu.
      * unfold export_supported. now rewrite Hs.
Qed.

End CheckoutProperties.

(** ** The properties on the demo system *)

(** The dispatch on the demo system: the sub-package is skipped with its
    line wherever it stands, and of the five objects three are exported
    and the other two reported. *)
Lemma checkout_objects_dispatch_witness :
  Checkout.checkout_object (platform := Demo.platform) Demo.connection
    (Some "/home/dev/out") Demo.subpackage Demo.world0 =
    (Os.Ok tt, Os.set_stderr ["Unsupported object: DEVC/K ZSUB"] Demo.world0)
  /\ Os.stderr (snd (Checkout.checkout_objects (platform := Demo.platform)
                       Demo.connection Demo.mixed (Some "/home/dev/out")
                       Demo.world0)) =
       ["Unsupported object: DEVC/K ZSUB"; "Unsupported object: TABL/DT ZTAB"].
Proof.
  pose (w1 := snd (CheckoutSpec.ensure_directory (R := nat)
                     (Some "/home/dev/out") Demo.world0)).
  pose (w2 := snd (CheckoutSpec.export_supported (platform := Demo.platform)
                     Demo.connection Demo.mixed (Some "/home/dev/out") w1)).
  destruct (checkout_objects_dispatch (platform := Demo.platform)
              Demo.connection Demo.mixed "/home/dev/out") as (_ & Hskip & H).
  split.
  - apply (Hskip Demo.subpackage Demo.world0). reflexivity.
  - rewrite (H Demo.world0 w1 w2).
    + reflexivity.
    + vm_compute. reflexivity.
    + vm_compute. reflexivity.
Defined.

(** The resolution of the paths [ROOT] and [ROOT], [SUB] below [/base]. *)
Lemma package_destdir_resolution_witness :
  Checkout.package_destdir (PosixPath.abspath "/home/dev" "/base") ["ROOT"]
    = "/base/root"
  /\ Checkout.package_destdir (PosixPath.abspath "/home/dev" "/base")
       ["ROOT"; "SUB"] = "/base/root/sub".
Proof.
  split.
  - destruct (package_destdir_resolution (platform := Demo.platform)
                Demo.connection true "/base" [] [] Checkout.WalkStop
                Demo.world0 ["ROOT"]) as (_ & _ & H & _);
      [discriminate | repeat constructor|].
    exact (H eq_refl eq_refl).
  - destruct (package_destdir_resolution (platform := Demo.platform)
                Demo.connection true "/base" [] [] Checkout.WalkStop
                Demo.world0 ["ROOT"; "SUB"]) as (_ & _ & H & _);
      [discriminate | repeat constructor|].
    exact (H eq_refl eq_refl).
Defined.

(** Segments that begin with the separator, against C4 as stated: for
    the package [/NS/ROOT] the directory is [/ns/root] and for its
    sub-package [/NS/SUB] it is [/ns/sub], not a directory below the base
    as the rule has it, and the checkout of the package creates [/ns/root]
    and writes the program there, outside the source directory. *)
Lemma package_destdir_namespace_counterexample :
  Checkout.package_destdir "/home/dev/repo/src" ["/NS/ROOT"] = "/ns/root"
  /\ CheckoutSpec.spec_destdir "/home/dev/repo/src" ["/NS/ROOT"]
     = "/home/dev/repo/src//ns/root"
  /\ Os.canon "/home/dev"
       (Checkout.package_destdir "/home/dev/repo/src" ["/NS/ROOT"])
     <> Os.canon "/home/dev"
          (CheckoutSpec.spec_destdir "/home/dev/repo/src" ["/NS/ROOT"])
  /\ Checkout.package_destdir "/home/dev/repo/src" ["/NS/ROOT"; "/NS/SUB"]
     = "/ns/sub"
  /\ CheckoutSpec.spec_destdir "/home/dev/repo/src" ["/NS/ROOT"; "/NS/SUB"]
     = "/home/dev/repo/src//ns/root//ns/sub"
  /\ (let w' :=
        snd (Checkout.package_loop (platform := Demo.platform) Demo.connection
               false "/home/dev/repo/src"
               (Checkout.WalkYield ["/NS/ROOT"] [] [Demo.zprog]
                  Checkout.WalkStop) Demo.world0) in
      Os.fs w' !! ["ns"; "root"; "zprog.prog.abap"]
        = Some (Os.File "source of ZPROG #0")
      /\ Os.fs w' !! ["home"; "dev"; "repo"; "src"; "ns"; "root";
                      "zprog.prog.abap"] = None).
Proof.
  split; [vm_compute; reflexivity|]. split; [vm_compute; reflexivity|].
  split; [vm_compute; discriminate|]. split; [vm_compute; reflexivity|].
  split; [vm_compute; reflexivity|]. split; vm_compute; reflexivity.
Qed.

(** The program exporter on the demo system writes a file whose name is
    in lower case, the same for [zprog] as for [ZPROG]. *)
Lemma build_filename_lower_case_witness :
  Checkout.build_filename "zprog" ".prog" "abap" (Some "/home/dev") =
    Checkout.build_filename "ZPROG" ".prog" "abap" (Some "/home/dev")
  /\ exists b,
       last ["home"; "dev"; "zprog.prog.abap"] = Some b /\
       PyStr.no_upper b = true.
Proof.
  destruct (build_filename_lower_case (R := nat) (platform := Demo.platform)
              "ZPROG" ".prog" "abap") as (_ & _ & Hcase & _ & H).
  split.
  - apply Hcase. reflexivity.
  - apply (H Demo.connection Demo.zprog (Some "/home/dev") Demo.world0).
    vm_compute. discriminate.
Defined.

(** The class and the program exporter on the demo system. *)
Lemma exporters_write_their_files_witness :
  (NoDup (CheckoutSpec.class_file_names "zcl_demo") /\
   exists main definitions implementations test_classes xml,
     CheckoutSpec.class_files_written Demo.world0
       (snd (Checkout.checkout_class (platform := Demo.platform)
               Demo.connection "ZCL_Demo" (Some "/home/dev") Demo.world0))
       (Some "/home/dev") "zcl_demo"
       main definitions implementations test_classes xml)
  /\ exists text,
       CheckoutSpec.one_file_written Demo.world0
         (snd (Checkout.checkout_program Demo.connection "ZPROG" None
                 Demo.world0))
         None "zprog.prog.abap" text.
Proof.
  split.
  - destruct (exporters_write_their_files (platform := Demo.platform)
                Demo.connection "ZCL_Demo" (Some "/home/dev") Demo.world0
                (snd (Checkout.checkout_class (platform := Demo.platform)
                        Demo.connection "ZCL_Demo" (Some "/home/dev")
                        Demo.world0)))
      as (H & _ & _); [reflexivity|].
    destruct H as (Hnodup & clas & v & main & definitions & implementations
                   & test_classes & s0 & s1 & s2 & s3 & _ & _ & _ & _ & _ & _
                   & Hfiles); [vm_compute; reflexivity|].
    split; [exact Hnodup|]. eauto 6.
  - destruct (exporters_write_their_files (platform := Demo.platform)
                Demo.connection "ZPROG" None Demo.world0
                (snd (Checkout.checkout_program Demo.connection "ZPROG" None
                        Demo.world0)))
      as (_ & H & _); [reflexivity|].
    destruct H as (text & _ & Hfile); [vm_compute; reflexivity|].
    exists text. exact Hfile.
Defined.

(** A name with a path separator, against C6 as stated: the class
    [/DEMO/CL_X] is checked out with success into [/home/dev], and none
    of its files is in [/home/dev]; they are in [/demo]. *)
Lemma checkout_class_namespace_counterexample :
  exists w',
    Checkout.checkout_class (platform := Demo.platform) Demo.connection
      "/DEMO/CL_X" (Some "/home/dev") Demo.namespace_world = (Os.Ok tt, w') /\
    Os.fs w' !! ["demo"; "cl_x.clas.abap"] =
      Some (Os.File "source of /DEMO/CL_X #1") /\
    ~ (exists main definitions implementations test_classes xml,
         CheckoutSpec.class_files_written Demo.namespace_world w'
           (Some "/home/dev") (PyStr.lower "/DEMO/CL_X")
           main definitions implementations test_classes xml).
Proof.
  eexists. split; [vm_compute; reflexivity|]. split; [vm_compute; reflexivity|].
  intros (main & definitions & implementations & test_classes & xml & H).
  apply (f_equal (fun tree => tree !! ["demo"; "cl_x.clas.abap"])) in H.
  vm_compute in H. discriminate.
Qed.

(** Repo initialization on the demo system: [repo] is created below the
    working directory and receives the metadata file. *)
Lemma make_repo_dir_for_package_spec_witness :
  PosixPath.isabs "/home/dev/repo" = true /\
  exists w',
    Checkout.make_repo_dir_for_package (platform := Demo.platform)
      (Demo.zpkg_args false) Demo.world0 = (Os.Ok "/home/dev/repo", w') /\
    CheckoutSpec.isdir_in w' "/home/dev/repo" = true /\
    Os.fs w' !! ["home"; "dev"; "repo"; ".abapgit.xml"] =
      Some (Os.File "DATA:/src/").
Proof.
  destruct (make_repo_dir_for_package_spec (platform := Demo.platform)
              (Demo.zpkg_args false) Demo.world0) as (Hret & Habs & Hrun).
  split; [apply Habs; reflexivity|].
  destruct Hrun as [w' E]; [reflexivity..|].
  destruct (Hret _ _ E) as (_ & Hdir & Hfile & _).
  exists w'. split; [exact E|]. split; [exact Hdir | exact Hfile].
Defined.

(** A checkout into the existing home directory creates no directory,
    neither does a second checkout into the directory [out] the first
    one created, and the program source written twice holds the text of
    the second request. *)
Lemma rerun_keeps_directories_and_overwrites_witness :
  let first := snd (Checkout.checkout_objects (platform := Demo.platform)
                      Demo.connection [Demo.zprog] (Some "out") Demo.world0) in
  let second := snd (Checkout.checkout_objects (platform := Demo.platform)
                       Demo.connection [Demo.zprog] (Some "out") first) in
  Checkout.checkout_objects (platform := Demo.platform) Demo.connection
    Demo.mixed (Some "/home/dev") Demo.world0 =
    Os.for_each Demo.mixed
      (Checkout.checkout_object (platform := Demo.platform) Demo.connection
         (Some "/home/dev")) Demo.world0
  /\ Checkout.checkout_objects (platform := Demo.platform) Demo.connection
       [Demo.zprog] (Some "out") first =
       Os.for_each [Demo.zprog]
         (Checkout.checkout_object (platform := Demo.platform) Demo.connection
            (Some "out")) first
  /\ Os.fs first !! ["home"; "dev"; "out"; "zprog.prog.abap"] =
       Some (Os.File "source of ZPROG #0")
  /\ Os.fs second !! ["home"; "dev"; "out"; "zprog.prog.abap"] =
       Some (Os.File "source of ZPROG #1").
Proof.
  cbv zeta.
  destruct (rerun_keeps_directories_and_overwrites
              (platform := Demo.platform) Demo.connection Demo.mixed
              "/home/dev" (Demo.zpkg_args false) Demo.world0) as (H & _).
  destruct (rerun_keeps_directories_and_overwrites
              (platform := Demo.platform) Demo.connection [Demo.zprog]
              "out" (Demo.zpkg_args false) Demo.world0)
    as (_ & _ & Hrerun & _ & _ & _).
  split; [apply H; reflexivity|].
  split; [apply (Hrerun _ ltac:(vm_compute; reflexivity))|].
  split; vm_compute; reflexivity.
Defined.

(** The destination directory [out] is there although the exporter of
    the only object raised, and for a list of unsupported objects. *)
Lemma checkout_objects_creates_destdir_witness :
  fst (Checkout.checkout_objects (platform := Demo.platform)
         Demo.http_error_connection [Demo.zprog] (Some "out") Demo.world0)
    = Os.Raised (Os.OtherError "HTTPRequestError")
  /\ CheckoutSpec.isdir_in
       (snd (Checkout.checkout_objects (platform := Demo.platform)
               Demo.http_error_connection [Demo.zprog] (Some "out")
               Demo.world0)) "out" = true
  /\ exists w1,
       CheckoutSpec.isdir_in w1 "out" = true /\
       Checkout.checkout_objects (platform := Demo.platform) Demo.connection
         [Demo.table] (Some "out") Demo.world0 =
         (Os.Ok tt, Os.set_stderr ["Unsupported object: TABL/DT ZTAB"] w1).
Proof.
  split; [vm_compute; reflexivity|].
  destruct (checkout_objects_creates_destdir (platform := Demo.platform)
              Demo.http_error_connection [Demo.zprog] "out" Demo.world0)
    as (_ & H).
  destruct (checkout_objects_creates_destdir (platform := Demo.platform)
              Demo.connection [Demo.table] "out" Demo.world0)
    as (_ & H').
  split; [apply H; reflexivity|].
  destruct H' as (_ & H'); [reflexivity|].
  destruct H' as (w1 & _ & Hdir & E); [reflexivity|].
  exists w1. split; [exact Hdir | exact E].
Defined.

(** * Further properties *)

(** ** Normalized paths *)

Module PathNormalFacts.
Import PyStr PosixPath Os Checkout CheckoutSpec CheckoutLaws.
Import PyStrFacts PathFacts.

Lemma split_join_sep (l : list string) :
  l <> [] -> Forall (fun s => has_sep s = false) l ->
  split_sep (join_sep l) = l.
Proof.
  induction l as [|x l IH]; [congruence|]. intros _ Hall.
  inversion Hall as [|? ? Hx Hl]; subst.
  destruct l as [|y l]; [now apply split_sep_no_sep|].
  rewrite (join_sep_cons x) by discriminate.
  rewrite split_sep_app_sep, (split_sep_no_sep x Hx), IH by (discriminate || assumption).
  reflexivity.
Qed.

Lemma component_no_sep (l : list string) :
  Forall (fun s => is_component s = true) l ->
  Forall (fun s => has_sep s = false) l.
Proof.
  intros Hall. eapply Forall_impl; [exact Hall|].
  intros s H. now apply component_inv in H.
Qed.

Lemma fold_norm_step_components (rooted : bool) (l acc : list string) :
  Forall (fun s => is_component s = true) l ->
  fold_left (norm_step rooted) l acc = acc ++ l.
Proof.
  revert acc. induction l as [|x l IH]; intros acc Hall; simpl.
  - now rewrite app_nil_r.
  - inversion Hall; subst. rewrite norm_step_component by assumption.
    rewrite IH by assumption. now rewrite <- app_assoc.
Qed.

Lemma last_is_dotdot_components (acc : list string) :
  Forall (fun s => is_component s = true) acc -> last_is_dotdot acc = false.
Proof.
  intros Hall. unfold last_is_dotdot.
  destruct (last acc) as [c|] eqn:E; [|reflexivity].
  apply last_Some in E as [l' ->]. apply Forall_app in Hall as [_ Hc].
  inversion Hc as [|? ? H _]; subst. now apply component_inv in H.
Qed.

(** Below the root, normalizing leaves components only. *)
Lemma fold_norm_step_rooted (l acc : list string) :
  Forall (fun s => has_sep s = false) l ->
  Forall (fun s => is_component s = true) acc ->
  Forall (fun s => is_component s = true) (fold_left (norm_step true) l acc).
Proof.
  revert acc. induction l as [|x l IH]; intros acc Hl Hacc; [exact Hacc|].
  inversion Hl as [|? ? Hx Hl']; subst. simpl. apply IH; [assumption|].
  unfold norm_step.
  destruct (is_empty x) eqn:He; [exact Hacc|]. simpl.
  destruct (is_dot x) eqn:Hd; [exact Hacc|].
  destruct (is_dotdot x) eqn:Hdd; simpl.
  - rewrite (last_is_dotdot_components acc Hacc).
    destruct acc as [|a acc] using rev_ind; [constructor|].
    rewrite removelast_last. now apply Forall_app in Hacc as [H _].
  - apply Forall_app. split; [exact Hacc|]. constructor; [|constructor].
    unfold is_component. now rewrite He, Hx, Hd, Hdd.
Qed.

Lemma norm_comps_rooted_components (path : string) :
  Forall (fun s => is_component s = true) (norm_comps true path).
Proof.
  unfold norm_comps. apply fold_norm_step_rooted; [|constructor].
  apply split_sep_parts.
Qed.

Lemma initial_slashes_isabs (path : string) :
  isabs path = true -> initial_slashes path = 1 \/ initial_slashes path = 2.
Proof.
  unfold isabs. destruct path as [|c1 p]; [discriminate|]. simpl. intros H.
  unfold initial_slashes. rewrite H.
  destruct p as [|c2 [|c3 p]]; [now left| |].
  - destruct (is_sep c2); auto.
  - destruct (is_sep c2 && negb (is_sep c3)); auto.
Qed.

Lemma normpath_isabs_eq (path : string) :
  isabs path = true ->
  normpath path =
    slashes (initial_slashes path) +:+ join_sep (norm_comps true path).
Proof.
  intros H. unfold normpath.
  assert (is_empty path = false) by (now destruct path).
  rewrite H0.
  destruct (initial_slashes_isabs path H) as [-> | ->]; reflexivity.
Qed.

(** Normalizing an absolute path twice gives the components of once:
    [normpath] is idempotent on them. *)
Lemma norm_comps_normpath (path : string) :
  isabs path = true ->
  norm_comps true (normpath path) = norm_comps true path.
Proof.
  intros H. rewrite (normpath_isabs_eq path H).
  pose proof (norm_comps_rooted_components path) as Hc.
  set (comps := norm_comps true path) in *.
  assert (Hs : fold_left (norm_step true) (split_sep (join_sep comps)) [] = comps).
  { clearbody comps. destruct comps as [|c rest]; [reflexivity|].
    rewrite split_join_sep by (discriminate || now apply component_no_sep).
    now rewrite fold_norm_step_components. }
  unfold norm_comps at 1.
  destruct (initial_slashes_isabs path H) as [-> | ->]; exact Hs.
Qed.

(** On an absolute path the working directory plays no part. *)
Lemma canon_isabs (cwd_ path : string) :
  isabs path = true -> canon cwd_ path = norm_comps true path.
Proof. intros H. unfold canon, absolute. now rewrite H. Qed.

Lemma canon_abspath (cwd_ path : string) :
  isabs cwd_ = true -> canon cwd_ (abspath cwd_ path) = canon cwd_ path.
Proof.
  intros Hc. unfold abspath.
  assert (Ha : isabs (absolute cwd_ path) = true).
  { unfold absolute. destruct (isabs path) eqn:Hp; [exact Hp|].
    unfold isabs in *. rewrite join_relative by assumption.
    assert (is_empty cwd_ = false) by now destruct cwd_.
    destruct (is_empty cwd_ || endswith_sep cwd_);
      now rewrite startswith_sep_app. }
  rewrite canon_isabs by now apply normpath_isabs.
  now rewrite norm_comps_normpath.
Qed.

(** Joining a relative path adds its components, normalized in turn. *)
Lemma norm_comps_join_relative (rooted : bool) (x y : string) :
  startswith_sep y = false ->
  norm_comps rooted (join x y) =
    fold_left (norm_step rooted) (split_sep y) (norm_comps rooted x).
Proof.
  intros Hy. rewrite join_relative by assumption. unfold norm_comps.
  destruct (is_empty x) eqn:Ex; simpl.
  - apply is_empty_true in Ex. subst x. now rewrite append_nil_l.
  - destruct (endswith_sep x) eqn:Ee.
    + destruct (endswith_sep_inv x Ee) as [x' ->].
      rewrite append_assoc, split_sep_app_sep, split_sep_trailing.
      now rewrite !fold_left_app.
    + now rewrite split_sep_app_sep, fold_left_app.
Qed.

Lemma join_sep_relative (l : list string) :
  Forall (fun s => is_component s = true) l ->
  startswith_sep (join_sep l) = false.
Proof.
  intros Hall. destruct l as [|x l]; [reflexivity|].
  inversion Hall as [|? ? Hx _]; subst.
  apply component_inv in Hx as (He & Hs & _ & _).
  destruct l as [|y l]; [now apply startswith_sep_has_sep|].
  rewrite (join_sep_cons x) by discriminate.
  rewrite startswith_sep_app by assumption. now apply startswith_sep_has_sep.
Qed.

Lemma norm_comps_join_components (rooted : bool) (x : string) (l : list string) :
  l <> [] -> Forall (fun s => is_component s = true) l ->
  norm_comps rooted (join x (join_sep l)) = norm_comps rooted x ++ l.
Proof.
  intros Hne Hall.
  rewrite norm_comps_join_relative by now apply join_sep_relative.
  rewrite split_join_sep by (assumption || now apply component_no_sep).
  now apply fold_norm_step_components.
Qed.

Lemma lower_ascii_dot (c : ascii) : lower_ascii c = "."%char -> c = "."%char.
Proof.
  destruct c as [[] [] [] [] [] [] [] []]; intros H; try reflexivity;
    vm_compute in H; discriminate.
Qed.

Lemma is_component_lower (s : string) :
  is_component s = true -> is_component (lower s) = true.
Proof.
  intros H. apply component_inv in H as (He & Hs & Hd & Hdd).
  unfold is_component. rewrite has_sep_lower, Hs.
  assert (Hne : is_empty (lower s) = false) by now destruct s.
  rewrite Hne. simpl.
  assert (Hdot : is_dot (lower s) = false).
  { apply bool_decide_eq_false. intros E.
    apply bool_decide_eq_false in Hd. apply Hd.
    destruct s as [|c [|c2 s]]; try discriminate.
    simpl in E. injection E as E. now rewrite (lower_ascii_dot c E). }
  assert (Hdotdot : is_dotdot (lower s) = false).
  { apply bool_decide_eq_false. intros E.
    apply bool_decide_eq_false in Hdd. apply Hdd.
    destruct s as [|c [|c2 [|c3 s]]]; try discriminate.
    simpl in E. injection E as E1 E2.
    now rewrite (lower_ascii_dot c E1), (lower_ascii_dot c2 E2). }
  now rewrite Hdot, Hdotdot.
Qed.

End PathNormalFacts.

(** ** Suffixes of strings *)

Module SuffixFacts.
Import PyStr PosixPath Os Checkout CheckoutSpec CheckoutLaws.
Import PyStrFacts PathFacts.

Lemma append_eq_append (a1 c1 a2 c2 : string) :
  a1 +:+ c1 = a2 +:+ c2 ->
  (exists p, a1 = a2 +:+ p /\ c2 = p +:+ c1) \/
  (exists p, a2 = a1 +:+ p /\ c1 = p +:+ c2).
Proof.
  revert a2. induction a1 as [|x a1 IH]; intros a2 E.
  - right. exists a2. split; [reflexivity | exact E].
  - destruct a2 as [|y a2].
    + left. exists (String x a1). split; [reflexivity | exact (eq_sym E)].
    + rewrite !append_cons in E. injection E as -> E.
      destruct (IH a2 E) as [(p & -> & ->) | (p & -> & ->)];
        [left | right]; exists p; now rewrite append_cons.
Qed.

Lemma drop_chars_append (p c : string) :
  drop_chars (String.length p) (p +:+ c) = c.
Proof. induction p as [|x p IH]; [reflexivity | exact IH]. Qed.

(** Of two strings with a common end, the shorter tail is the end of the
    longer one. *)
Lemma append_eq_tail (a1 c1 a2 c2 : string) :
  a1 +:+ c1 = a2 +:+ c2 ->
  String.length c1 <= String.length c2 ->
  drop_chars (String.length c2 - String.length c1) c2 = c1.
Proof.
  intros E Hl.
  destruct (append_eq_append _ _ _ _ E) as [(p & _ & ->) | (p & _ & ->)].
  - rewrite length_append.
    replace (String.length p + String.length c1 - String.length c1)
      with (String.length p) by lia.
    apply drop_chars_append.
  - rewrite length_append in Hl.
    assert (Hp : String.length p = 0) by lia.
    destruct p; [|discriminate].
    change (EmptyString +:+ c2) with c2. now rewrite Nat.sub_diag.
Qed.

Lemma append_cancel_r (a1 a2 c : string) : a1 +:+ c = a2 +:+ c -> a1 = a2.
Proof.
  intros E.
  destruct (append_eq_append _ _ _ _ E) as [(p & -> & Hc) | (p & -> & Hc)];
    apply (f_equal String.length) in Hc; rewrite length_append in Hc;
    (destruct p; [now rewrite append_nil_r | simpl in Hc; lia]).
Qed.

End SuffixFacts.

(** ** Names and places of the exported files *)

Section FileNames.
Import PyStr PosixPath Os Checkout CheckoutSpec CheckoutLaws.
Import PyStrFacts PathFacts ExporterFacts PathNormalFacts SuffixFacts.

Lemma package_destdir_components (base : string) (package_name_hier : list string) :
  package_name_hier <> [] ->
  Forall (fun s => is_component s = true) package_name_hier ->
  package_destdir base package_name_hier =
    join base (join_sep (map lower package_name_hier)).
Proof.
  intros Hne Hall.
  destruct package_name_hier as [|segment [|second others]]; [congruence| |].
  - reflexivity.
  - unfold package_destdir. f_equal.
    inversion Hall as [|? ? Hseg Hrest]; subst.
    apply component_inv in Hseg as (He & Hs & _ & _).
    rewrite join_all_components;
      [|assumption|now apply endswith_sep_has_sep|assumption].
    rewrite <- lower_join_sep. now rewrite (join_sep_cons segment).
Qed.

Lemma lower_filename_split (object_name typsfx fileext : string) :
  lower (object_name +:+ typsfx +:+ "." +:+ fileext) =
    lower object_name +:+ lower (typsfx +:+ "." +:+ fileext).
Proof. now rewrite lower_app. Qed.

(** X9: in a package checkout the file of an object lies in the root
    directory under the starting folder, the lower-cased package path and
    its own lower-cased name: for an absolute root, a starting folder and
    package path segments that are plain components, and an object name
    without slash, the visit's directory is
    [<root>/<starting_folder>/<segments in lower case>] and
    [build_filename] puts [<name><suffix>.<ext>] in lower case right into
    it. *)
Theorem package_file_layout (cwd_ root starting_folder : string)
    (package_name_hier : list string) (object_name typsfx fileext : string) :
  isabs root = true ->
  is_component starting_folder = true ->
  package_name_hier <> [] ->
  Forall (fun s => is_component s = true) package_name_hier ->
  has_sep object_name = false -> has_sep typsfx = false ->
  has_sep fileext = false -> 2 < String.length fileext ->
  let source_code_dir := join root starting_folder in
  let destdir :=
    package_destdir (abspath cwd_ source_code_dir) package_name_hier in
  canon cwd_ destdir =
    canon cwd_ root ++ [starting_folder] ++ map lower package_name_hier
  /\ canon cwd_ (build_filename object_name typsfx fileext (Some destdir)) =
       canon cwd_ root ++ [starting_folder] ++ map lower package_name_hier
         ++ [lower object_name +:+ lower typsfx +:+ "." +:+ lower fileext].
Proof.
  intros Hroot Hsf Hne Hall Hn Ht He Hl. cbv zeta.
  pose proof (component_inv _ Hsf) as (Hsfe & Hsfs & _ & _).
  assert (Hscd : isabs (join root starting_folder) = true).
  { unfold isabs in *. rewrite join_relative by now apply startswith_sep_has_sep.
    assert (is_empty root = false) by now destruct root.
    destruct (is_empty root || endswith_sep root);
      now rewrite startswith_sep_app. }
  assert (Hbase : isabs (abspath cwd_ (join root starting_folder)) = true).
  { unfold abspath, absolute. rewrite Hscd. now apply normpath_isabs. }
  assert (Hlower : Forall (fun s => is_component s = true)
                     (map lower package_name_hier)).
  { apply Forall_map. eapply Forall_impl; [exact Hall|].
    intros s. apply is_component_lower. }
  assert (Hdest :
    canon cwd_ (package_destdir (abspath cwd_ (join root starting_folder))
                  package_name_hier) =
      canon cwd_ root ++ [starting_folder] ++ map lower package_name_hier).
  { rewrite package_destdir_components by assumption.
    unfold canon at 1. rewrite absolute_join by now apply join_sep_relative.
    rewrite norm_comps_join_components;
      [|now destruct package_name_hier|assumption].
    fold (canon cwd_ (abspath cwd_ (join root starting_folder))).
    rewrite (canon_isabs _ _ Hbase). unfold abspath, absolute. rewrite Hscd.
    rewrite norm_comps_normpath by assumption.
    rewrite norm_comps_join by assumption.
    rewrite (canon_isabs cwd_ root Hroot). now rewrite <- app_assoc. }
  split; [exact Hdest|].
  pose proof (build_filename_dest (R := unit) object_name typsfx fileext
                (Some (package_destdir (abspath cwd_ (join root starting_folder))
                         package_name_hier))
                (World ∅ cwd_ [] tt) Hn Ht He Hl) as Hfile.
  unfold dest_file, dest_dir in Hfile. cbn [cwd] in Hfile.
  rewrite Hfile, Hdest. now rewrite <- !app_assoc.
Qed.

(** X10: two files the exporters name coincide only when they are of the
    same kind and the object names agree up to case: for suffixes and
    extensions the exporters use, [build_filename] without destination
    gives the same name exactly when the suffix and extension are the
    same and the lower-cased object names are. *)
Theorem build_filename_collision (name1 name2 : string)
    (kind1 kind2 : string * string) :
  kind1 ∈ file_kinds -> kind2 ∈ file_kinds ->
  build_filename name1 (fst kind1) (snd kind1) None =
    build_filename name2 (fst kind2) (snd kind2) None
  <-> kind1 = kind2 /\ lower name1 = lower name2.
Proof.
  intros H1 H2. unfold build_filename. rewrite !lower_filename_split.
  split; [|intros [-> ->]; reflexivity].
  unfold file_kinds in H1, H2.
  rewrite !elem_of_cons, elem_of_nil in H1, H2.
  repeat (destruct H1 as [H1|H1]); try contradiction; subst kind1;
    repeat (destruct H2 as [H2|H2]); try contradiction; subst kind2;
    cbn [fst snd]; intros E;
    first
      [ split; [reflexivity | exact (append_cancel_r _ _ _ E)]
      | exfalso;
        first
          [ pose proof (append_eq_tail _ _ _ _ E ltac:(vm_compute; lia)) as Hd
          | pose proof (append_eq_tail _ _ _ _ (eq_sym E)
                          ltac:(vm_compute; lia)) as Hd ];
        vm_compute in Hd; discriminate ].
Qed.

End FileNames.

(** ** Exports that succeed, and exports that fail *)

Module ProgressFacts.
Import PyStr PosixPath Os Checkout Frame CheckoutSpec CheckoutLaws.
Import PyStrFacts PathFacts OsFacts FsFacts CheckoutFacts ExporterFacts.
Local Open Scope py_scope.

Section WithPlatform.
Context {R : Type} {platform : Platform}.

Lemma join_relative_nonempty (d f : string) :
  is_empty f = false -> startswith_sep f = false ->
  is_empty (join d f) = false /\ endswith_sep (join d f) = endswith_sep f.
Proof.
  intros He Hs. rewrite join_relative by assumption.
  destruct (is_empty d || endswith_sep d).
  - rewrite is_empty_app, He, andb_false_r. split; [reflexivity|].
    now apply endswith_sep_app.
  - rewrite is_empty_app.
    replace (is_empty ("/" +:+ f)) with false by reflexivity.
    rewrite andb_false_r. split; [reflexivity|].
    rewrite endswith_sep_app by reflexivity.
    now apply (endswith_sep_app "/").
Qed.

Lemma build_filename_openable (object_name typsfx fileext : string)
    (destdir : option string) :
  has_sep object_name = false -> has_sep typsfx = false ->
  has_sep fileext = false -> 2 < String.length fileext ->
  is_empty (build_filename object_name typsfx fileext destdir) = false /\
  endswith_sep (build_filename object_name typsfx fileext destdir) = false.
Proof.
  intros Hn Ht He Hl. unfold build_filename.
  set (f := lower (object_name +:+ typsfx +:+ "." +:+ fileext)).
  assert (Hs : has_sep f = false).
  { unfold f. now rewrite has_sep_lower, !has_sep_app, Hn, Ht, He. }
  assert (Hne : is_empty f = false).
  { unfold f. destruct object_name; [|reflexivity].
    rewrite append_nil_l. destruct typsfx; reflexivity. }
  pose proof (endswith_sep_has_sep f Hs) as Hend.
  destruct destdir as [d|]; [|now split].
  destruct (join_relative_nonempty d f Hne (startswith_sep_has_sep f Hs))
    as [H1 H2].
  split; [exact H1 | now rewrite H2].
Qed.

(** With the directory there and no directory in its way, the file of a
    name without slash is opened. *)
Lemma open_w_dest_file (object_name typsfx fileext : string)
    (destdir : option string) (w : world R) :
  has_sep object_name = false -> has_sep typsfx = false ->
  has_sep fileext = false -> 2 < String.length fileext ->
  let file := dest_file w destdir
                (lower object_name +:+ lower typsfx +:+ "." +:+ lower fileext) in
  node_is_dir (lookup_node (fs w) (dest_dir w destdir)) = true ->
  node_is_dir (fs w !! file) = false ->
  open_w (build_filename object_name typsfx fileext destdir) w =
    (Ok file, set_fs (<[file := File EmptyString]> (fs w)) w).
Proof.
  intros Hn Ht He Hl. cbv zeta. intros Hdir Hfile.
  rewrite <- (build_filename_dest object_name typsfx fileext destdir w)
    in * by assumption.
  destruct (build_filename_openable object_name typsfx fileext destdir)
    as [H1 H2]; try assumption.
  apply open_w_succeeds; try assumption.
  - rewrite (build_filename_dest object_name typsfx fileext destdir w)
      by assumption.
    unfold dest_file. now rewrite removelast_last.
  - rewrite (build_filename_dest object_name typsfx fileext destdir w)
      in * by assumption.
    unfold dest_file in *. now rewrite lookup_node_snoc.
Qed.

Lemma download_abap_source_succeeds (object_name typsfx : string)
    (connection : Connection R) (kind : source_kind) (n : string)
    (destdir : option string) (w : world R) (text : string) (s : R) :
  has_sep object_name = false -> has_sep typsfx = false ->
  let file := dest_file w destdir
                (lower object_name +:+ lower typsfx +:+ ".abap") in
  node_is_dir (lookup_node (fs w) (dest_dir w destdir)) = true ->
  node_is_dir (fs w !! file) = false ->
  adt_text connection kind n (remote w) = (Ok text, s) ->
  download_abap_source object_name (adt_source connection kind n)
    typsfx destdir w =
    (Ok tt, World (<[file := File text]> (fs w)) (cwd w) (stderr w) s).
Proof.
  intros Hn Ht. cbv zeta. intros Hdir Hfile Htext.
  unfold download_abap_source, bind.
  rewrite (open_w_dest_file object_name typsfx "abap" destdir w Hn Ht)
    by (reflexivity || (simpl; lia) || assumption).
  unfold adt_source, request, set_fs. cbn [fs cwd stderr remote].
  rewrite Htext.
  unfold file_write, set_remote, set_fs. cbn [fs cwd stderr remote].
  rewrite lookup_insert_eq. now rewrite insert_insert_eq.
Qed.

(** A file written into a directory leaves the directory a directory, and
    leaves what was no directory no directory. *)
Lemma dir_after_file (w : world R) (destdir : option string)
    (file_name text : string) (lines : list string) (s : R) :
  node_is_dir (lookup_node (fs w) (dest_dir w destdir)) = true ->
  node_is_dir
    (lookup_node
       (fs (World (<[dest_file w destdir file_name := File text]> (fs w))
              (cwd w) lines s))
       (dest_dir w destdir)) = true.
Proof.
  intros H. cbn [fs]. unfold dest_file.
  destruct (dest_dir w destdir) as [|c k] eqn:E; [reflexivity|].
  unfold lookup_node in *. rewrite lookup_insert_ne; [exact H|].
  intros Heq. apply (f_equal length) in Heq.
  rewrite length_app in Heq. simpl in Heq. lia.
Qed.

Lemma no_dir_after_file (tree : gmap (list string) node)
    (k k' : list string) (text : string) :
  node_is_dir (tree !! k') = false ->
  node_is_dir (<[k := File text]> tree !! k') = false.
Proof.
  intros H. destruct (decide (k = k')) as [->|Hne].
  - now rewrite lookup_insert_eq.
  - now rewrite lookup_insert_ne.
Qed.

(** The file tree after the four sources of a class are written. *)
Lemma class_sources_then (connection : Connection R) (name : string)
    (destdir : option string) (w : world R) (clas : adt_class)
    (main definitions implementations test_classes : string)
    (s0 s1 s2 s3 s4 : R) :
  has_sep name = false ->
  node_is_dir (lookup_node (fs w) (dest_dir w destdir)) = true ->
  Forall (fun f => node_is_dir (fs w !! dest_file w destdir f) = false)
    (class_file_names (lower name)) ->
  adt_fetch_class connection name (remote w) = (Ok clas, s0) ->
  adt_text connection ClassMain name s0 = (Ok main, s1) ->
  adt_text connection ClassDefinitions name s1 = (Ok definitions, s2) ->
  adt_text connection ClassImplementations name s2 = (Ok implementations, s3) ->
  adt_text connection ClassTestClasses name s3 = (Ok test_classes, s4) ->
  let sources :=
    <[dest_file w destdir (lower name +:+ ".clas.testclasses.abap")
      := File test_classes]>
      (<[dest_file w destdir (lower name +:+ ".clas.locals_imp.abap")
         := File implementations]>
         (<[dest_file w destdir (lower name +:+ ".clas.locals_def.abap")
            := File definitions]>
            (<[dest_file w destdir (lower name +:+ ".clas.abap")
               := File main]> (fs w)))) in
  checkout_class connection name destdir w =
    (vseoclass <- returning (build_class_abap_attributes clas) ;;
     dump_attributes_to_file name vseoclass ".clas" "LCL_OBJECT_CLAS" destdir)
      (World sources (cwd w) (stderr w) s4)
  /\ node_is_dir (lookup_node sources (dest_dir w destdir)) = true
  /\ node_is_dir (sources !! dest_file w destdir (lower name +:+ ".clas.xml"))
     = false.
Proof.
  intros Hn Hdir Hfiles F0 T1 T2 T3 T4. cbv zeta.
  unfold class_file_names in Hfiles.
  rewrite !Forall_cons in Hfiles.
  destruct Hfiles as (H1 & H2 & H3 & H4 & H5 & _).
  split; [|split].
  - unfold checkout_class. unfold bind at 1. unfold request. rewrite F0.
    set (w0 := set_remote s0 w).
    unfold bind at 1.
    rewrite (download_abap_source_succeeds name ".clas" connection ClassMain
               name destdir w0 main s1 Hn eq_refl Hdir H1 T1).
    set (w1 := World _ (cwd w0) (stderr w0) s1).
    unfold bind at 1.
    rewrite (download_abap_source_succeeds name ".clas.locals_def" connection
               ClassDefinitions name destdir w1 definitions s2 Hn eq_refl
               (dir_after_file w0 destdir _ main _ s1 Hdir)
               (no_dir_after_file _ _ _ _ H2) T2).
    set (w2 := World _ (cwd w1) (stderr w1) s2).
    unfold bind at 1.
    rewrite (download_abap_source_succeeds name ".clas.locals_imp" connection
               ClassImplementations name destdir w2 implementations s3 Hn
               eq_refl
               (dir_after_file w1 destdir _ definitions _ s2
                  (dir_after_file w0 destdir _ main _ s1 Hdir))
               (no_dir_after_file _ _ _ _ (no_dir_after_file _ _ _ _ H3)) T3).
    set (w3 := World _ (cwd w2) (stderr w2) s3).
    unfold bind at 1.
    rewrite (download_abap_source_succeeds name ".clas.testclasses" connection
               ClassTestClasses name destdir w3 test_classes s4 Hn eq_refl
               (dir_after_file w2 destdir _ implementations _ s3
                  (dir_after_file w1 destdir _ definitions _ s2
                     (dir_after_file w0 destdir _ main _ s1 Hdir)))
               (no_dir_after_file _ _ _ _
                  (no_dir_after_file _ _ _ _ (no_dir_after_file _ _ _ _ H4)))
               T4).
    reflexivity.
  - exact (dir_after_file _ destdir _ test_classes (stderr w) s4
             (dir_after_file _ destdir _ implementations (stderr w) s3
                (dir_after_file _ destdir _ definitions (stderr w) s2
                   (dir_after_file w destdir _ main (stderr w) s1 Hdir)))).
  - now repeat apply no_dir_after_file.
Qed.

End WithPlatform.
End ProgressFacts.

Section ExporterProperties.
Import PyStr PosixPath Os Checkout Frame CheckoutSpec CheckoutLaws.
Import PyStrFacts PathFacts OsFacts FsFacts CheckoutFacts ExporterFacts.
Import ProgressFacts.
Local Open Scope py_scope.
Context {R : Type} {platform : Platform}.

(** X1: [download_abap_source] opens its file before it reads the text.
    When the file cannot be opened, the error of [open] is raised, the
    connection is not asked and nothing has changed; when the file is
    opened and reading the text raises, that error is raised and the file
    is left empty, whatever it held before. *)
Theorem download_abap_source_failures (object_name typsfx : string)
    (connection : Connection R) (kind : source_kind) (n : string)
    (destdir : option string) (w : world R) :
  let filename := build_filename object_name typsfx "abap" destdir in
  let run := download_abap_source object_name (adt_source connection kind n)
               typsfx destdir w in
  (forall e, fst (open_w filename w) = Raised e -> run = (Raised e, w))
  /\ (forall dest e s,
        fst (open_w filename w) = Ok dest ->
        adt_text connection kind n (remote w) = (Raised e, s) ->
        run = (Raised e,
               World (<[canon (cwd w) filename := File EmptyString]> (fs w))
                 (cwd w) (stderr w) s)).
Proof.
  cbv zeta. unfold download_abap_source, bind.
  destruct (open_w_cases (build_filename object_name typsfx "abap" destdir) w)
    as [[e1 H1] | (H1 & _ & _)]; rewrite H1; split.
  - intros e He. simpl in He. now inversion He.
  - intros dest e s He. discriminate.
  - intros e He. discriminate.
  - intros dest e s _ Ht. unfold adt_source, request. simpl.
    now rewrite Ht.
Qed.

(** X2: a program or interface whose name has no slash is exported
    whenever the destination directory exists, no directory stands where
    the file goes, and the connection gives the source: the checkout
    returns, and the one file [n.prog.abap] (or [n.intf.abap]) of the
    destination directory holds the text. *)
Theorem source_checkout_succeeds (connection : Connection R) (name : string)
    (destdir : option string) (w : world R) (text : string) (s : R) :
  has_sep name = false ->
  node_is_dir (lookup_node (fs w) (dest_dir w destdir)) = true ->
  (node_is_dir (fs w !! dest_file w destdir (lower name +:+ ".prog.abap")) = false ->
   adt_text connection ProgramSource name (remote w) = (Ok text, s) ->
   checkout_program connection name destdir w =
     (Ok tt,
      World (<[dest_file w destdir (lower name +:+ ".prog.abap") := File text]>
               (fs w)) (cwd w) (stderr w) s))
  /\ (node_is_dir (fs w !! dest_file w destdir (lower name +:+ ".intf.abap")) = false ->
      adt_text connection InterfaceSource name (remote w) = (Ok text, s) ->
      checkout_interface connection name destdir w =
        (Ok tt,
         World (<[dest_file w destdir (lower name +:+ ".intf.abap") := File text]>
                  (fs w)) (cwd w) (stderr w) s)).
Proof.
  intros Hn Hdir. split; intros Hfile Ht.
  - exact (download_abap_source_succeeds name ".prog" connection ProgramSource
             name destdir w text s Hn eq_refl Hdir Hfile Ht).
  - exact (download_abap_source_succeeds name ".intf" connection
             InterfaceSource name destdir w text s Hn eq_refl Hdir Hfile Ht).
Qed.

(** X3: a class whose name has no slash is exported whenever the
    destination directory exists, no directory stands where one of its
    five files goes, the connection gives the class and its four sources,
    and the language lookup knows its language: the checkout returns, and
    the five files hold the sources and the serialized attributes. *)
Theorem checkout_class_succeeds (connection : Connection R) (name : string)
    (destdir : option string) (w : world R) (clas : adt_class) (v : VSEOCLASS)
    (main definitions implementations test_classes : string)
    (s0 s1 s2 s3 s4 : R) :
  has_sep name = false ->
  node_is_dir (lookup_node (fs w) (dest_dir w destdir)) = true ->
  Forall (fun f => node_is_dir (fs w !! dest_file w destdir f) = false)
    (class_file_names (lower name)) ->
  adt_fetch_class connection name (remote w) = (Ok clas, s0) ->
  adt_text connection ClassMain name s0 = (Ok main, s1) ->
  adt_text connection ClassDefinitions name s1 = (Ok definitions, s2) ->
  adt_text connection ClassImplementations name s2 = (Ok implementations, s3) ->
  adt_text connection ClassTestClasses name s3 = (Ok test_classes, s4) ->
  build_class_abap_attributes clas = Ok v ->
  exists w',
    checkout_class connection name destdir w = (Ok tt, w') /\
    class_files_written w w' destdir (lower name)
      main definitions implementations test_classes
      (XMLWriter "LCL_OBJECT_CLAS" v) /\
    cwd w' = cwd w /\ stderr w' = stderr w /\ remote w' = s4.
Proof.
  intros Hn Hdir Hfiles F0 T1 T2 T3 T4 Hv.
  destruct (class_sources_then connection name destdir w clas main definitions
              implementations test_classes s0 s1 s2 s3 s4
              Hn Hdir Hfiles F0 T1 T2 T3 T4) as (Hrun & Hdir4 & Hxml).
  cbv zeta in *. rewrite Hrun, Hv.
  set (w4 := World _ (cwd w) (stderr w) s4) in *.
  pose proof (open_w_dest_file name ".clas" "xml" destdir w4 Hn eq_refl eq_refl
                ltac:(simpl; lia) Hdir4 Hxml) as Hopen.
  change (open_w (build_filename name ".clas" "xml" destdir) w4 =
            (Ok (dest_file w destdir (lower name +:+ ".clas.xml")),
             set_fs (<[dest_file w destdir (lower name +:+ ".clas.xml")
                       := File EmptyString]> (fs w4)) w4)) in Hopen.
  unfold bind, returning, dump_attributes_to_file, bind. rewrite Hopen.
  unfold file_write, set_fs. cbn [fs cwd stderr remote].
  rewrite lookup_insert_eq, insert_insert_eq.
  eexists. split; [reflexivity|]. repeat split.
Qed.

(** X4: when the language lookup does not know the language of the
    class, [checkout_class] raises the error of the lookup after the four
    sources are written: the four [.abap] files are there and the [.xml]
    file is as it was. *)
Theorem checkout_class_language_failure (connection : Connection R)
    (name : string) (destdir : option string) (w : world R) (clas : adt_class)
    (e : exn) (main definitions implementations test_classes : string)
    (s0 s1 s2 s3 s4 : R) :
  has_sep name = false ->
  node_is_dir (lookup_node (fs w) (dest_dir w destdir)) = true ->
  Forall (fun f => node_is_dir (fs w !! dest_file w destdir f) = false)
    (class_file_names (lower name)) ->
  adt_fetch_class connection name (remote w) = (Ok clas, s0) ->
  adt_text connection ClassMain name s0 = (Ok main, s1) ->
  adt_text connection ClassDefinitions name s1 = (Ok definitions, s2) ->
  adt_text connection ClassImplementations name s2 = (Ok implementations, s3) ->
  adt_text connection ClassTestClasses name s3 = (Ok test_classes, s4) ->
  iso_code_to_sap_code (clas_master_language clas) = Raised e ->
  exists w',
    checkout_class connection name destdir w = (Raised e, w') /\
    fs w' !! dest_file w destdir (lower name +:+ ".clas.abap")
      = Some (File main) /\
    fs w' !! dest_file w destdir (lower name +:+ ".clas.locals_def.abap")
      = Some (File definitions) /\
    fs w' !! dest_file w destdir (lower name +:+ ".clas.locals_imp.abap")
      = Some (File implementations) /\
    fs w' !! dest_file w destdir (lower name +:+ ".clas.testclasses.abap")
      = Some (File test_classes) /\
    fs w' !! dest_file w destdir (lower name +:+ ".clas.xml")
      = fs w !! dest_file w destdir (lower name +:+ ".clas.xml").
Proof.
  intros Hn Hdir Hfiles F0 T1 T2 T3 T4 He.
  destruct (class_sources_then connection name destdir w clas main definitions
              implementations test_classes s0 s1 s2 s3 s4
              Hn Hdir Hfiles F0 T1 T2 T3 T4) as (Hrun & _ & _).
  cbv zeta in *. rewrite Hrun.
  unfold bind, returning, build_class_abap_attributes. rewrite He.
  eexists. split; [reflexivity|]. cbn [fs].
  assert (Hne : forall a b : string, a <> b ->
            dest_file w destdir (lower name +:+ a)
              <> dest_file w destdir (lower name +:+ b)).
  { intros a b Hab Heq. unfold dest_file in Heq.
    apply app_inv_head in Heq. injection Heq as Heq.
    now apply (inj (String.append (lower name))) in Heq. }
  repeat split;
    repeat (first [ apply lookup_insert_eq
                  | rewrite lookup_insert_ne by (apply Hne; discriminate) ]);
    reflexivity.
Qed.

End ExporterProperties.

(** ** What every run of the checkout keeps *)

Module InvariantFacts.
Import PyStr PosixPath Os Checkout Frame CheckoutSpec CheckoutLaws.
Import PyStrFacts PathFacts OsFacts FsFacts CheckoutFacts ExporterFacts.
Local Open Scope py_scope.

Section WithPlatform.
Context {R : Type} {platform : Platform}.

(** *** Relations closed under the steps of the checkout

    The checkout changes the world in four ways only: it writes a file
    where no directory stands, it adds directories, it prints to the
    error stream and it talks to the connection.  A preorder that every
    such step respects is kept by every function of the module. *)

Section StepClosed.
Variable rel : world R -> world R -> Prop.
Hypothesis rel_refl : Reflexive rel.
Hypothesis rel_trans : Transitive rel.
Hypothesis rel_file : forall (w : world R) k text,
  fs w !! k <> Some Dir -> rel w (set_fs (<[k := File text]> (fs w)) w).
Hypothesis rel_dirs : forall w w' : world R, only_dirs_added w w' -> rel w w'.
Hypothesis rel_stderr : forall (w : world R) lines, rel w (set_stderr lines w).
Hypothesis rel_remote : forall (w : world R) s, rel w (set_remote s w).

Lemma closed_ret {A : Type} (a : A) : stable rel (@ret R A a).
Proof. intros w. apply rel_refl. Qed.

Lemma closed_returning {A : Type} (r : result A) : stable rel (@returning R A r).
Proof. intros w. apply rel_refl. Qed.

Lemma closed_open_w (path : string) : stable rel (@open_w R path).
Proof.
  intros w. destruct (open_w_world path w) as [-> | (Hk & ->)];
    [apply rel_refl | now apply rel_file].
Qed.

Lemma closed_file_write (dest : list string) (text : string) :
  stable rel (@file_write R dest text).
Proof.
  intros w. destruct (file_write_world dest text w) as [-> | (old & Hk & ->)];
    [apply rel_refl|].
  apply rel_file. congruence.
Qed.

Lemma closed_makedirs (path : option string) : stable rel (@os_makedirs R path).
Proof. intros w. apply rel_dirs, os_makedirs_only_dirs. Qed.

Lemma closed_ensure_directory (destdir : option string) :
  stable rel (@ensure_directory R destdir).
Proof. intros w. apply rel_dirs, ensure_directory_only_dirs. Qed.

Lemma closed_print (line : string) : stable rel (@print_stderr R line).
Proof. intros w. apply rel_stderr. Qed.

Lemma closed_request {A : Type} (f : R -> result A * R) : stable rel (request f).
Proof.
  intros w. unfold request. destruct (f (remote w)) as [r s]. apply rel_remote.
Qed.

Lemma closed_download (object_name typsfx : string) (connection : Connection R)
    (kind : source_kind) (n : string) (destdir : option string) :
  stable rel
    (download_abap_source object_name (adt_source connection kind n)
       typsfx destdir).
Proof.
  unfold download_abap_source.
  apply (stable_bind rel); [assumption | apply closed_open_w|].
  intros dest. apply (stable_bind rel); [assumption | apply closed_request|].
  intros text. apply closed_file_write.
Qed.

Lemma closed_dump (object_name : string) (v : VSEOCLASS)
    (typsfx ag_serializer : string) (destdir : option string) :
  stable rel
    (@dump_attributes_to_file R _ object_name v typsfx ag_serializer destdir).
Proof.
  unfold dump_attributes_to_file.
  apply (stable_bind rel); [assumption | apply closed_open_w|].
  intros dest. apply closed_file_write.
Qed.

Lemma closed_checkout_class (connection : Connection R) (n : string)
    (destdir : option string) :
  stable rel (checkout_class connection n destdir).
Proof.
  unfold checkout_class.
  apply (stable_bind rel); [assumption | apply closed_request|]. intros clas.
  repeat (apply (stable_bind rel); [assumption | apply closed_download|]; intros _).
  apply (stable_bind rel); [assumption | apply closed_returning|].
  intros v. apply closed_dump.
Qed.

Lemma closed_exporter (obj : adt_object) (connection : Connection R)
    (n : string) (destdir : option string) :
  stable rel (exporter_of obj connection n destdir).
Proof.
  unfold exporter_of.
  destruct (bool_decide _); [apply closed_download|].
  destruct (bool_decide _); [apply closed_checkout_class | apply closed_download].
Qed.

Lemma closed_checkout_object (connection : Connection R)
    (destdir : option string) (obj : adt_object) :
  stable rel (checkout_object connection destdir obj).
Proof.
  intros w. destruct (supported obj) eqn:Hs.
  - rewrite checkout_object_supported by assumption.
    apply (stable_try rel); [assumption | apply closed_exporter | apply closed_print].
  - rewrite checkout_object_unsupported by assumption. apply rel_stderr.
Qed.

Lemma closed_checkout_objects (connection : Connection R)
    (objects : list adt_object) (destdir : option string) :
  stable rel (checkout_objects connection objects destdir).
Proof.
  intros w. rewrite checkout_objects_unfold. revert w.
  apply (stable_bind rel); [assumption | apply closed_ensure_directory|].
  intros _. apply stable_for_each; [assumption..|].
  intros obj. apply closed_checkout_object.
Qed.

Lemma make_repo_dir_for_package_unfold (args : package_args) (w : world R) :
  let root := abspath (cwd w) (requested_repo_dir args) in
  make_repo_dir_for_package args w =
    bind (ensure_directory (Some root))
      (fun _ => dest <- open_w (join root ".abapgit.xml") ;;
                file_write dest
                  (to_xml (for_new_repo ("/" +:+ args_starting_folder args +:+ "/"))
                     "DATA") ;;;
                ret root) w.
Proof.
  cbv zeta. unfold make_repo_dir_for_package. fold (requested_repo_dir args).
  unfold bind at 1. unfold os_path_abspath at 1.
  now rewrite <- (bind_assoc (os_path_isdir (Some _))).
Qed.

Lemma closed_make_repo_dir (args : package_args) :
  stable rel (make_repo_dir_for_package args).
Proof.
  intros w. rewrite make_repo_dir_for_package_unfold. revert w. cbv zeta.
  intros w. generalize (abspath (cwd w) (requested_repo_dir args)). intros root.
  revert w.
  apply (stable_bind rel); [assumption | apply closed_ensure_directory|].
  intros _. apply (stable_bind rel); [assumption | apply closed_open_w|].
  intros dest. apply (stable_bind rel); [assumption | apply closed_file_write|].
  intros _. apply closed_ret.
Qed.

Lemma closed_package_loop (connection : Connection R) (recursive : bool)
    (source_code_dir : string) (walk : package_walk) :
  stable rel (package_loop connection recursive source_code_dir walk).
Proof.
  induction walk as [|package_name_hier subpackages objects rest IH|e];
    intros w; cbn [package_loop]; [apply rel_refl| |apply rel_refl].
  unfold bind at 1. unfold os_path_abspath at 1.
  generalize (package_destdir (abspath (cwd w) source_code_dir) package_name_hier).
  intros destdir. revert w.
  apply (stable_bind rel); [assumption | apply closed_checkout_objects|].
  intros _. destruct recursive; cbn [negb]; [exact IH | apply closed_ret].
Qed.

Lemma closed_package (connection : Connection R) (args : package_args) :
  stable rel (package connection args).
Proof.
  unfold package.
  apply (stable_bind rel); [assumption | apply closed_make_repo_dir|].
  intros repo_dir w. unfold bind. apply closed_package_loop.
Qed.

End StepClosed.

(** *** Nothing is deleted *)

Lemma kinds_kept_refl : Reflexive (@kinds_kept R).
Proof. intros w. split; [reflexivity|]. intros k n H. exists n. now split. Qed.

Lemma kinds_kept_trans : Transitive (@kinds_kept R).
Proof.
  intros w1 w2 w3 [Hc1 H1] [Hc2 H2]. split; [congruence|].
  intros k n Hk. destruct (H1 k n Hk) as (n1 & Hk1 & Hn1).
  destruct (H2 k n1 Hk1) as (n2 & Hk2 & Hn2). exists n2.
  split; [assumption | now rewrite Hn1].
Qed.

Lemma kinds_kept_file (w : world R) (k : list string) (text : string) :
  fs w !! k <> Some Dir -> kinds_kept w (set_fs (<[k := File text]> (fs w)) w).
Proof.
  intros Hk. split; [reflexivity|]. intros k0 n H0. simpl.
  destruct (decide (k0 = k)) as [->|Hne].
  - rewrite lookup_insert_eq. exists (File text). split; [reflexivity|].
    split; [intros -> | discriminate]. contradiction.
  - rewrite lookup_insert_ne by congruence. exists n. now split.
Qed.

Lemma kinds_kept_dirs (w w' : world R) : only_dirs_added w w' -> kinds_kept w w'.
Proof.
  intros (Hc & _ & _ & Hfs). split; [assumption|]. intros k n Hk.
  destruct (Hfs k) as [H | [H _]]; [|congruence].
  exists n. split; [congruence | reflexivity].
Qed.

Lemma kinds_kept_stderr (w : world R) (lines : list string) :
  kinds_kept w (set_stderr lines w).
Proof. split; [reflexivity|]. intros k n H. exists n. now split. Qed.

Lemma kinds_kept_remote (w : world R) (s : R) : kinds_kept w (set_remote s w).
Proof. split; [reflexivity|]. intros k n H. exists n. now split. Qed.

(** *** What is printed *)

Lemma stderr_blind_keeps {A : Type} (m : M R A) (w : world R) :
  stderr_blind m -> stderr (snd (m w)) = stderr w.
Proof.
  intros Hb. pose proof (Hb w (stderr w)) as H. rewrite set_stderr_same in H.
  apply (f_equal (fun p => stderr (snd p))) in H. exact H.
Qed.

Lemma checkout_loop_reported (connection : Connection R)
    (destdir : option string) (objects : list adt_object) :
  forall w : world R,
    let run := for_each objects (checkout_object connection destdir) w in
    exists l,
      sublist l objects /\
      stderr (snd run) = stderr w ++ map diagnostic l /\
      (fst run = Ok tt ->
       sublist (List.filter (fun obj => negb (supported obj)) objects) l).
Proof.
  induction objects as [|obj objects IH]; intros w; cbv zeta.
  - exists []. simpl. rewrite app_nil_r. repeat split; constructor.
  - cbn [for_each List.filter]. unfold bind. destruct (supported obj) eqn:Hs;
      cbn [negb].
    + rewrite checkout_object_supported by assumption.
      unfold try_except_KeyError.
      pose proof (stderr_blind_keeps _ w
                    (stderr_blind_exporter obj connection (name obj) destdir))
        as Hk.
      destruct (exporter_of obj connection (name obj) destdir w)
        as [[[]|e] w1]; simpl in Hk.
      * destruct (IH w1) as (l & Hl & Herr & Hok). exists l.
        split; [now apply sublist_cons|].
        split; [now rewrite Herr, Hk | exact Hok].
      * destruct (is_KeyError e).
        -- unfold print_stderr.
           destruct (IH (set_stderr (stderr w1 ++ [diagnostic obj]) w1))
             as (l & Hl & Herr & Hok).
           exists (obj :: l). split; [now apply sublist_skip|].
           split.
           ++ rewrite Herr. simpl. now rewrite Hk, <- app_assoc.
           ++ intros H. now apply sublist_cons, Hok.
        -- exists []. simpl. rewrite app_nil_r.
           repeat split; [apply sublist_nil_l | assumption | discriminate].
    + rewrite checkout_object_unsupported by assumption.
      destruct (IH (set_stderr (stderr w ++ [diagnostic obj]) w))
        as (l & Hl & Herr & Hok).
      exists (obj :: l). split; [now apply sublist_skip|].
      split.
      * rewrite Herr. simpl. now rewrite <- app_assoc.
      * intros H. now apply sublist_skip, Hok.
Qed.

Lemma checkout_objects_reported (connection : Connection R)
    (objects : list adt_object) (destdir : option string) (w : world R) :
  let run := checkout_objects connection objects destdir w in
  exists l,
    sublist l objects /\
    stderr (snd run) = stderr w ++ map diagnostic l /\
    (fst run = Ok tt ->
     sublist (List.filter (fun obj => negb (supported obj)) objects) l).
Proof.
  cbv zeta. rewrite checkout_objects_unfold. unfold bind.
  destruct (ensure_directory_only_dirs destdir w) as (_ & He & _).
  destruct (ensure_directory destdir w) as [[[]|e] w1]; simpl in He.
  - destruct (checkout_loop_reported connection destdir objects w1)
      as (l & Hl & Herr & Hok).
    exists l. rewrite <- He. now repeat split.
  - exists []. simpl. rewrite app_nil_r.
    repeat split; [apply sublist_nil_l | assumption | discriminate].
Qed.

Lemma reported_nil (w w' : world R) (objects : list adt_object) :
  stderr w' = stderr w -> reported objects w w'.
Proof.
  intros H. exists []. split; [apply sublist_nil_l|].
  simpl. now rewrite app_nil_r.
Qed.

Lemma package_loop_reported (connection : Connection R) (recursive : bool)
    (source_code_dir : string) (walk : package_walk) :
  forall w : world R,
    reported (walk_objects walk) w
      (snd (package_loop connection recursive source_code_dir walk w)).
Proof.
  induction walk as [|package_name_hier subpackages objects rest IH|e];
    intros w; cbn [package_loop]; [now apply reported_nil| |now apply reported_nil].
  change (walk_objects (WalkYield package_name_hier subpackages objects rest))
    with (objects ++ walk_objects rest).
  unfold bind at 1. unfold os_path_abspath at 1.
  set (destdir := package_destdir _ _). unfold bind.
  destruct (checkout_objects_reported connection objects (Some destdir) w)
    as (l1 & Hl1 & Herr1 & _). cbv zeta in Herr1.
  destruct (checkout_objects connection objects (Some destdir) w)
    as [[[]|e] w1]; simpl in Herr1.
  - destruct recursive; cbn [negb].
    + destruct (IH w1) as (l2 & Hl2 & Herr2). exists (l1 ++ l2).
      split; [now apply sublist_app|].
      now rewrite Herr2, Herr1, map_app, app_assoc.
    + exists l1. split; [now apply sublist_inserts_r | exact Herr1].
  - exists l1. split; [now apply sublist_inserts_r | exact Herr1].
Qed.

Lemma quiet_refl : Reflexive (@quiet R).
Proof. intros w. now split. Qed.

Lemma quiet_trans : Transitive (@quiet R).
Proof. intros w1 w2 w3 [H1 H2] [H3 H4]. split; congruence. Qed.

Lemma make_repo_dir_quiet (args : package_args) :
  stable (@quiet R) (make_repo_dir_for_package args).
Proof.
  intros w. rewrite make_repo_dir_for_package_unfold. cbv zeta.
  generalize (abspath (cwd w) (requested_repo_dir args)). intros root.
  revert w.
  apply (stable_bind quiet); [apply quiet_trans| |].
  - intros w. destruct (ensure_directory_only_dirs (Some root) w)
      as (_ & He & Hr & _). now split.
  - intros _. apply (stable_bind quiet); [apply quiet_trans| |].
    + intros w.
      destruct (open_w_world (join root ".abapgit.xml") w) as [-> | (_ & ->)];
        now split.
    + intros dest. apply (stable_bind quiet); [apply quiet_trans| |].
      * intros w. destruct (file_write_world dest
                     (to_xml (for_new_repo
                                ("/" +:+ args_starting_folder args +:+ "/"))
                        "DATA") w) as [-> | (old & _ & ->)]; now split.
      * intros _ w. apply quiet_refl.
Qed.

Lemma package_reported (connection : Connection R) (args : package_args)
    (w : world R) :
  reported (walk_objects (adt_walk connection (args_name args) (remote w))) w
    (snd (package connection args w)).
Proof.
  unfold package. unfold bind at 1.
  destruct (make_repo_dir_quiet args w) as [He Hr].
  destruct (make_repo_dir_for_package args w) as [[repo_dir|e] w1];
    simpl in He, Hr; [|now apply reported_nil].
  unfold bind. rewrite <- Hr.
  destruct (package_loop_reported connection (args_recursive args)
              (join repo_dir (args_starting_folder args))
              (adt_walk connection (args_name args) (remote w1)) w1)
    as (l & Hl & Herr).
  exists l. split; [assumption | now rewrite <- He].
Qed.

(** *** A file in the way of a directory *)

Lemma mkdir_chain_blocked (todo done : list string)
    (tree : gmap (list string) node) (c : string) :
  todo <> [] -> tree !! (done ++ todo) = Some (File c) ->
  exists e tree',
    mkdir_chain done todo tree = (Raised e, tree') /\
    (e = FileExistsError \/ e = NotADirectoryError).
Proof.
  revert done tree. induction todo as [|x todo IH]; intros done tree Hne H;
    [contradiction|].
  cbn [mkdir_chain]. destruct todo as [|y todo].
  - rewrite H. eexists _, _. split; [reflexivity | now left].
  - replace (done ++ x :: y :: todo) with ((done ++ [x]) ++ y :: todo) in H
      by now rewrite <- app_assoc.
    destruct (tree !! (done ++ [x])) as [[|c']|] eqn:E.
    + apply IH; [discriminate | exact H].
    + eexists _, _. split; [reflexivity | now right].
    + apply IH; [discriminate|]. rewrite lookup_insert_ne; [exact H|].
      intros Heq. apply (f_equal length) in Heq.
      rewrite !length_app in Heq. simpl in Heq. lia.
Qed.

End WithPlatform.
End InvariantFacts.

Section CheckoutInvariants.
Import PyStr PosixPath Os Checkout Frame CheckoutSpec CheckoutLaws.
Import PyStrFacts PathFacts OsFacts FsFacts CheckoutFacts ExporterFacts.
Import ProgressFacts InvariantFacts.
Local Open Scope py_scope.
Context {R : Type} {platform : Platform}.

(** X5: a destination that cannot be made a directory ends
    [checkout_objects] before the first object: without destination
    ([None]) it raises [TypeError], with the empty string
    [FileNotFoundError], both in an unchanged world; and when a file
    stands at the destination it raises [FileExistsError] or
    [NotADirectoryError], having at most added directories: no request is
    made, nothing is printed and no file is written. *)
Theorem checkout_objects_bad_destination (connection : Connection R)
    (objects : list adt_object) (w : world R) :
  checkout_objects connection objects None w = (Raised TypeError, w)
  /\ checkout_objects connection objects (Some EmptyString) w
     = (Raised FileNotFoundError, w)
  /\ (forall destdir content,
        lookup_node (fs w) (canon (cwd w) destdir) = Some (File content) ->
        is_empty destdir = false ->
        exists e w',
          checkout_objects connection objects (Some destdir) w = (Raised e, w') /\
          (e = FileExistsError \/ e = NotADirectoryError) /\
          only_dirs_added w w').
Proof.
  split; [reflexivity|]. split; [reflexivity|].
  intros destdir content Hfile Hne.
  pose proof (ensure_directory_only_dirs (Some destdir) w) as Ho.
  rewrite checkout_objects_unfold. unfold bind at 1.
  assert (Hrun : exists e w', ensure_directory (Some destdir) w = (Raised e, w')
                   /\ (e = FileExistsError \/ e = NotADirectoryError)).
  { unfold ensure_directory, bind. rewrite os_path_isdir_eq.
    unfold isdir_in, os_makedirs. rewrite Hfile, Hne. cbn [node_is_dir negb andb].
    destruct (canon (cwd w) destdir) as [|c k] eqn:Ek; [discriminate|].
    destruct (mkdir_chain_blocked (c :: k) [] (fs w) content)
      as (e & tree' & Hm & He); [discriminate | exact Hfile|].
    rewrite Hfile, Hm. cbn [node_is_dir]. eauto. }
  destruct Hrun as (e & w' & Hrun & He). rewrite Hrun in Ho |- *.
  exists e, w'. repeat split; try assumption; apply Ho.
Qed.

(** X6: whatever happens, [checkout_objects] prints nothing but lines
    ['Unsupported object: <type_tag> <name>'] of objects of its list, in
    the order of the list and at most one for each; when it returns,
    every object without exporter has its line.  The same holds for
    [package] and the objects the walk of the package yields. *)
Theorem only_diagnostics_printed (connection : Connection R)
    (objects : list adt_object) (destdir : option string)
    (args : package_args) (w : world R) :
  (let run := checkout_objects connection objects destdir w in
   exists l,
     sublist l objects /\
     stderr (snd run) = stderr w ++ map diagnostic l /\
     (fst run = Ok tt ->
      sublist (List.filter (fun obj => negb (supported obj)) objects) l))
  /\ reported (walk_objects (adt_walk connection (args_name args) (remote w))) w
       (snd (package connection args w)).
Proof.
  split; [apply checkout_objects_reported | apply package_reported].
Qed.

(** X7: the checkout deletes nothing.  Whether [checkout_objects] or
    [package] returns or raises, the working directory is the same, and
    every path that named a directory names one afterwards and every path
    that named a file still names a file. *)
Theorem checkout_never_deletes (connection : Connection R)
    (objects : list adt_object) (destdir : option string)
    (args : package_args) (w : world R) :
  kinds_kept w (snd (checkout_objects connection objects destdir w))
  /\ kinds_kept w (snd (package connection args w)).
Proof.
  split.
  - apply (closed_checkout_objects kinds_kept);
      [apply kinds_kept_refl | apply kinds_kept_trans | apply kinds_kept_file
      | apply kinds_kept_dirs | apply kinds_kept_stderr | apply kinds_kept_remote].
  - apply (closed_package kinds_kept);
      [apply kinds_kept_refl | apply kinds_kept_trans | apply kinds_kept_file
      | apply kinds_kept_dirs | apply kinds_kept_stderr | apply kinds_kept_remote].
Qed.

(** X8: the first exporter that raises decides how [checkout_objects]
    goes on.  An error that is no [KeyError] ends the call with that
    error in the world the exporter left, and the objects after it are
    not looked at; a [KeyError] is answered with the line of the object
    on the error stream, and the loop goes on with the objects after
    it. *)
Theorem checkout_objects_first_error (connection : Connection R)
    (before after : list adt_object) (obj : adt_object) (destdir : string)
    (w w1 w2 w3 : world R) (e : exn) :
  ensure_directory (Some destdir) w = (Ok tt, w1) ->
  for_each before (checkout_object connection (Some destdir)) w1 = (Ok tt, w2) ->
  supported obj = true ->
  exporter_of obj connection (name obj) (Some destdir) w2 = (Raised e, w3) ->
  checkout_objects connection (before ++ obj :: after) (Some destdir) w =
    if is_KeyError e
    then for_each after (checkout_object connection (Some destdir))
           (set_stderr (stderr w3 ++ [diagnostic obj]) w3)
    else (Raised e, w3).
Proof.
  intros Hdir Hbefore Hs He.
  rewrite checkout_objects_unfold. unfold bind at 1. rewrite Hdir.
  rewrite for_each_app. unfold bind at 1. rewrite Hbefore.
  cbn [for_each]. unfold bind at 1.
  destruct (is_KeyError e) eqn:Hk.
  - now rewrite (checkout_object_swallows _ _ _ _ _ _ Hs He Hk).
  - now rewrite (checkout_object_propagates _ _ _ _ _ _ Hs He Hk).
Qed.

(** X11: [make_repo_dir_for_package] can be run again: after a run that
    returned, a second run with the same arguments returns the same
    directory and changes nothing. *)
Theorem make_repo_dir_for_package_again (args : package_args)
    (w w' : world R) (repo_dir : string) :
  make_repo_dir_for_package args w = (Ok repo_dir, w') ->
  make_repo_dir_for_package args w' = (Ok repo_dir, w').
Proof.
  intros E. rewrite make_repo_dir_for_package_unfold in E. cbv zeta in E.
  set (root := abspath (cwd w) (requested_repo_dir args)) in *.
  set (xml := to_xml _ "DATA") in *.
  apply bind_ok in E as ([] & w1 & E1 & E).
  apply ensure_directory_run in E1 as (Hd1 & (Hcwd & _) & _).
  apply bind_ok in E as (dest & w2 & E2 & E).
  apply open_w_ok in E2 as (-> & -> & Hnodir).
  unfold bind, file_write, ret in E. simpl in E.
  rewrite lookup_insert_eq in E. simpl in E.
  rewrite insert_insert_eq in E.
  set (k := canon (cwd w1) (join root ".abapgit.xml")) in *.
  set (wf := World (<[k := File xml]> (fs w1)) (cwd w1) (stderr w1) (remote w1)).
  assert (Hr : repo_dir = root) by now inversion E.
  assert (Hw : w' = wf) by now inversion E.
  subst repo_dir w'. clear E.
  assert (Hdf : isdir_in wf root = true).
  { apply (dirs_kept_isdir_in w1); [|exact Hd1].
    exact (dirs_kept_insert_file w1 _ xml (stderr w1) (remote w1) Hnodir). }
  rewrite make_repo_dir_for_package_unfold. cbv zeta.
  replace (abspath (cwd wf) (requested_repo_dir args)) with root
    by (unfold root; cbn [cwd wf]; now rewrite Hcwd).
  fold xml. unfold bind at 1. rewrite (ensure_directory_existing root wf Hdf).
  assert (Hk : k = canon (cwd w1) root ++ [".abapgit.xml"])
    by (apply canon_join; reflexivity).
  destruct (join_relative_nonempty root ".abapgit.xml" eq_refl eq_refl)
    as [Hne Hend].
  assert (Hopen : open_w (join root ".abapgit.xml") wf =
            (Ok k, set_fs (<[k := File EmptyString]> (fs wf)) wf)).
  { apply (open_w_succeeds (join root ".abapgit.xml") wf Hne Hend).
    - change (canon (cwd wf) (join root ".abapgit.xml")) with k.
      rewrite Hk, removelast_last.
      unfold isdir_in in Hdf. apply andb_true_iff in Hdf. apply Hdf.
    - change (canon (cwd wf) (join root ".abapgit.xml")) with k.
      rewrite Hk at 1. rewrite lookup_node_snoc, <- Hk. cbn [fs wf].
      now rewrite lookup_insert_eq. }
  unfold bind. rewrite Hopen. unfold file_write, ret, set_fs.
  cbn [fs cwd stderr remote wf].
  rewrite lookup_insert_eq. cbn [fs cwd stderr remote].
  now rewrite !insert_insert_eq.
Qed.

End CheckoutInvariants.

(** ** The mock connection *)

Module MockFacts.
Import Os Mock.

Lemma retrieve_keeps_record : keeps_record MockDemo.retrieving_session.
Proof.
  intros method adt_uri params headers body self. cbv zeta.
  unfold MockDemo.retrieving_session, _retrieve.
  destruct (_resp_iter self) as [|res rest]; [now split|].
  now split.
Qed.

Lemma retrieve_all_enough (calls : list call) :
  forall base log responses,
    length calls <= length responses ->
    retrieve_all calls
      {| uri := base; execs := log; _resp_iter := responses |} =
      (Ok (zip (map request_of calls)
             (map (fun res => match res with
                              | None => next_ok_response
                              | Some r => r
                              end) (take (length calls) responses))),
       {| uri := base; execs := log;
          _resp_iter := drop (length calls) responses |}).
Proof.
  induction calls as [|c calls IH]; intros base log responses Hlen;
    [reflexivity|].
  destruct responses as [|res responses]; [simpl in Hlen; lia|].
  cbn [retrieve_all]. unfold _retrieve. cbn [_resp_iter uri execs].
  rewrite IH by (simpl in Hlen; lia). reflexivity.
Qed.

Lemma retrieve_all_short (calls : list call) :
  forall base log responses,
    length responses < length calls ->
    retrieve_all calls
      {| uri := base; execs := log; _resp_iter := responses |} =
      (Raised StopIteration, {| uri := base; execs := log; _resp_iter := [] |}).
Proof.
  induction calls as [|c calls IH]; intros base log responses Hlen;
    [simpl in Hlen; lia|].
  cbn [retrieve_all]. unfold _retrieve. cbn [_resp_iter uri execs].
  destruct responses as [|res responses]; [reflexivity|].
  rewrite IH by (simpl in Hlen; lia). reflexivity.
Qed.

End MockFacts.

Section MockProperties.
Import Os Mock MockFacts.

(** X12: the mock connection answers the requests in order from the
    responses it was built with.  With enough responses left, a series of
    [_retrieve] calls returns each request as it was made, paired with the
    next response, a [None] among them replaced by the empty 200 response,
    and leaves the responses that follow; with too few, it raises
    [StopIteration] when they are used up.  The default connection can
    answer one request only. *)
Theorem retrieve_in_order (calls : list call) (self : Connection) :
  let n := length calls in
  let answers :=
    map (fun res => match res with
                    | None => next_ok_response
                    | Some r => r
                    end) (take n (_resp_iter self)) in
  (n <= length (_resp_iter self) ->
   retrieve_all calls self =
     (Ok (zip (map request_of calls) answers),
      {| uri := uri self; execs := execs self;
         _resp_iter := drop n (_resp_iter self) |}))
  /\ (length (_resp_iter self) < n ->
      retrieve_all calls self =
        (Raised StopIteration,
         {| uri := uri self; execs := execs self; _resp_iter := [] |}))
  /\ (forall base first second,
        fst (retrieve_all [first] (new base None)) =
          Ok [(request_of first, next_ok_response)]
        /\ fst (retrieve_all (first :: second :: calls) (new base None)) =
             Raised StopIteration).
Proof.
  cbv zeta. destruct self as [base log responses]. cbn [uri execs _resp_iter].
  split; [apply retrieve_all_enough|]. split; [apply retrieve_all_short|].
  intros base' first second. split; [reflexivity|].
  unfold new. rewrite retrieve_all_short; [reflexivity | simpl; lia].
Qed.

(** X13: [execute] records every call, whatever the parent method then
    does with it.  As long as the parent method leaves the base URI and
    the record alone, after a series of calls [mock_methods] is what it
    was before, followed by the method of every call and its URI behind
    the base URI, ['/<uri>/<adt_uri>'], in the order of the calls; a call
    that raised is recorded like one that returned. *)
Theorem execute_records_calls {A : Type}
    (_execute_with_session :
       string -> string -> option (gmap string string) ->
       option (gmap string string) -> option string -> method_of A)
    (calls : list call) (self : Connection) :
  keeps_record _execute_with_session ->
  let self' := execute_all _execute_with_session calls self in
  uri self' = uri self
  /\ mock_methods self' =
       mock_methods self ++
       map (fun c => (call_method c, "/" +:+ uri self +:+ "/" +:+ call_uri c))
         calls.
Proof.
  intros Hkeep. cbv zeta. revert self.
  induction calls as [|c calls IH]; intros self.
  - simpl. now rewrite app_nil_r.
  - cbn [execute_all]. destruct (IH
      (snd (execute _execute_with_session (call_method c) (call_uri c)
              (call_params c) (call_headers c) (call_body c) self)))
      as [Huri Hlog].
    unfold execute in Huri, Hlog |- *.
    match type of Huri with
    | context [_execute_with_session ?m ?u ?p ?h ?b ?s] =>
        destruct (Hkeep m u p h b s) as [Hu He]
    end.
    cbn [uri execs] in Hu, He.
    rewrite Huri, Hlog, Hu. split; [reflexivity|].
    unfold mock_methods at 1. rewrite He, map_app. cbn [map].
    cbn [Request.method Request.adt_uri].
    now rewrite <- app_assoc.
Qed.

End MockProperties.

(** ** The files of an object *)

Module OwnFilesFacts.
Import PyStr PosixPath Os Checkout Frame CheckoutSpec CheckoutLaws.
Import PyStrFacts PathFacts OsFacts FsFacts CheckoutFacts ExporterFacts.
Local Open Scope py_scope.

Section WithPlatform.
Context {R : Type} {platform : Platform}.

Lemma own_files_refl (name : string) (destdir : option string) :
  Reflexive (@own_files R name destdir).
Proof. intros w. split; [reflexivity | now left]. Qed.

Lemma own_files_trans (name : string) (destdir : option string) :
  Transitive (@own_files R name destdir).
Proof.
  intros w1 w2 w3 [Hc1 H1] [Hc2 H2]. split; [congruence|]. intros k.
  destruct (H2 k) as [E2 | (kind & Hin & ->)].
  - destruct (H1 k) as [E1 | H]; [left; congruence | now right].
  - right. exists kind. split; [assumption|].
    unfold dest_file, dest_dir. now rewrite Hc1.
Qed.

Lemma own_files_insert (name : string) (destdir : option string) (w : world R)
    (kind : string * string) (n : node) (lines : list string) (s : R) :
  kind ∈ file_kinds ->
  own_files name destdir w
    (World (<[dest_file w destdir (lower name +:+ fst kind +:+ "." +:+ snd kind)
              := n]> (fs w)) (cwd w) lines s).
Proof.
  intros Hin. split; [reflexivity|]. intros k. cbn [fs].
  destruct (decide
              (k = dest_file w destdir
                     (lower name +:+ fst kind +:+ "." +:+ snd kind)))
    as [->|Hne]; [right; eauto|].
  left. now rewrite lookup_insert_ne.
Qed.

Lemma own_files_meta (name : string) (destdir : option string) (w : world R)
    (lines : list string) (s : R) :
  own_files name destdir w (World (fs w) (cwd w) lines s).
Proof. split; [reflexivity | now left]. Qed.

Lemma own_files_download (name typsfx : string) (connection : Connection R)
    (kind : source_kind) (n : string) (destdir : option string) :
  has_sep name = false -> has_sep typsfx = false -> lower typsfx = typsfx ->
  (typsfx, "abap") ∈ file_kinds ->
  stable (own_files name destdir)
    (download_abap_source name (adt_source connection kind n) typsfx destdir).
Proof.
  intros Hn Ht Hl Hin w.
  destruct (download_abap_source_cases name typsfx connection kind n destdir w)
    as [[e ->] | (_ & _ & Hrun)]; [apply own_files_refl|].
  cbv zeta in Hrun.
  rewrite (build_filename_dest name typsfx "abap" destdir w Hn Ht eq_refl)
    in Hrun by (simpl; lia).
  rewrite Hl in Hrun.
  destruct (adt_text connection kind n (remote w)) as [[text|e] s];
    rewrite Hrun; exact (own_files_insert name destdir w (typsfx, "abap") _ _ _ Hin).
Qed.

Lemma own_files_dump (name : string) (v : VSEOCLASS) (ag_serializer : string)
    (destdir : option string) :
  has_sep name = false ->
  stable (own_files name destdir)
    (@dump_attributes_to_file R _ name v ".clas" ag_serializer destdir).
Proof.
  intros Hn w.
  destruct (dump_attributes_to_file_cases name v ".clas" ag_serializer destdir w)
    as [[e ->] | (_ & _ & Hrun)]; [apply own_files_refl|].
  cbv zeta in Hrun.
  rewrite (build_filename_dest name ".clas" "xml" destdir w Hn eq_refl eq_refl)
    in Hrun by (simpl; lia).
  rewrite Hrun.
  exact (own_files_insert name destdir w (".clas", "xml") _ _ _
           ltac:(repeat constructor)).
Qed.

Lemma own_files_request {A : Type} (name : string) (destdir : option string)
    (f : R -> result A * R) :
  stable (own_files name destdir) (request f).
Proof.
  intros w. unfold request. destruct (f (remote w)) as [r s].
  apply own_files_meta.
Qed.

Lemma own_files_checkout_class (connection : Connection R) (name : string)
    (destdir : option string) :
  has_sep name = false ->
  stable (own_files name destdir) (checkout_class connection name destdir).
Proof.
  intros Hn. unfold checkout_class.
  apply stable_bind; [apply own_files_trans | apply own_files_request|].
  intros clas.
  repeat (apply stable_bind;
          [apply own_files_trans
          |apply own_files_download;
             [assumption | reflexivity | reflexivity | repeat constructor]|];
          intros _).
  apply stable_bind; [apply own_files_trans| |].
  - intros w. apply own_files_refl.
  - intros v. now apply own_files_dump.
Qed.

Lemma own_files_exporter (obj : adt_object) (connection : Connection R)
    (name : string) (destdir : option string) :
  has_sep name = false ->
  stable (own_files name destdir) (exporter_of obj connection name destdir).
Proof.
  intros Hn. unfold exporter_of.
  destruct (bool_decide _).
  - apply own_files_download;
      [assumption | reflexivity | reflexivity | repeat constructor].
  - destruct (bool_decide _); [now apply own_files_checkout_class|].
    apply own_files_download;
      [assumption | reflexivity | reflexivity | repeat constructor].
Qed.

End WithPlatform.
End OwnFilesFacts.

Section ExporterFrame.
Import PyStr PosixPath Os Checkout Frame CheckoutSpec CheckoutLaws.
Import PyStrFacts PathFacts OsFacts FsFacts CheckoutFacts ExporterFacts.
Import OwnFilesFacts.
Local Open Scope py_scope.
Context {R : Type} {platform : Platform}.

(** X14: an exporter touches the files of its object only.  For a name
    without slash, whether the exporter returns or raises, every path
    whose node has changed is one of the seven files
    [<name><suffix>.<ext>], in lower case, of the destination directory;
    for the commands [abapclass], [program] and [interface], which give
    no destination, that directory is the working directory. *)
Theorem exporters_touch_own_files (connection : Connection R) (name : string)
    (w : world R) :
  has_sep name = false ->
  (forall obj destdir,
     own_files name destdir w (snd (exporter_of obj connection name destdir w)))
  /\ own_files name None w (snd (abapclass connection name w))
  /\ own_files name None w (snd (program connection name w))
  /\ own_files name None w (snd (interface connection name w)).
Proof.
  intros Hn. split; [|split; [|split]].
  - intros obj destdir. now apply own_files_exporter.
  - now apply own_files_checkout_class.
  - apply (own_files_exporter {| typ := "PROG/P"; name := name |}); assumption.
  - apply (own_files_exporter {| typ := "INTF/OI"; name := name |}); assumption.
Qed.

End ExporterFrame.

(** ** The further properties on the demo system *)

(** Without the directory [/nowhere] the program source is not asked
    for; with the directory there and a failing request the file is left
    empty. *)
Lemma download_abap_source_failures_witness :
  Checkout.download_abap_source "ZPROG"
    (Checkout.adt_source Demo.connection Checkout.ProgramSource "ZPROG")
    ".prog" (Some "/nowhere") Demo.world0
    = (Os.Raised Os.FileNotFoundError, Demo.world0)
  /\ Os.fs (snd (Checkout.download_abap_source "ZPROG"
                   (Checkout.adt_source Demo.http_error_connection
                      Checkout.ProgramSource "ZPROG")
                   ".prog" (Some "/home/dev") Demo.world0))
       !! ["home"; "dev"; "zprog.prog.abap"] = Some (Os.File EmptyString).
Proof.
  split.
  - destruct (download_abap_source_failures "ZPROG" ".prog" Demo.connection
                Checkout.ProgramSource "ZPROG" (Some "/nowhere") Demo.world0)
      as (H & _).
    apply H. vm_compute. reflexivity.
  - destruct (download_abap_source_failures "ZPROG" ".prog"
                Demo.http_error_connection Checkout.ProgramSource "ZPROG"
                (Some "/home/dev") Demo.world0) as (_ & H).
    rewrite (H ["home"; "dev"; "zprog.prog.abap"]
               (Os.OtherError "HTTPRequestError") 1);
      vm_compute; reflexivity.
Defined.

(** The program [ZPROG] and the interface [ZIF_DEMO] are exported into
    the home directory. *)
Lemma source_checkout_succeeds_witness :
  Os.fs (snd (Checkout.checkout_program Demo.connection "ZPROG"
                (Some "/home/dev") Demo.world0))
    !! ["home"; "dev"; "zprog.prog.abap"] = Some (Os.File "source of ZPROG #0")
  /\ fst (Checkout.checkout_interface Demo.connection "ZIF_DEMO" None
            Demo.world0) = Os.Ok tt.
Proof.
  split.
  - destruct (source_checkout_succeeds Demo.connection "ZPROG"
                (Some "/home/dev") Demo.world0 "source of ZPROG #0" 1)
      as (H & _); [vm_compute; reflexivity..|].
    rewrite H; vm_compute; reflexivity.
  - destruct (source_checkout_succeeds Demo.connection "ZIF_DEMO" None
                Demo.world0 "source of ZIF_DEMO #0" 1)
      as (_ & H); [vm_compute; reflexivity..|].
    rewrite H; vm_compute; reflexivity.
Defined.

(** The class [ZCL_Demo] is exported into the home directory. *)
Lemma checkout_class_succeeds_witness :
  exists w',
    Checkout.checkout_class (platform := Demo.platform) Demo.connection
      "ZCL_Demo" (Some "/home/dev") Demo.world0 = (Os.Ok tt, w')
    /\ Os.fs w' !! ["home"; "dev"; "zcl_demo.clas.xml"]
       = Some (Os.File "LCL_OBJECT_CLAS:ZCL_DEMO:1")
    /\ Os.fs w' !! ["home"; "dev"; "zcl_demo.clas.locals_imp.abap"]
       = Some (Os.File "source of ZCL_Demo #3")
    /\ Os.remote w' = 5.
Proof.
  destruct (checkout_class_succeeds (platform := Demo.platform)
              Demo.connection "ZCL_Demo" (Some "/home/dev") Demo.world0
              Demo.zcl_demo
              {| Checkout.CLSNAME := "ZCL_DEMO"; Checkout.VERSION := "1";
                 Checkout.LANGU := "E"; Checkout.DESCRIPT := "Demo class";
                 Checkout.STATE := "1"; Checkout.CLSCCINCL := "X";
                 Checkout.FIXPT := "X"; Checkout.UNICODE := "X" |}
              "source of ZCL_Demo #1" "source of ZCL_Demo #2"
              "source of ZCL_Demo #3" "source of ZCL_Demo #4" 1 2 3 4 5)
    as (w' & E & Hfiles & _ & _ & Hr);
    [vm_compute; reflexivity | vm_compute; reflexivity
    | repeat constructor | vm_compute; reflexivity..|].
  exists w'. split; [exact E|].
  unfold CheckoutSpec.class_files_written in Hfiles. rewrite Hfiles.
  repeat split; [vm_compute; reflexivity.. | exact Hr].
Defined.

(** The class in an unknown language: its sources are written, its
    attributes are not. *)
Lemma checkout_class_language_failure_witness :
  exists w',
    Checkout.checkout_class (platform := Demo.platform)
      FailureDemo.foreign_connection "ZCL_FOREIGN" (Some "/home/dev")
      Demo.world0 = (Os.Raised (Os.OtherError "SAPCliError"), w')
    /\ Os.fs w' !! ["home"; "dev"; "zcl_foreign.clas.abap"]
       = Some (Os.File "source of ZCL_FOREIGN #1")
    /\ Os.fs w' !! ["home"; "dev"; "zcl_foreign.clas.xml"] = None.
Proof.
  destruct (checkout_class_language_failure (platform := Demo.platform)
              FailureDemo.foreign_connection "ZCL_FOREIGN" (Some "/home/dev")
              Demo.world0 FailureDemo.zcl_foreign (Os.OtherError "SAPCliError")
              "source of ZCL_FOREIGN #1" "source of ZCL_FOREIGN #2"
              "source of ZCL_FOREIGN #3" "source of ZCL_FOREIGN #4" 1 2 3 4 5)
    as (w' & E & Hmain & _ & _ & _ & Hxml);
    [vm_compute; reflexivity | vm_compute; reflexivity
    | repeat constructor | vm_compute; reflexivity..|].
  exists w'. split; [exact E|]. split; [exact Hmain|].
  etransitivity; [exact Hxml | vm_compute; reflexivity].
Defined.

(** With the file [out] in the way nothing is checked out. *)
Lemma checkout_objects_bad_destination_witness :
  exists e w',
    Checkout.checkout_objects (platform := Demo.platform) Demo.connection
      Demo.mixed (Some "out") FailureDemo.occupied_world = (Os.Raised e, w')
    /\ (e = Os.FileExistsError \/ e = Os.NotADirectoryError)
    /\ CheckoutSpec.only_dirs_added FailureDemo.occupied_world w'.
Proof.
  destruct (checkout_objects_bad_destination (platform := Demo.platform)
              Demo.connection Demo.mixed FailureDemo.occupied_world)
    as (_ & _ & H).
  apply (H "out" "notes"); vm_compute; reflexivity.
Defined.

(** A checkout of the five demo objects that returns has reported the
    sub-package and the table. *)
Lemma only_diagnostics_printed_witness :
  exists l,
    sublist l Demo.mixed
    /\ Os.stderr (snd (Checkout.checkout_objects (platform := Demo.platform)
                         Demo.connection Demo.mixed (Some "out") Demo.world0))
       = map CheckoutSpec.diagnostic l
    /\ sublist [Demo.subpackage; Demo.table] l.
Proof.
  destruct (only_diagnostics_printed (platform := Demo.platform)
              Demo.connection Demo.mixed (Some "out") (Demo.zpkg_args true)
              Demo.world0) as ((l & Hl & Herr & Hok) & _).
  exists l. split; [exact Hl|]. split; [exact Herr|].
  apply Hok. vm_compute. reflexivity.
Defined.

(** After the table the program fails: with an HTTP error the checkout
    ends there, with a [KeyError] it goes on and reports the program and
    the interface as unsupported. *)
Lemma checkout_objects_first_error_witness :
  fst (Checkout.checkout_objects (platform := Demo.platform)
         Demo.http_error_connection ([Demo.table] ++ Demo.zprog :: [Demo.zif])
         (Some "/home/dev") Demo.world0)
    = Os.Raised (Os.OtherError "HTTPRequestError")
  /\ Os.stderr
       (snd (Checkout.checkout_objects (platform := Demo.platform)
               Demo.keyerror_connection
               ([Demo.table] ++ Demo.zprog :: [Demo.zif])
               (Some "/home/dev") Demo.world0))
     = ["Unsupported object: TABL/DT ZTAB"; "Unsupported object: PROG/P ZPROG";
        "Unsupported object: INTF/OI ZIF_DEMO"].
Proof.
  pose (w2 := Os.set_stderr ["Unsupported object: TABL/DT ZTAB"] Demo.world0).
  split.
  - rewrite (checkout_objects_first_error (platform := Demo.platform)
               Demo.http_error_connection [Demo.table] [Demo.zif] Demo.zprog
               "/home/dev" Demo.world0 Demo.world0 w2
               (snd (Checkout.checkout_program Demo.http_error_connection
                       "ZPROG" (Some "/home/dev") w2))
               (Os.OtherError "HTTPRequestError"));
      vm_compute; reflexivity.
  - rewrite (checkout_objects_first_error (platform := Demo.platform)
               Demo.keyerror_connection [Demo.table] [Demo.zif] Demo.zprog
               "/home/dev" Demo.world0 Demo.world0 w2
               (snd (Checkout.checkout_program Demo.keyerror_connection
                       "ZPROG" (Some "/home/dev") w2))
               (Os.KeyError "Content-Type"));
      vm_compute; reflexivity.
Defined.

(** The class [ZCL_Demo] of the sub-package [ZSUB] of [ZPKG] goes to
    [repo/src/zpkg/zsub]. *)
Lemma package_file_layout_witness :
  Os.canon "/home/dev"
    (Checkout.build_filename "ZCL_Demo" ".clas" "abap"
       (Some (Checkout.package_destdir
                (PosixPath.abspath "/home/dev"
                   (PosixPath.join "/home/dev/repo" "src"))
                ["ZPKG"; "ZSUB"])))
    = ["home"; "dev"; "repo"; "src"; "zpkg"; "zsub"; "zcl_demo.clas.abap"].
Proof.
  destruct (package_file_layout "/home/dev" "/home/dev/repo" "src"
              ["ZPKG"; "ZSUB"] "ZCL_Demo" ".clas" "abap") as (_ & H);
    [reflexivity | reflexivity | discriminate | repeat constructor
    | reflexivity | reflexivity | reflexivity | simpl; lia|].
  rewrite H. vm_compute. reflexivity.
Defined.

(** The attribute files of [ZCL_Demo] and [zcl_demo] are one file. *)
Lemma build_filename_collision_witness :
  Checkout.build_filename "ZCL_Demo" ".clas" "xml" None =
    Checkout.build_filename "zcl_demo" ".clas" "xml" None.
Proof.
  apply (build_filename_collision "ZCL_Demo" "zcl_demo"
           (".clas", "xml") (".clas", "xml"));
    [repeat constructor | repeat constructor | split; reflexivity].
Defined.

(** The repository of the demo package is initialized twice. *)
Lemma make_repo_dir_for_package_again_witness :
  let w' := snd (Checkout.make_repo_dir_for_package
                   (platform := Demo.platform) (Demo.zpkg_args false)
                   Demo.world0) in
  Checkout.make_repo_dir_for_package (platform := Demo.platform)
    (Demo.zpkg_args false) w' = (Os.Ok "/home/dev/repo", w').
Proof.
  cbv zeta.
  apply (make_repo_dir_for_package_again (platform := Demo.platform)
           (Demo.zpkg_args false) Demo.world0).
  vm_compute. reflexivity.
Defined.

(** Two requests to the connection with three responses. *)
Lemma retrieve_in_order_witness :
  Mock.retrieve_all [MockDemo.get "programs"; MockDemo.post "classes" "X"]
    MockDemo.connection =
    (Os.Ok [(Mock.request_of (MockDemo.get "programs"), MockDemo.not_found);
            (Mock.request_of (MockDemo.post "classes" "X"),
             Mock.next_ok_response)],
     Mock.new "sap/bc/adt" (Some [Some MockDemo.not_found])).
Proof.
  destruct (retrieve_in_order
              [MockDemo.get "programs"; MockDemo.post "classes" "X"]
              MockDemo.connection) as (H & _).
  rewrite H; [reflexivity | simpl; lia].
Defined.

(** Four calls to the connection with three responses: the fourth raises
    and is recorded like the others. *)
Lemma execute_records_calls_witness :
  Mock.mock_methods
    (Mock.execute_all MockDemo.retrieving_session
       [MockDemo.get "programs"; MockDemo.post "classes" "X";
        MockDemo.get "packages"; MockDemo.get "interfaces"]
       MockDemo.connection) =
    [("GET", "/sap/bc/adt/programs"); ("POST", "/sap/bc/adt/classes");
     ("GET", "/sap/bc/adt/packages"); ("GET", "/sap/bc/adt/interfaces")].
Proof.
  destruct (execute_records_calls MockDemo.retrieving_session
              [MockDemo.get "programs"; MockDemo.post "classes" "X";
               MockDemo.get "packages"; MockDemo.get "interfaces"]
              MockDemo.connection MockFacts.retrieve_keeps_record) as (_ & H).
  rewrite H. reflexivity.
Defined.

(** The command [program] on the demo system changes nothing but files
    of [ZPROG] in the working directory. *)
Lemma exporters_touch_own_files_witness :
  CheckoutLaws.own_files "ZPROG" None Demo.world0
    (snd (Checkout.program Demo.connection "ZPROG" Demo.world0)).
Proof.
  destruct (exporters_touch_own_files (platform := Demo.platform)
              Demo.connection "ZPROG" Demo.world0) as (_ & _ & H & _);
    [reflexivity | exact H].
Defined.
